(* ===== verification/_CoqProject ===== *)
-Q . S2P
Prelude.v
JsValue.v
Strings.v
Schema.v
Handler.v
Cache.v
Manager.v
LLM.v
Backend.v
Scenario.v
Adapter.v
Key.v
Serialize.v
Uncached.v
Lifecycle.v
Dispatch.v
Lookup.v
Update.v
Cached.v
Memo.v
Transparent.v
Progress.v
Session.v
Call.v
Examples.v
