(* ===== verification/Prelude.v ===== *)
(** * Verification of the LLM generation and callback core of langchainjs

    ** The program

    Two TypeScript files are modelled.

    - [src/unnamed/part_000] (in the repository [langchain/src/llms/base.ts]):
      the abstract class [BaseLLM] and its subclass [LLM].  [generate]
      answers a batch of prompts from a cache where it can and asks the
      backend ([_generate], abstract) for the others; [_generateUncached]
      wraps one backend call in the events of a run (start, then end or
      error); [call] is [generate] on one prompt; [serialize] and
      [deserialize] turn a model into a flat record and back; [LLM._generate]
      implements the backend by a loop over [_call].
    - [src/langchain/src/callbacks/base.ts]: [BaseCallbackHandler], the
      object that receives the events: thirteen optional hooks, three ignore
      flags, a constructor, [copy] and [fromMethods].

    The callback manager, the cache and the result schema are imported by
    these files and are not part of them; they are modelled from the
    specification, as far as the two files use them.

    ** The model

    Asynchronous methods are programs of the monad [M W E] of this file: a
    function from a world to an outcome ([Ok] or [Throw]) and a world.  The
    world ([Schema.World]) holds the state of the cache objects by
    reference, the log of hook invocations ([trace]), the log of backend
    invocations ([calls]) and the counter behind [uuidv4].  The world
    survives a throw.  [Promise.all] is [promise_all]: the calls are issued
    in index order, each runs to its end when issued (every promise of the
    sources is a single cache operation or hook), the promises settle in
    the order of a latency function ([completion_order]), the first
    rejection to settle is thrown, and the results are in index order.  The
    latencies ([LLM.Schedule]) are a parameter of [generate]: theorems hold
    for every schedule unless they say otherwise.  Nothing is bounded and
    there is no fuel: every definition is a structural recursion on the
    batch and evaluates on concrete inputs.

    - [Prelude] (this file): the monad, its notations (scope [prog_scope]),
      program equivalence with its [Proper] instances, [for_each] with
      its closed form, [promise_all] and the lemmas on completion orders
      and lists.
    - [JsValue]: the JavaScript values and operations the sources apply:
      [js_toString] (template literals and [Array.prototype.join]), truthiness,
      objects as ordered association lists ([obj_get], [obj_set], [obj_rest],
      [obj_entries]) and [js_sort].
    - [Strings]: strings joined by a separator: what a join with commas
      determines, the order of strings that part ways before a comma, and
      the sorted list with one more element.
    - [Schema]: [Generation], [LLMResultOf], the events ([Event], one
      constructor per hook), the world and [uuidv4].
    - [Handler]: [callbacks/base.ts]: [BaseCallbackHandlerInput],
      [BaseCallbackHandlerMethods], [BaseCallbackHandler], [construct] (the
      constructor), [copy], [fromMethods], and their theorems.
    - [Cache]: the cache port as a class ([CachePort]), its contract
      ([CacheLaws], [CacheReliable]), the in-memory cache that satisfies it
      and a faulty cache that does not.
    - [Manager]: the callback manager: [configure], dispatch by ignore flag
      and hook ([listening], [notify], [emit]), the emissions of LLM, chain,
      tool and agent runs, and the coordinator of what runs inside a run
      ([run_getChild]).
    - [LLM]: [llms/base.ts], one definition per method: [construct_llm],
      [serialize], [deserialize], [_generateUncached], [llmStringKey],
      [lookup_all], [missing_prompts], [splice_from], [update_all],
      [generate], [generatePrompt], [call], [LLM_generate].
    - [Backend]: the interface of the abstract [_generate]: [BackendFrame]
      (a backend changes nothing of the world but may report tokens of its
      run), [BackendRows] (one row per prompt), [BackendPointwise] (the
      row of a prompt is a function of the stop list and the prompt) and
      [BackendTotal] (the backend answers); [LLM_generate] meets them when
      [_call] does.
    - [Scenario]: concrete models, handlers and worlds, used where a
      theorem is applied to an input.

    ** The theorems

    - [Uncached]: the run equations of [_generateUncached] and what it
      leaves of the world; the caller sees the backend's outcome when no
      hook rejects; a rejecting start hook aborts the run before the
      backend; a rejecting error hook replaces the backend's error.
    - [Lifecycle]: the life of a run as a step relation ([run_step]); what
      a call appends to the trace; every listening handler sees a start,
      tokens, and one terminal event.
    - [Dispatch]: an emission reaches exactly the handlers that listen to
      the event, whether or not a hook rejects.
    - [Adapter]: [LLM._generate] in closed form: the calls of [_call] one
      after the other, each in the world the call before it left
      ([world_after]); one row of one generation for each prompt when all
      return; the error and the world of the first call that rejects, and
      no call after it.
    - [Key]: the cache key as the sorted, joined entry strings; it is
      invariant under reordering of the parameters; it identifies the stop
      list up to its joined string, and no further: stop lists with the
      same join share their key, and stop lists of plain strings (not
      empty, no comma) are told apart when the keys of the parameters have
      no comma.
    - [Serialize]: [deserialize] after [serialize]; its two errors; the
      members of [Object.prototype] that the class table also finds.
    - [Lookup], [Update]: the lookups and the updates of [generate] in
      closed form: rows in prompt order, miss indices in settling order; the
      splice by index; the writes as a list applied to the cache.
    - [Cached]: [generate]: all hits, partial hits, the single backend call
      on the misses, the length of the result, the uncached path without a
      cache, failure of a lookup, the argument test.
    - [Memo]: against [CacheLaws]: writes only under the key of the call
      and for misses, hits never rewritten, memoization (the same batch
      again is answered from the cache), and the sharing of entries between
      stop lists with the same key.
    - [Transparent]: the cached path against its reference, the uncached
      path: with a pointwise backend and a cache that holds only rows of the
      backend ([consistent]), [generate] returns the rows of the backend and
      keeps the cache so, for every settling order; by induction, so does a
      session of calls ([session]).
    - [Progress]: [generate] on every branch, up to the caches, is the
      uncached path on some of the prompts or nothing; hence the bounds of
      a call (one identifier, one backend call, no more prompts than the
      batch), the freshness of run identifiers across calls ([runs_wf]),
      that a call returns when cache, backend and hooks do not fail, and
      what a rejected update leaves.
    - [Session]: the runs of a session of calls: every run ever started
      has, for a listening handler, a complete life of its own in the
      trace ([runs_complete]), by induction on the calls.
    - [Call]: no [null] row with a backend that returns a row per prompt;
      [call] returns the text of the first candidate.
    - [Examples]: runs that show the settling order reaching the backend,
      the [null] rows of a backend that returns too few rows, and the
      entry written for the prompt [undefined] when it returns too many.

    ** Not modelled

    The concrete backends ([openai.js] is only imported) and the [uuid]
    library: the backend is the field [_generate] constrained by the
    interfaces of [Backend], [uuidv4] is a counter that never repeats.
    Timing beyond the order in which promises settle.  Mutation of the
    object a backend returns ([output.__run = ...] writes into it): the
    result is a new record, which differs only for a backend that keeps
    the object it returned.

    ** Assumptions and limits

    Strings are compared as sequences of bytes ([js_sort] orders UTF-16
    code units); numbers are integers; [JsVal] has no functions or cycles.
    A hook is a function of the event to an outcome: what a hook does
    besides settling is outside the model.  A handler of a class other than
    the local class of [fromMethods] is taken to have a constructor that
    passes its input to the base constructor.  The constructor of [OpenAI]
    and the module [openai.js] are outside the sources: a loaded model is
    its class and its fields.  Chain, tool and agent events are dispatched
    by [emit] but no method of the sources emits them.  Verbosity is
    carried and has no effect in the two files.

    The manager is modelled from the specification, and three things in
    it are choices of the model where the specification is silent.  A
    handler is identified by its [name]: the specification deduplicates
    sinks by identity, the model keeps the first handler of each name
    ([Manager.dedup_by_name]), so that two handler objects with one name
    count as one; the theorems on the life of a run ([Lifecycle],
    [Session]) speak of the handlers that are left, one for each name.
    The caller's handlers come before the defaults in the merge.  Tool
    events follow [ignoreAgent], and a text event is never ignored. *)

From stdpp Require Export base tactics option list.
From stdpp Require Import sorting.

(** ** Outcomes of an awaited promise *)

(** A settled promise is either fulfilled with a value or rejected with an
    error; [await] continues with the value or throws the error. *)
Inductive outcome (E A : Type) : Type :=
  | Ok (a : A)
  | Throw (e : E).
Arguments Ok {E A} a.
Arguments Throw {E A} e.

Definition is_ok {E A} (o : outcome E A) : bool :=
  match o with Ok _ => true | Throw _ => false end.

Definition outcome_map {E A B} (f : A → B) (o : outcome E A) : outcome E B :=
  match o with Ok a => Ok (f a) | Throw e => Throw e end.

#[export] Instance outcome_eq_dec {E A} `{EqDecision E, EqDecision A} :
  EqDecision (outcome E A).
Proof. solve_decision. Defined.

(** ** The monad of programs

    A program reads and writes a world [W] and may throw an error [E].  The
    world survives a throw: what a method did before it threw (events
    delivered, cache entries written) stays done. *)
Definition M (W E A : Type) : Type := W → outcome E A * W.

Section monad.
Context {W E : Type}.

Definition ret {A} (a : A) : M W E A := λ w, (Ok a, w).

Definition throw {A} (e : E) : M W E A := λ w, (Throw e, w).

Definition bind {A B} (m : M W E A) (k : A → M W E B) : M W E B :=
  λ w, match m w with
       | (Ok a, w') => k a w'
       | (Throw e, w') => (Throw e, w')
       end.

(** [try { m } catch (e) { h e }] *)
Definition try_catch {A} (m : M W E A) (h : E → M W E A) : M W E A :=
  λ w, match m w with
       | (Ok a, w') => (Ok a, w')
       | (Throw e, w') => h e w'
       end.

Definition gets {A} (f : W → A) : M W E A := λ w, (Ok (f w), w).

Definition modify (f : W → W) : M W E unit := λ w, (Ok tt, f w).

(** Awaiting a promise that has already settled with outcome [o]. *)
Definition await {A} (o : outcome E A) : M W E A := λ w, (o, w).

(** Extensional equality of programs. *)
Definition prog_equiv {A} : relation (M W E A) := λ m1 m2, ∀ w, m1 w = m2 w.
End monad.

Declare Scope prog_scope.
Delimit Scope prog_scope with prog.
Bind Scope prog_scope with M.

Notation "x <- m ;; k" := (bind m (λ x, k))
  (at level 100, m at next level, right associativity,
   format "'[v' x  <-  m  ;;  '/' k ']'") : prog_scope.
Notation "m ;; k" := (bind m (λ _, k))
  (at level 100, right associativity) : prog_scope.
Infix "≈" := prog_equiv (at level 70, no associativity) : prog_scope.

Open Scope prog_scope.

(** The development's unfolding tactic for monadic code: exposes the state
    passing and simplifies matches on known outcomes. *)
Ltac prog_unfold :=
  unfold bind, ret, throw, try_catch, gets, modify, await in *.

Ltac prog_simpl := prog_unfold; simpl in *.

(** Case analysis on the next program run in the goal. *)
Ltac prog_step :=
  match goal with
  | |- context [match ?m ?w with _ => _ end] =>
      let o := fresh "o" in let w' := fresh "w" in let Hrun := fresh "Hrun" in
      destruct (m w) as [o w'] eqn:Hrun; destruct o
  end.

Create HintDb prog discriminated.

Section monad_laws.
Context {W E : Type}.
Implicit Types w : W.

#[export] Instance prog_equiv_equivalence {A} :
  Equivalence (@prog_equiv W E A).
Proof.
  split; [by intros m w | by intros m1 m2 H w | ].
  intros m1 m2 m3 H12 H23 w. by rewrite H12.
Qed.

#[export] Instance bind_proper {A B} :
  Proper (prog_equiv ==> pointwise_relation A prog_equiv ==> prog_equiv)
         (@bind W E A B).
Proof.
  intros m1 m2 Hm k1 k2 Hk w. unfold bind. rewrite Hm.
  destruct (m2 w) as [[a|e] w']; [apply Hk | done].
Qed.

#[export] Instance try_catch_proper {A} :
  Proper (prog_equiv ==> pointwise_relation E prog_equiv ==> prog_equiv)
         (@try_catch W E A).
Proof.
  intros m1 m2 Hm h1 h2 Hh w. unfold try_catch. rewrite Hm.
  destruct (m2 w) as [[a|e] w']; [done | apply Hh].
Qed.

Lemma bind_ret_l {A B} (a : A) (k : A → M W E B) : (x <- ret a ;; k x) ≈ k a.
Proof. by intros w. Qed.

Lemma bind_ret_r {A} (m : M W E A) : (x <- m ;; ret x) ≈ m.
Proof. intros w. unfold bind, ret. by destruct (m w) as [[a|e] w']. Qed.

Lemma bind_assoc {A B C} (m : M W E A) (k : A → M W E B) (h : B → M W E C) :
  (y <- (x <- m ;; k x) ;; h y) ≈ (x <- m ;; y <- k x ;; h y).
Proof. intros w. unfold bind. by destruct (m w) as [[a|e] w']. Qed.

Lemma bind_throw {A B} (e : E) (k : A → M W E B) : (x <- throw e ;; k x) ≈ throw e.
Proof. by intros w. Qed.

Lemma try_catch_ret {A} (a : A) (h : E → M W E A) : try_catch (ret a) h ≈ ret a.
Proof. by intros w. Qed.

Lemma try_catch_throw {A} (e : E) (h : E → M W E A) : try_catch (throw e) h ≈ h e.
Proof. by intros w. Qed.

(** Running a bind whose first program's run is known. *)
Lemma bind_run_ok {A B} (m : M W E A) (k : A → M W E B) w a w' :
  m w = (Ok a, w') → bind m k w = k a w'.
Proof. unfold bind. by intros ->. Qed.

Lemma bind_run_throw {A B} (m : M W E A) (k : A → M W E B) w e w' :
  m w = (Throw e, w') → bind m k w = (Throw e, w').
Proof. unfold bind. by intros ->. Qed.

(** Inversion of a bind that returned. *)
Lemma bind_ok_inv {A B} (m : M W E A) (k : A → M W E B) w b w'' :
  bind m k w = (Ok b, w'') →
  ∃ a w', m w = (Ok a, w') ∧ k a w' = (Ok b, w'').
Proof.
  unfold bind. destruct (m w) as [[a|e] w']; [eauto | done].
Qed.
End monad_laws.

Create Rewrite HintDb prog_rw.
#[export] Hint Rewrite @bind_run_ok @bind_run_throw using eassumption : prog_rw.

(** ** Sequential iteration

    [for (x of l) { ys.push(await f(x)) }]: the calls run one after the
    other and the first throw ends the loop. *)
Fixpoint for_each {W E A B} (f : A → M W E B) (l : list A) : M W E (list B) :=
  match l with
  | [] => ret []
  | x :: l' => y <- f x ;; ys <- for_each f l' ;; ret (y :: ys)
  end.

(** The state after the calls of [f] on the elements of [l], one after the
    other from [w]. *)
Definition world_after {W E A B} (f : A → M W E B) (l : list A) (w : W) : W :=
  foldl (λ w x, (f x w).2) w l.
Arguments world_after : simpl never.

(** ** Concurrent promises

    [Promise.all(l.map(async (x, i) => ...))] issues every call at once, in
    index order, and then awaits the promises.  The calls settle in an
    order the program does not control: the [i]-th settles after a latency
    [lat i], ties being broken by the order of issue, as the job queue
    does. *)

(** [i] settles no later than [j]. *)
Definition settles_before (lat : nat → nat) : relation nat :=
  λ i j, lat i < lat j ∨ (lat i = lat j ∧ i ≤ j).

#[export] Instance settles_before_dec lat : RelDecision (settles_before lat).
Proof. intros i j. unfold settles_before. apply _. Defined.

(** The order in which [n] concurrent promises settle. *)
Definition completion_order (lat : nat → nat) (n : nat) : list nat :=
  merge_sort (settles_before lat) (seq 0 n).

(** Issue the calls [f i x] for the elements of [l], numbered from [i],
    each acting on the world in turn; collect how each promise settles. *)
Fixpoint issue_all {W E A B} (f : nat → A → M W E B) (i : nat) (l : list A)
    (w : W) : list (outcome E B) * W :=
  match l with
  | [] => ([], w)
  | x :: l' =>
      let '(o, w') := f i x w in
      let '(os, w'') := issue_all f (S i) l' w' in
      (o :: os, w'')
  end.

(** The rejection [Promise.all] reports: that of the promise that rejects
    first in the completion order. *)
Definition rejection_at {E B} (os : list (outcome E B)) (i : nat) : option E :=
  match os !! i with
  | Some (Throw e) => Some e
  | _ => None
  end.

Definition first_rejection {E B} (order : list nat) (os : list (outcome E B)) : option E :=
  head (omap (rejection_at os) order).

Definition fulfilled {E B} (os : list (outcome E B)) : list B :=
  omap (λ o, match o with Ok b => Some b | Throw _ => None end) os.

(** [await Promise.all(l.map(async (x, i) => f i x))]. *)
Definition promise_all {W E A B} (lat : nat → nat) (f : nat → A → M W E B)
    (l : list A) : M W E (list B) :=
  λ w, let '(os, w') := issue_all f 0 l w in
       match first_rejection (completion_order lat (length l)) os with
       | Some e => (Throw e, w')
       | None => (Ok (fulfilled os), w')
       end.

Section completion_order.
Context (lat : nat → nat).

#[export] Instance settles_before_total : Total (settles_before lat).
Proof. intros i j. unfold settles_before. lia. Qed.

#[export] Instance settles_before_trans : Transitive (settles_before lat).
Proof. intros i j k. unfold settles_before. lia. Qed.

#[export] Instance settles_before_antisymm : AntiSymm (=) (settles_before lat).
Proof. intros i j. unfold settles_before. lia. Qed.

Lemma completion_order_perm n : completion_order lat n ≡ₚ seq 0 n.
Proof. apply merge_sort_Permutation. Qed.

Lemma completion_order_sorted n : Sorted (settles_before lat) (completion_order lat n).
Proof. apply (Sorted_merge_sort _). Qed.

Lemma completion_order_elem_of n i : i ∈ completion_order lat n ↔ i < n.
Proof. rewrite completion_order_perm, elem_of_seq. lia. Qed.

Lemma completion_order_NoDup n : NoDup (completion_order lat n).
Proof. rewrite completion_order_perm. apply NoDup_seq. Qed.

Lemma completion_order_length n : length (completion_order lat n) = n.
Proof. by rewrite completion_order_perm, length_seq. Qed.

Lemma seq_sorted_settles i n :
  (∀ a b, a ≤ b → lat a ≤ lat b) → Sorted (settles_before lat) (seq i n).
Proof.
  intros Hmono. revert i. induction n as [|n IH]; intros i; simpl; [constructor|].
  constructor; [apply IH|]. destruct n; simpl; constructor.
  unfold settles_before. specialize (Hmono i (S i)). lia.
Qed.

(** Promises whose latencies do not decrease with the index settle in
    the order of issue: the case of promises that are already settled
    when they are awaited. *)
Lemma completion_order_in_order n :
  (∀ a b, a ≤ b → lat a ≤ lat b) → completion_order lat n = seq 0 n.
Proof.
  intros Hmono. apply (Sorted_unique (settles_before lat)).
  - apply completion_order_sorted.
  - by apply seq_sorted_settles.
  - apply completion_order_perm.
Qed.
End completion_order.

Section promise_all.
Context {W E A B : Type}.
Implicit Types (f : nat → A → M W E B) (os : list (outcome E B)).

Lemma issue_all_length f i l w : length (issue_all f i l w).1 = length l.
Proof.
  revert i w. induction l as [|x l IH]; intros i w; simpl; [done|].
  destruct (f i x w) as [o w']. specialize (IH (S i) w').
  destruct (issue_all f (S i) l w') as [os w'']. simpl in *. by rewrite IH.
Qed.

Lemma first_rejection_None order os :
  first_rejection order os = None ↔ ∀ i, i ∈ order → rejection_at os i = None.
Proof.
  unfold first_rejection. induction order as [|j order IH]; simpl.
  - split; [intros _ i Hi; by apply elem_of_nil in Hi | done].
  - destruct (rejection_at os j) as [e|] eqn:Hj; simpl.
    + split; [done | intros H; specialize (H j); rewrite Hj in H; apply H; left].
    + rewrite IH. split.
      * intros H i [->|Hi]%elem_of_cons; auto.
      * intros H i Hi. apply H. by right.
Qed.

Lemma first_rejection_Some order os e :
  first_rejection order os = Some e → ∃ i, i ∈ order ∧ os !! i = Some (Throw e).
Proof.
  unfold first_rejection. intros [i [Hi Hr]]%head_Some_elem_of%list_elem_of_omap.
  exists i. split; [done|]. unfold rejection_at in Hr.
  destruct (os !! i) as [[b|e']|]; by simplify_eq.
Qed.

(** With no rejection every promise is fulfilled. *)
Lemma fulfilled_all_ok os :
  (∀ i, i < length os → rejection_at os i = None) → Ok <$> fulfilled os = os.
Proof.
  unfold fulfilled. induction os as [|o os IH]; intros H; simpl; [done|].
  destruct o as [b|e].
  - csimpl. f_equal. apply IH. intros i Hi. apply (H (S i)). simpl. lia.
  - specialize (H 0). unfold rejection_at in H. simpl in H.
    discriminate H. lia.
Qed.
End promise_all.

(** ** Lists read through their indices *)

Section by_index.
Context {A B : Type}.
Implicit Types (l : list A) (f : option A → option B).

Lemma omap_lookup_seq_app f pre l :
  omap (λ i, f ((pre ++ l) !! i)) (seq (length pre) (length l)) =
  omap (λ x, f (Some x)) l.
Proof.
  revert pre. induction l as [|x l IH]; intros pre; [done|].
  cbn [length seq]. csimpl. rewrite list_lookup_middle by done.
  specialize (IH (pre ++ [x])).
  rewrite length_app, Nat.add_1_r, <-(assoc_L (++) pre [x] l) in IH.
  simpl in IH. by rewrite IH.
Qed.

Lemma omap_fmap {A'} (g : A' → A) (h : A → option B) (l' : list A') :
  omap h (g <$> l') = omap (h ∘ g) l'.
Proof. induction l' as [|x l' IH]; csimpl; [done | by rewrite IH]. Qed.

(** Visiting the indices of a list in order visits its elements. *)
Lemma omap_lookup_seq f l :
  omap (λ i, f (l !! i)) (seq 0 (length l)) = omap (λ x, f (Some x)) l.
Proof. apply (omap_lookup_seq_app f [] l). Qed.
End by_index.

Section filters.
Context {A : Type} (P : A → Prop) `{!∀ x, Decision (P x)}.
Implicit Types l : list A.

Lemma filter_all l : Forall P l → filter P l = l.
Proof.
  induction 1 as [|x l Hx _ IH]; [done|]. by rewrite filter_cons_True, IH.
Qed.

Lemma filter_none l : Forall (λ x, ¬ P x) l → filter P l = [].
Proof.
  induction 1 as [|x l Hx _ IH]; [done|]. by rewrite filter_cons_False.
Qed.

Lemma StronglySorted_filter (R : relation A) l :
  StronglySorted R l → StronglySorted R (filter P l).
Proof.
  induction 1 as [|x l _ IH Hx]; [constructor|].
  destruct (decide (P x)).
  - rewrite filter_cons_True by done. constructor; [done|].
    apply Forall_forall. intros y [_ Hy]%list_elem_of_filter.
    by eapply Forall_forall in Hx.
  - by rewrite filter_cons_False.
Qed.
End filters.

Lemma seq_StronglySorted k n : StronglySorted lt (seq k n).
Proof.
  revert k. induction n as [|n IH]; intros k; simpl; constructor; [apply IH|].
  apply Forall_forall. intros j Hj%elem_of_seq. lia.
Qed.

Section in_order.
Context {W E A B : Type}.
Implicit Types (f : nat → A → M W E B) (os : list (outcome E B)).

(** The first rejection among promises that settle in the order of
    issue is the first rejected promise of the list. *)
Lemma first_rejection_in_order os :
  first_rejection (seq 0 (length os)) os =
  head (omap (λ o, match o with Throw e => Some e | Ok _ => None end) os).
Proof.
  unfold first_rejection. f_equal.
  pose proof (omap_lookup_seq
    (λ o : option (outcome E B), match o with Some (Throw e) => Some e | _ => None end) os)
    as H.
  etrans; [exact H|]. apply list_omap_ext, Forall2_same_length_lookup.
  split; [done|]. intros i [b|e] y ? ?; by simplify_eq.
Qed.
End in_order.

(** When [Promise.all] over [n] promises reports no rejection, every
    promise was fulfilled. *)
Lemma first_rejection_None_all_ok {E B} lat (os : list (outcome E B)) :
  first_rejection (completion_order lat (length os)) os = None → Forall is_ok os.
Proof.
  intros Hnone. apply Forall_lookup. intros i o Hi.
  pose proof (proj1 (first_rejection_None _ _) Hnone i) as Hr.
  rewrite completion_order_elem_of in Hr.
  specialize (Hr (lookup_lt_Some _ _ _ Hi)). unfold rejection_at in Hr.
  rewrite Hi in Hr. by destruct o.
Qed.

(** A list of witnesses, from a witness for each element. *)
Lemma Forall2_exists {A B} (P : A → B → Prop) (l : list A) :
  Forall (λ x, ∃ y, P x y) l → ∃ k, Forall2 P l k.
Proof.
  induction 1 as [|x l [y Hy] _ [k Hk]]; [by exists [] | exists (y :: k); by constructor].
Qed.

(** A continuation that only returns does not change the state. *)
Lemma bind_ret_snd {W E A B} (m : M W E A) (f : A → B) (w : W) :
  ((x <- m ;; ret (f x)) w).2 = (m w).2.
Proof. unfold bind, ret. by destruct (m w) as [[a|e] w']. Qed.

(** Filters by predicates that agree on the elements of the list. *)
Lemma filter_ext_Forall {A} (P Q : A → Prop) `{!∀ x, Decision (P x), !∀ x, Decision (Q x)}
    (l : list A) :
  Forall (λ x, P x ↔ Q x) l → filter P l = filter Q l.
Proof.
  induction 1 as [|x l Hx _ IH]; [done|]. rewrite !filter_cons, IH.
  destruct (decide (P x)), (decide (Q x)); tauto.
Qed.

(** Promises that were all fulfilled: [Promise.all] reports no rejection
    and returns their values. *)
Lemma all_ok_first_rejection {E B} order (os : list (outcome E B)) :
  Forall is_ok os → first_rejection order os = None.
Proof.
  intros Hok. apply first_rejection_None. intros i _. unfold rejection_at.
  destruct (os !! i) as [[b|e]|] eqn:Hi; [done| |done].
  by apply (proj1 (Forall_lookup _ _) Hok i) in Hi.
Qed.

Lemma all_ok_fulfilled {E B} (os : list (outcome E B)) :
  Forall is_ok os → Ok <$> fulfilled os = os.
Proof.
  intros Hok. apply fulfilled_all_ok. intros i _. unfold rejection_at.
  destruct (os !! i) as [[b|e]|] eqn:Hi; [done| |done].
  by apply (proj1 (Forall_lookup _ _) Hok i) in Hi.
Qed.

(** ** The loop in closed form *)

Section for_each_run.
Context {W E A B : Type} (f : A → M W E B).
Implicit Types (l : list A) (w : W).

Lemma world_after_cons x l w : world_after f (x :: l) w = world_after f l (f x w).2.
Proof. done. Qed.

(** The loop returns when every call returns: the [i]-th result is that
    of the [i]-th call, made in the state the calls before it left. *)
Lemma for_each_ok_inv l w ys w' :
  for_each f l w = (Ok ys, w') →
  w' = world_after f l w ∧ length ys = length l ∧
  ∀ i x, l !! i = Some x →
    ∃ y, ys !! i = Some y ∧
      f x (world_after f (take i l) w) = (Ok y, world_after f (take (S i) l) w).
Proof.
  revert w ys. induction l as [|x l IH]; intros w ys; cbn [for_each].
  - intros [= <- <-]. by split_and!; [..|intros i x ?].
  - intros (y & w1 & Hy & (ys' & w2 & Hl & [= <- <-])%bind_ok_inv)%bind_ok_inv.
    destruct (IH _ _ Hl) as (-> & Hlen & Hys). rewrite world_after_cons, Hy.
    split_and!; [done | by simpl; f_equal|]. intros [|i] x' Hx'; simplify_eq/=.
    + exists y. by rewrite world_after_cons, Hy.
    + rewrite !world_after_cons, Hy. by apply Hys.
Qed.

(** The loop throws the error of the first call that throws, in the state
    that call left: the calls before it returned and none is made after
    it. *)
Lemma for_each_throw_inv l w e w' :
  for_each f l w = (Throw e, w') →
  ∃ i x, l !! i = Some x ∧ f x (world_after f (take i l) w) = (Throw e, w') ∧
    ∀ j x', j < i → l !! j = Some x' → is_ok (f x' (world_after f (take j l) w)).1.
Proof.
  revert w. induction l as [|x l IH]; intros w; cbn [for_each]; [done|].
  unfold bind at 1. destruct (f x w) as [[y|e'] w1] eqn:Hy.
  - unfold bind at 1. destruct (for_each f l w1) as [[ys|e''] w2] eqn:Hl; [done|].
    intros [= -> ->]. destruct (IH _ Hl) as (i & x0 & Hx0 & Hf & Hbefore).
    exists (S i), x0. simpl. rewrite world_after_cons, Hy. split_and!; [done..|].
    intros [|j] x' Hj Hx'; simplify_eq/=;
      [by unfold world_after; simpl; rewrite Hy|].
    rewrite world_after_cons, Hy. apply Hbefore; [lia | done].
  - intros [= -> ->]. exists 0, x. split_and!; [done..|]. intros; lia.
Qed.

(** The states of the loop are those of any program with the same effect
    on the state. *)
Lemma world_after_ext {B'} (g : A → M W E B') l w :
  (∀ x w, (g x w).2 = (f x w).2) → world_after g l w = world_after f l w.
Proof.
  intros Hg. revert w. induction l as [|x l IH]; intros w; [done|].
  change (world_after g l (g x w).2 = world_after f l (f x w).2). by rewrite Hg, IH.
Qed.
End for_each_run.

(** A property of the state that every step keeps is kept by the loop,
    however it ends. *)
Lemma for_each_invariant {W E A B} (Q : W → Prop) (f : A → M W E B) (l : list A) w :
  (∀ x w, Q w → Q (f x w).2) → Q w → Q (for_each f l w).2.
Proof.
  intros Hf. revert w. induction l as [|x l IH]; intros w Hw; simpl; [done|].
  unfold bind at 1. specialize (Hf x w Hw). destruct (f x w) as [[y|e] w1]; [|done].
  rewrite bind_ret_snd. by apply IH.
Qed.
