(* ===== verification/JsValue.v ===== *)
(** * JavaScript values and objects, as far as the sources use them

    The sources build the cache key with [Object.entries], [Array.sort] and
    a template literal, test values for truthiness and read object
    properties.  This file models the values ([JsVal]), their conversion to
    a string ([js_toString], [Array.prototype.join] included), truthiness,
    and plain objects ([JsObject]) as association lists in property order,
    with the lemmas on reading, writing and removing properties. *)

From stdpp Require Import strings pretty sets sorting.
From S2P Require Import Prelude.

#[local] Set Warnings "-register-all,-clear-no-such-hyp".

(** ** Values *)

(** A value of type [any].  Numbers are the integers; an object other than
    an array is opaque ([JObj]): the sources only convert such a value to a
    string. *)
Inductive JsVal : Type :=
  | JUndefined
  | JNull
  | JBool (b : bool)
  | JNum (n : Z)
  | JStr (s : string)
  | JArr (l : list JsVal)
  | JObj.

(** [String(v)], the conversion a template literal applies.  An array joins
    its elements with a comma, [undefined] and [null] elements as the empty
    string. *)
Fixpoint js_toString (v : JsVal) : string :=
  match v with
  | JUndefined => "undefined"
  | JNull => "null"
  | JBool b => if b then "true" else "false"
  | JNum n => pretty n
  | JStr s => s
  | JArr l =>
      String.concat ","
        (map (λ x, match x with
                   | JUndefined | JNull => ""
                   | _ => js_toString x
                   end) l)
  | JObj => "[object Object]"
  end.

(** The element-wise conversion of [Array.prototype.join]. *)
Definition js_join_elem (x : JsVal) : string :=
  match x with
  | JUndefined | JNull => ""
  | _ => js_toString x
  end.

(** [Boolean(v)]: what [if (v)], [!v] and [v && ...] test. *)
Definition js_truthy (v : JsVal) : bool :=
  match v with
  | JUndefined | JNull => false
  | JBool b => b
  | JNum n => bool_decide (n ≠ 0%Z)
  | JStr s => bool_decide (s ≠ "")
  | JArr _ | JObj => true
  end.

(** [v === s] for a string literal [s]. *)
Definition js_strict_eq_str (v : JsVal) (s : string) : bool :=
  match v with
  | JStr s' => bool_decide (s' = s)
  | _ => false
  end.

(** A [string[]] as a value. *)
Definition js_of_strings (l : list string) : JsVal := JArr (JStr <$> l).

(** An optional argument: absent is [undefined]. *)
Definition js_of_option {A} (f : A → JsVal) (o : option A) : JsVal :=
  from_option f JUndefined o.

(** ** Plain objects *)

(** An object is its own properties in insertion order. *)
Abbreviation JsObject := (list (string * JsVal)).

(** [o[k]] on own properties; [undefined] when absent. *)
Fixpoint obj_get (o : JsObject) (k : string) : JsVal :=
  match o with
  | [] => JUndefined
  | (k', v) :: o' => if decide (k' = k) then v else obj_get o' k
  end.

(** [o[k] = v]: an existing property keeps its position, a new one is
    appended. *)
Fixpoint obj_set (k : string) (v : JsVal) (o : JsObject) : JsObject :=
  match o with
  | [] => [(k, v)]
  | (k', v') :: o' =>
      if decide (k' = k) then (k, v) :: o' else (k', v') :: obj_set k v o'
  end.

(** The rest of a destructuring [{k1, ..., kn, ...rest} = o]. *)
Definition obj_rest (ks : list string) (o : JsObject) : JsObject :=
  filter (λ kv, kv.1 ∉ ks) o.

Definition obj_keys (o : JsObject) : list string := o.*1.

(** An object has each property once. *)
Definition obj_wf (o : JsObject) : Prop := NoDup (obj_keys o).

#[export] Instance obj_wf_dec o : Decision (obj_wf o).
Proof. unfold obj_wf. apply _. Defined.

(** [Object.entries(o)]: the array of the pairs [[k, v]]. *)
Definition obj_entries (o : JsObject) : list JsVal :=
  (λ kv, JArr [JStr kv.1; kv.2]) <$> o.

(** ** Sorting *)

(** The order of strings, code unit by code unit (here: byte by byte). *)
Definition str_le : relation string := λ s1 s2, String.leb s1 s2.

#[export] Instance str_le_dec : RelDecision str_le.
Proof. intros a b. unfold str_le. apply _. Defined.

(** The default order of [Array.prototype.sort]: by the elements' strings. *)
Definition js_le (a b : JsVal) : Prop := str_le (js_toString a) (js_toString b).

#[export] Instance js_le_dec : RelDecision js_le.
Proof. intros a b. unfold js_le. apply _. Defined.

Definition is_undefined (v : JsVal) : bool :=
  match v with JUndefined => true | _ => false end.

(** [l.sort()]: the defined elements in order, [undefined] ones last. *)
Definition js_sort (l : list JsVal) : list JsVal :=
  merge_sort js_le (filter (λ v, ¬ is_undefined v) l) ++ filter (λ v, is_undefined v) l.

(** ** Lemmas *)

Lemma js_toString_arr l :
  js_toString (JArr l) = String.concat "," (js_join_elem <$> l).
Proof. done. Qed.

Lemma js_toString_of_strings l :
  js_toString (js_of_strings l) = String.concat "," l.
Proof.
  unfold js_of_strings. rewrite js_toString_arr, <-list_fmap_compose. f_equal.
  induction l as [|s l IH]; csimpl; [done | by rewrite IH].
Qed.

Section objects.
Implicit Types (o : JsObject) (k : string) (v : JsVal).

Lemma obj_get_set_eq o k v : obj_get (obj_set k v o) k = v.
Proof.
  induction o as [|[k' v'] o IH]; simpl; repeat case_decide; simpl;
    repeat case_decide; try done.
Qed.

Lemma obj_get_set_ne o k k' v : k ≠ k' → obj_get (obj_set k v o) k' = obj_get o k'.
Proof.
  intros Hne. induction o as [|[k0 v0] o IH]; simpl; repeat case_decide; simpl;
    repeat case_decide; simplify_eq; done.
Qed.

Lemma obj_keys_set o k v :
  obj_keys (obj_set k v o) = if decide (k ∈ obj_keys o) then obj_keys o else obj_keys o ++ [k].
Proof.
  unfold obj_keys. induction o as [|[k0 v0] o IH]; csimpl; [done|].
  destruct (decide (k0 = k)) as [->|Hne]; csimpl.
  - rewrite decide_True; [done | set_solver].
  - rewrite IH. destruct (decide (k ∈ o.*1)).
    + rewrite decide_True; [done | set_solver].
    + rewrite decide_False; [done | set_solver].
Qed.

Lemma obj_set_wf o k v : obj_wf o → obj_wf (obj_set k v o).
Proof.
  unfold obj_wf. rewrite obj_keys_set. case_decide; [done|].
  intros Hnd. apply NoDup_app. split_and!; [done | set_solver | apply NoDup_singleton].
Qed.

Lemma obj_get_notin o k : k ∉ obj_keys o → obj_get o k = JUndefined.
Proof.
  unfold obj_keys. induction o as [|[k0 v0] o IH]; csimpl; [done|].
  intros Hk. rewrite decide_False; [apply IH|]; set_solver.
Qed.

Lemma obj_get_rest_in o ks k : k ∈ ks → obj_get (obj_rest ks o) k = JUndefined.
Proof.
  intros Hk. apply obj_get_notin. unfold obj_keys, obj_rest.
  intros ([k' v] & -> & [Hnin _]%list_elem_of_filter)%list_elem_of_fmap. done.
Qed.

Lemma obj_get_rest_notin o ks k : k ∉ ks → obj_get (obj_rest ks o) k = obj_get o k.
Proof.
  intros Hk. unfold obj_rest. induction o as [|[k0 v0] o IH]; [done|].
  rewrite filter_cons. cbn [obj_get fst]. destruct (decide (k0 = k)) as [->|Hne].
  - rewrite decide_True by done. cbn [obj_get]. by rewrite decide_True.
  - case_decide; cbn [obj_get]; [by rewrite decide_False | done].
Qed.
End objects.

Section sorting.
Implicit Types (l : list JsVal).

Lemma string_leb_trans s1 s2 s3 :
  String.leb s1 s2 = true → String.leb s2 s3 = true → String.leb s1 s3 = true.
Proof.
  unfold String.leb. revert s2 s3.
  induction s1 as [|c1 s1 IH]; intros [|c2 s2] [|c3 s3]; simpl; try done.
  unfold Ascii.compare.
  destruct (N.compare_spec (Ascii.N_of_ascii c1) (Ascii.N_of_ascii c2)) as [H12|H12|H12],
           (N.compare_spec (Ascii.N_of_ascii c2) (Ascii.N_of_ascii c3)) as [H23|H23|H23],
           (N.compare_spec (Ascii.N_of_ascii c1) (Ascii.N_of_ascii c3)) as [H13|H13|H13];
    try done; try lia; eauto.
Qed.

#[export] Instance str_le_trans : Transitive str_le.
Proof.
  intros a b c. unfold str_le. rewrite !Is_true_true. apply string_leb_trans.
Qed.

#[export] Instance str_le_total : Total str_le.
Proof. intros a b. unfold str_le. rewrite !Is_true_true. apply String.leb_total. Qed.

#[export] Instance str_le_antisymm : AntiSymm (=) str_le.
Proof. intros a b. unfold str_le. rewrite !Is_true_true. apply String.leb_antisym. Qed.

#[export] Instance js_le_total : Total js_le.
Proof. intros a b. apply (total str_le). Qed.

#[export] Instance js_le_trans : Transitive js_le.
Proof. intros a b c. apply (transitivity (R:=str_le)). Qed.

(** Sorting values by their strings sorts the strings: the strings of the
    sorted array are the sorted strings of the array. *)
Lemma js_toString_merge_sort l :
  js_toString <$> merge_sort js_le l = merge_sort str_le (js_toString <$> l).
Proof.
  apply (Sorted_unique str_le).
  - pose proof (Sorted_merge_sort js_le l) as Hs.
    induction Hs as [|v l' _ IH Hhd]; csimpl; constructor; [done|].
    destruct Hhd; csimpl; by constructor.
  - apply (Sorted_merge_sort _).
  - by rewrite !merge_sort_Permutation.
Qed.

Lemma js_sort_perm l : js_sort l ≡ₚ l.
Proof.
  unfold js_sort. rewrite merge_sort_Permutation.
  induction l as [|v l IH]; [done|].
  destruct (is_undefined v) eqn:Hv.
  - rewrite filter_cons_False, filter_cons_True by (rewrite Hv; naive_solver).
    by rewrite <-Permutation_middle, IH.
  - rewrite filter_cons_True, filter_cons_False by (rewrite Hv; naive_solver).
    simpl. by rewrite IH.
Qed.

Lemma js_sort_defined l :
  Forall (λ v, ¬ is_undefined v) l → js_sort l = merge_sort js_le l.
Proof.
  intros H. unfold js_sort. rewrite filter_all by done.
  rewrite filter_none; [by rewrite app_nil_r|].
  eapply Forall_impl; [exact H|]. naive_solver.
Qed.

Lemma obj_entries_defined (o : JsObject) : Forall (λ v, ¬ is_undefined v) (obj_entries o).
Proof. apply Forall_fmap, Forall_true. intros [k v]. simpl. tauto. Qed.
End sorting.
