(* ===== verification/Strings.v ===== *)
(** * Strings joined by a separator

    The cache key joins strings with commas, twice: the elements of the
    stop list, and the entries of the parameters.  This file holds what
    makes such a join readable again: a string that contains no comma ends
    where the next comma is, and the order between two strings that part
    ways before their first comma does not depend on what follows it. *)

From Stdlib Require Import Ascii.
From stdpp Require Import strings sorting.
From S2P Require Import Prelude.

(** ** Strings without a character *)

(** [c] does not occur in [s]. *)
Fixpoint free_of (c : ascii) (s : string) : bool :=
  match s with
  | EmptyString => true
  | String d s' => bool_decide (d ≠ c) && free_of c s'
  end.

Definition comma : ascii := ","%char.

(** [s] contains no comma. *)
Definition comma_free (s : string) : Prop := free_of comma s.

(** An element of a list that the join with commas determines: not empty,
    and without a comma. *)
Definition plain (s : string) : Prop := s ≠ "" ∧ comma_free s.

#[export] Instance plain_dec s : Decision (plain s).
Proof. unfold plain, comma_free. apply _. Defined.

(** What follows an element in a join: nothing, or a comma and the rest. *)
Definition separated (r : string) : Prop :=
  r = "" ∨ ∃ r', r = String comma r'.

Section strings.
Implicit Types (s t r : string) (c d : ascii) (l : list string).

Lemma app_nil_l_str s : "" +:+ s = s.
Proof. done. Qed.

Lemma app_cons_str c s t : String c s +:+ t = String c (s +:+ t).
Proof. done. Qed.

Lemma app_nil_r_str s : s +:+ "" = s.
Proof. induction s as [|c s IH]; [done | by rewrite app_cons_str, IH]. Qed.

Lemma app_assoc_str s t r : (s +:+ t) +:+ r = s +:+ t +:+ r.
Proof. induction s as [|c s IH]; [done | by rewrite !app_cons_str, IH]. Qed.

Lemma app_length_str s t : String.length (s +:+ t) = String.length s + String.length t.
Proof. induction s as [|c s IH]; [done | rewrite app_cons_str; simpl; by rewrite IH]. Qed.

(** Cancellation on the right. *)
Lemma app_inv_r_str s1 s2 t : s1 +:+ t = s2 +:+ t → s1 = s2.
Proof.
  revert s2. induction s1 as [|c s1 IH]; intros [|d s2] Heq; [done| | |];
    rewrite ?app_cons_str, ?app_nil_l_str in Heq.
  - apply (f_equal String.length) in Heq. simpl in Heq. rewrite app_length_str in Heq. lia.
  - apply (f_equal String.length) in Heq. simpl in Heq. rewrite app_length_str in Heq. lia.
  - injection Heq as -> Heq. f_equal. by apply IH.
Qed.

Lemma free_of_app c s t : free_of c (s +:+ t) = free_of c s && free_of c t.
Proof.
  induction s as [|d s IH]; [done|].
  rewrite app_cons_str. simpl. by rewrite IH, andb_assoc.
Qed.

(** A string without commas, followed by a separated rest, is read back:
    it ends where the rest begins. *)
Lemma comma_split s1 s2 r1 r2 :
  comma_free s1 → comma_free s2 → separated r1 → separated r2 →
  s1 +:+ r1 = s2 +:+ r2 → s1 = s2 ∧ r1 = r2.
Proof.
  unfold comma_free. revert s2.
  induction s1 as [|c s1 IH]; intros [|d s2] H1 H2 Hr1 Hr2 Heq;
    rewrite ?app_cons_str, ?app_nil_l_str in Heq; simpl in H1, H2.
  - done.
  - apply andb_prop_elim in H2 as [H2 _].
    destruct Hr1 as [->|[r' ->]]; simplify_eq. by case_bool_decide.
  - apply andb_prop_elim in H1 as [H1 _].
    destruct Hr2 as [->|[r' ->]]; simplify_eq. by case_bool_decide.
  - apply andb_prop_elim in H1 as [_ H1]. apply andb_prop_elim in H2 as [_ H2].
    injection Heq as -> Heq. destruct (IH s2) as [-> ->]; auto.
Qed.
(** ** Joins *)

(** What follows the first element in the join of a list. *)
Definition tail_of l : string :=
  match l with
  | [] => ""
  | _ :: _ => String comma (String.concat "," l)
  end.

(** What precedes an element in the join of a list: the elements before
    it, each followed by a comma. *)
Definition lead_of l : string := foldr (λ s acc, s +:+ String comma acc) "" l.

Lemma concat_head s l : String.concat "," (s :: l) = s +:+ tail_of l.
Proof. destruct l; simpl; [by rewrite app_nil_r_str | done]. Qed.

Lemma tail_separated l : separated (tail_of l).
Proof. destruct l; [by left | right; by eexists]. Qed.

Lemma tail_of_inj l1 l2 :
  tail_of l1 = tail_of l2 → String.concat "," l1 = String.concat "," l2.
Proof. destruct l1, l2; simpl; by intros [=]. Qed.

Lemma concat_middle l1 s l2 :
  String.concat "," (l1 ++ s :: l2) = lead_of l1 +:+ s +:+ tail_of l2.
Proof.
  induction l1 as [|a l1 IH]; [apply concat_head|].
  rewrite <-app_comm_cons, concat_head. simpl lead_of.
  rewrite app_assoc_str, app_cons_str. do 2 f_equal.
  destruct l1; simpl tail_of; by rewrite <-IH.
Qed.

(** The join with commas determines a list of plain strings. *)
Lemma concat_comma_inj l1 l2 :
  Forall plain l1 → Forall plain l2 →
  String.concat "," l1 = String.concat "," l2 → l1 = l2.
Proof.
  intros H1. revert l2. induction H1 as [|s1 l1 [Hne1 Hc1] _ IH];
    intros l2 H2 Heq; destruct H2 as [|s2 l2 [Hne2 Hc2] H2]; [done| | |].
  - rewrite concat_head in Heq. by destruct s2.
  - rewrite concat_head in Heq. by destruct s1.
  - rewrite !concat_head in Heq.
    apply comma_split in Heq as [-> Ht%tail_of_inj]; auto using tail_separated.
    f_equal. by apply IH.
Qed.

(** ** The order of strings that part ways before a comma *)

(** The order between two strings whose parts before the first comma
    differ is decided by these parts. *)
Lemma compare_before_comma s1 s2 r1 r2 r1' r2' :
  comma_free s1 → comma_free s2 → s1 ≠ s2 →
  String.compare (s1 +:+ String comma r1) (s2 +:+ String comma r2) =
  String.compare (s1 +:+ String comma r1') (s2 +:+ String comma r2').
Proof.
  unfold comma_free. revert s2.
  induction s1 as [|c s1 IH]; intros [|d s2] H1 H2 Hne; [done| | |];
    rewrite ?app_cons_str, ?app_nil_l_str; simpl in H1, H2 |- *.
  - apply andb_prop_elim in H2 as [H2%bool_decide_unpack _].
    destruct (Ascii.compare comma d) eqn:Hcmp; [|done..].
    by apply Ascii.compare_eq_iff in Hcmp.
  - apply andb_prop_elim in H1 as [H1%bool_decide_unpack _].
    destruct (Ascii.compare c comma) eqn:Hcmp; [|done..].
    by apply Ascii.compare_eq_iff in Hcmp.
  - apply andb_prop_elim in H1 as [_ H1]. apply andb_prop_elim in H2 as [_ H2].
    destruct (Ascii.compare c d) eqn:Hcmp; [|done..].
    apply Ascii.compare_eq_iff in Hcmp as ->. apply IH; congruence.
Qed.
End strings.

(** ** Sorting a list with one more element *)

Section insert.
Context {A : Type} (R : relation A) `{!RelDecision R}.
Context `{!Transitive R, !Total R, !AntiSymm (=) R}.

(** The sorted list with [x] added is the sorted list with [x] put
    between what is strictly before it and the rest. *)
Lemma merge_sort_insert x l :
  merge_sort R (x :: l) =
    filter (λ y, ¬ R x y) (merge_sort R l) ++ x :: filter (R x) (merge_sort R l).
Proof.
  pose proof (StronglySorted_merge_sort R l) as Hs.
  apply (Sorted_unique R); [apply (Sorted_merge_sort _) | |].
  - apply StronglySorted_Sorted, StronglySorted_app. split_and!.
    + intros y z [Hy _]%list_elem_of_filter [->|[Hz _]%list_elem_of_filter]%elem_of_cons.
      * by destruct (total R y x).
      * trans x; [by destruct (total R y x) | done].
    + by apply StronglySorted_filter.
    + constructor; [by apply StronglySorted_filter|].
      apply Forall_forall. by intros z [Hz _]%list_elem_of_filter.
  - rewrite merge_sort_Permutation, <-Permutation_middle. constructor.
    rewrite (comm (++)), filter_app_complement. by rewrite merge_sort_Permutation.
Qed.
End insert.
