(* ===== verification/Schema.v ===== *)
(** * Data shared by the components: results, events, the world

    The result of a generation ([Generation], [LLMResultOf]), the lifecycle
    events a handler can be notified of ([Event], one constructor per hook
    of [BaseCallbackHandlerMethods]), and the world the programs run in
    ([World]): the cache objects by reference, the log of hook invocations,
    the log of backend invocations and the supply of fresh identifiers. *)

From stdpp Require Import strings pretty gmap.
From S2P Require Import Prelude JsValue.

(** ** Errors *)

(** [type Error = any]: a thrown value is identified by its message. *)
Definition Error : Type := string.

(** ** Results *)

(** A candidate generation: its text and optional provider data. *)
Record Generation : Type := mkGeneration {
  text : string;
  generationInfo : option JsObject;
}.

(** [{ runId }], the run-correlation data attached to a result. *)
Record RunInfo : Type := mkRunInfo {
  runId : string;
}.

(** [LLMResult], over the type of a row of [generations].  The schema types
    a row as [Generation[]] ([LLMResult] below); the array that [generate]
    assembles on the cached path may hold [null] rows, which is
    [LLMResultRaw]. *)
Record LLMResultOf (Row : Type) : Type := mkLLMResult {
  generations : list Row;
  llmOutput : option JsObject;
  __run : option RunInfo;
}.
Arguments mkLLMResult {Row} _ _ _.
Arguments generations {Row} _.
Arguments llmOutput {Row} _.
Arguments __run {Row} _.

Abbreviation LLMResult := (LLMResultOf (list Generation)).
Abbreviation LLMResultRaw := (LLMResultOf (option (list Generation))).

(** A typed result seen as a raw one: every row is present. *)
Definition raw_of (r : LLMResult) : LLMResultRaw :=
  mkLLMResult (Some <$> generations r) (llmOutput r) (__run r).

(** ** Lifecycle events *)

(** One constructor per hook, with the hook's arguments.  An object
    [{ name }] is its name; [ChainValues], [AgentAction] and [AgentFinish]
    are plain objects. *)
Inductive Event : Type :=
  | LLMStart (llm : string) (prompts : list string) (run : string) (parent : option string)
  | LLMNewToken (token : string) (run : string) (parent : option string)
  | LLMError (err : Error) (run : string) (parent : option string)
  | LLMEnd (output : LLMResult) (run : string) (parent : option string)
  | ChainStart (chain : string) (inputs : JsObject) (run : string) (parent : option string)
  | ChainError (err : Error) (run : string) (parent : option string)
  | ChainEnd (outputs : JsObject) (run : string) (parent : option string)
  | ToolStart (tool : string) (input : string) (run : string) (parent : option string)
  | ToolError (err : Error) (run : string) (parent : option string)
  | ToolEnd (output : string) (run : string) (parent : option string)
  | Text (txt : string) (run : string) (parent : option string)
  | AgentAction (action : JsObject) (run : string) (parent : option string)
  | AgentEnd (action : JsObject) (run : string) (parent : option string).

(** The run an event belongs to. *)
Definition event_run (e : Event) : string :=
  match e with
  | LLMStart _ _ r _ | LLMNewToken _ r _ | LLMError _ r _ | LLMEnd _ r _
  | ChainStart _ _ r _ | ChainError _ r _ | ChainEnd _ r _
  | ToolStart _ _ r _ | ToolError _ r _ | ToolEnd _ r _
  | Text _ r _ | AgentAction _ r _ | AgentEnd _ r _ => r
  end.

(** The run an event is nested in, when it is. *)
Definition event_parent (e : Event) : option string :=
  match e with
  | LLMStart _ _ _ p | LLMNewToken _ _ p | LLMError _ _ p | LLMEnd _ _ p
  | ChainStart _ _ _ p | ChainError _ _ p | ChainEnd _ _ p
  | ToolStart _ _ _ p | ToolError _ _ p | ToolEnd _ _ p
  | Text _ _ p | AgentAction _ _ p | AgentEnd _ _ p => p
  end.

(** The three groups the ignore flags of a handler select. *)
Inductive EventGroup : Type := GroupLLM | GroupChain | GroupAgent | GroupNone.

#[export] Instance EventGroup_eq_dec : EqDecision EventGroup.
Proof. solve_decision. Defined.

(** What an event is in the life of a run. *)
Inductive Phase : Type := PStart | PProgress | PEnd | PError.

#[export] Instance Phase_eq_dec : EqDecision Phase.
Proof. solve_decision. Defined.

Definition event_phase (e : Event) : Phase :=
  match e with
  | LLMStart _ _ _ _ | ChainStart _ _ _ _ | ToolStart _ _ _ _ => PStart
  | LLMNewToken _ _ _ | Text _ _ _ | AgentAction _ _ _ => PProgress
  | LLMEnd _ _ _ | ChainEnd _ _ _ | ToolEnd _ _ _ | AgentEnd _ _ _ => PEnd
  | LLMError _ _ _ | ChainError _ _ _ | ToolError _ _ _ => PError
  end.

Definition is_terminal (e : Event) : bool :=
  match event_phase e with PEnd | PError => true | _ => false end.

(** ** The world *)

(** A hook of the handler named [sink] was invoked with [event]. *)
Record Delivery : Type := mkDelivery {
  sink : string;
  event : Event;
}.

(** The backend's [_generate] was invoked with these arguments. *)
Record BackendCall : Type := mkBackendCall {
  call_prompts : list string;
  call_stop : option (list string);
  call_run : option string;
}.

(** The world over the state [C] of a cache object.

    - [caches] holds the state of the cache objects that were written, by
      reference (a cache that is not there is in its initial state);
    - [trace] logs the hook invocations, oldest first;
    - [calls] logs the invocations of a backend's [_generate], oldest first
      (a backend may depend on it: it is the backend's history);
    - [uuids] counts the identifiers drawn from [uuidv4]. *)
Record World (C : Type) : Type := mkWorld {
  caches : gmap nat C;
  trace : list Delivery;
  calls : list BackendCall;
  uuids : nat;
}.
Arguments mkWorld {C} _ _ _ _.
Arguments caches {C} _.
Arguments trace {C} _.
Arguments calls {C} _.
Arguments uuids {C} _.

Section world.
Context {C : Type}.
Implicit Types w : World C.

Definition set_caches (f : gmap nat C → gmap nat C) w : World C :=
  mkWorld (f (caches w)) (trace w) (calls w) (uuids w).
Definition log_delivery (d : Delivery) w : World C :=
  mkWorld (caches w) (trace w ++ [d]) (calls w) (uuids w).
Definition log_call (c : BackendCall) w : World C :=
  mkWorld (caches w) (trace w) (calls w ++ [c]) (uuids w).
Definition next_uuid w : World C :=
  mkWorld (caches w) (trace w) (calls w) (S (uuids w)).

(** The [n]-th identifier of [uuidv4]. *)
Definition uuid_of (n : nat) : string := "uuid-" +:+ pretty n.

(** [uuidv4()]: a fresh identifier at every call. *)
Definition uuidv4 : M (World C) Error string :=
  n <- gets uuids ;; modify next_uuid ;; ret (uuid_of n).

Lemma uuid_of_inj : Inj (=) (=) uuid_of.
Proof. intros n m H. unfold uuid_of in H. by simplify_eq. Qed.

Lemma uuidv4_run w : uuidv4 w = (Ok (uuid_of (uuids w)), next_uuid w).
Proof. done. Qed.
End world.

(** The events delivered to the handler named [s], oldest first. *)
Definition deliveries_to (s : string) (t : list Delivery) : list Event :=
  event <$> filter (λ d, sink d = s) t.

(** The events of run [r] in a list of events. *)
Definition events_of_run (r : string) (es : list Event) : list Event :=
  filter (λ e, event_run e = r) es.
