(* ===== verification/Handler.v ===== *)
(** * Callback handlers ([src/langchain/src/callbacks/base.ts])

    The handler input ([BaseCallbackHandlerInput]), the optional hooks
    ([BaseCallbackHandlerMethods]), the handler object
    ([BaseCallbackHandler]) with its constructor, [copy] and the factory
    [fromMethods], and the theorems on what construction and copying keep
    of a handler. *)

From stdpp Require Import strings.
From S2P Require Import Prelude JsValue Schema.

(** ** Data *)

(** [BaseCallbackHandlerInput]: three optional flags. *)
Record BaseCallbackHandlerInput : Type := mkInput {
  input_ignoreLLM : option bool;
  input_ignoreChain : option bool;
  input_ignoreAgent : option bool;
}.

(** A hook returns a promise: it is fulfilled or it rejects with an error. *)
Definition HookResult : Type := outcome Error unit.

(** [BaseCallbackHandlerMethods]: every hook is optional.  The last two
    arguments of a hook are [runId] and [parentRunId?]. *)
Record BaseCallbackHandlerMethods : Type := mkMethods {
  handleLLMStart : option (string → list string → string → option string → HookResult);
  handleLLMNewToken : option (string → string → option string → HookResult);
  handleLLMError : option (Error → string → option string → HookResult);
  handleLLMEnd : option (LLMResult → string → option string → HookResult);
  handleChainStart : option (string → JsObject → string → option string → HookResult);
  handleChainError : option (Error → string → option string → HookResult);
  handleChainEnd : option (JsObject → string → option string → HookResult);
  handleToolStart : option (string → string → string → option string → HookResult);
  handleToolError : option (Error → string → option string → HookResult);
  handleToolEnd : option (string → string → option string → HookResult);
  handleText : option (string → string → option string → HookResult);
  handleAgentAction : option (JsObject → string → option string → HookResult);
  handleAgentEnd : option (JsObject → string → option string → HookResult);
}.

(** A handler with no hook. *)
Definition no_methods : BaseCallbackHandlerMethods :=
  mkMethods None None None None None None None None None None None None None.

(** The class of a handler object, [this.constructor]: the class [Handler]
    that [fromMethods] declares, or a subclass declared elsewhere, whose
    constructor passes its input on to the base constructor and whose
    [name] is a constant of the class. *)
Inductive HandlerClass : Type :=
  | ClassHandler
  | ClassDerived.

#[export] Instance HandlerClass_eq_dec : EqDecision HandlerClass.
Proof. solve_decision. Defined.

(** [BaseCallbackHandler]: the abstract [name], the three flags, and the
    hooks the object has. *)
Record BaseCallbackHandler : Type := mkHandler {
  name : string;
  ignoreLLM : bool;
  ignoreChain : bool;
  ignoreAgent : bool;
  methods : BaseCallbackHandlerMethods;
  class : HandlerClass;
}.

(** ** Operations *)

(** [a ?? b] *)
Definition nullish {A} (a : option A) (b : A) : A := default b a.

(** The constructor: the flags start [false] and take the input's value
    where the input has one.  [cls], [nm] and [ms] are what the subclass
    contributes. *)
Definition construct (cls : HandlerClass) (nm : string)
    (ms : BaseCallbackHandlerMethods) (input : option BaseCallbackHandlerInput) :
    BaseCallbackHandler :=
  let this := mkHandler nm false false false ms cls in
  match input with
  | Some i =>
      mkHandler nm
        (nullish (input_ignoreLLM i) (ignoreLLM this))
        (nullish (input_ignoreChain i) (ignoreChain this))
        (nullish (input_ignoreAgent i) (ignoreAgent this))
        ms cls
  | None => this
  end.

(** A handler read as a constructor input, as [copy] passes [this]. *)
Definition as_input (h : BaseCallbackHandler) : BaseCallbackHandlerInput :=
  mkInput (Some (ignoreLLM h)) (Some (ignoreChain h)) (Some (ignoreAgent h)).

Section operations.
Context {C : Type}.
#[local] Abbreviation Prog := (M (World C) Error).

(** [fromMethods(methods)]: an object of the local class [Handler], whose
    constructor takes no input, names the object with [uuidv4()] and
    assigns the hooks. *)
Definition fromMethods (ms : BaseCallbackHandlerMethods) : Prog BaseCallbackHandler :=
  nm <- uuidv4 ;;
  ret (construct ClassHandler nm ms None).

(** [copy()]: [new this.constructor(this)]. *)
Definition copy (h : BaseCallbackHandler) : Prog BaseCallbackHandler :=
  match class h with
  | ClassHandler => fromMethods (methods h)
  | ClassDerived => ret (construct ClassDerived (name h) (methods h) (Some (as_input h)))
  end.
End operations.

(** ** Theorems *)

Section theorems.
Context {C : Type}.
Implicit Types (w : World C) (h : BaseCallbackHandler).

(** A flag of a constructed handler is the input's value when the
    input gives one and [false] otherwise; [false] given explicitly is
    kept and is not mistaken for an absent value. *)
Theorem construct_flags cls nm ms i :
  let h := construct cls nm ms (Some i) in
  ignoreLLM h = default false (input_ignoreLLM i) ∧
  ignoreChain h = default false (input_ignoreChain i) ∧
  ignoreAgent h = default false (input_ignoreAgent i).
Proof. done. Qed.

Lemma construct_no_input cls nm ms :
  construct cls nm ms None = mkHandler nm false false false ms cls.
Proof. done. Qed.

(** Constructing from a handler's own flags gives the handler back. *)
Lemma construct_as_input h :
  construct (class h) (name h) (methods h) (Some (as_input h)) = h.
Proof. by destruct h. Qed.

Lemma fromMethods_run ms w :
  fromMethods ms w =
    (Ok (mkHandler (uuid_of (uuids w)) false false false ms ClassHandler), next_uuid w).
Proof. done. Qed.

(** C38.  Copying a handler of a derived class yields an equal handler
    (name, flags, hooks) and leaves the world as it was. *)
Theorem copy_derived h w : class h = ClassDerived → copy h w = (Ok h, w).
Proof.
  intros Hc. unfold copy. rewrite Hc. unfold ret. by rewrite <-Hc, construct_as_input.
Qed.

(** C39.  Copying a handler made by [fromMethods] keeps its hooks, draws a
    new name and resets the three flags, whatever they were: the
    constructor of the local class takes no input. *)
Theorem copy_fromMethods h w :
  class h = ClassHandler →
  copy h w =
    (Ok (mkHandler (uuid_of (uuids w)) false false false (methods h) ClassHandler),
     next_uuid w).
Proof. intros Hc. unfold copy. by rewrite Hc. Qed.

(** [copy] never fails, keeps hooks and class, and touches nothing of
    the world but the supply of identifiers. *)
Theorem copy_total h w :
  ∃ h' w', copy h w = (Ok h', w') ∧
    methods h' = methods h ∧ class h' = class h ∧
    caches w' = caches w ∧ trace w' = trace w ∧ calls w' = calls w ∧
    uuids w ≤ uuids w'.
Proof.
  unfold copy. destruct (class h) eqn:Hc.
  - rewrite fromMethods_run. eexists _, _. split; [done|]. simpl. split_and!; auto.
  - eexists _, _. split; [done|]. simpl. split_and!; auto.
Qed.

(** C40.  Two handlers made by [fromMethods], one after the other, have
    different names: the name identifies the object. *)
Theorem fromMethods_fresh ms1 ms2 w h1 w1 h2 w2 :
  fromMethods ms1 w = (Ok h1, w1) →
  fromMethods ms2 w1 = (Ok h2, w2) →
  name h1 ≠ name h2.
Proof.
  rewrite !fromMethods_run. intros [= <- <-] [= <- <-]. simpl.
  intros Heq%uuid_of_inj. lia.
Qed.
End theorems.

(** ** The theorems at concrete inputs *)

Lemma copy_derived_witness :
  let h := construct ClassDerived "tracer" no_methods
             (Some (mkInput (Some true) None (Some false))) in
  copy h (mkWorld (C:=unit) ∅ [] [] 0) = (Ok h, mkWorld ∅ [] [] 0).
Proof.
  apply (copy_derived (construct ClassDerived "tracer" no_methods
                         (Some (mkInput (Some true) None (Some false))))
           (mkWorld (C:=unit) ∅ [] [] 0)).
  reflexivity.
Defined.

Lemma copy_fromMethods_witness :
  copy (mkHandler "uuid-0" true true false no_methods ClassHandler)
       (mkWorld (C:=unit) ∅ [] [] 1) =
    (Ok (mkHandler (uuid_of 1) false false false no_methods ClassHandler),
     mkWorld ∅ [] [] 2).
Proof.
  apply (copy_fromMethods (mkHandler "uuid-0" true true false no_methods ClassHandler)
           (mkWorld (C:=unit) ∅ [] [] 1)).
  reflexivity.
Defined.

Lemma fromMethods_fresh_witness :
  name (mkHandler (uuid_of 0) false false false no_methods ClassHandler) ≠
  name (mkHandler (uuid_of 1) false false false no_methods ClassHandler).
Proof.
  apply (fromMethods_fresh no_methods no_methods (mkWorld (C:=unit) ∅ [] [] 0)
           _ (mkWorld ∅ [] [] 1) _ (mkWorld ∅ [] [] 2)).
  - reflexivity.
  - reflexivity.
Defined.
