(* ===== verification/Cache.v ===== *)
(** * The cache port

    [BaseLLM] reads and writes its cache through two methods, [lookup] and
    [update], keyed by the prompt and the serialized parameters of the
    model.  [CachePort] is that interface, [CacheLaws] the contract the
    orchestrator's theorems rely on, and [InMemoryCache] the map-backed
    implementation, which discharges the contract. *)

From stdpp Require Import strings gmap.
From S2P Require Import Prelude JsValue Schema.

(** ** The interface *)

(** The prompt of a key is the value of [prompts[i]]: [None] is
    [undefined], which an index out of range yields. *)
Abbreviation CacheKey := (option string * string)%type.

(** [lookup(prompt, llmKey)] settles with the cached generations, with
    [null] ([None]) on a miss, or rejects.  [update(prompt, llmKey, value)]
    changes the cache and settles.  A lookup reads and leaves the cache as
    it is.  [cache_init] is the state of a cache nothing was written to. *)
Class CachePort (C : Type) : Type := {
  cache_init : C;
  cache_lookup : C → option string → string → outcome Error (option (list Generation));
  cache_update : C → option string → string → list Generation → outcome Error unit * C;
}.

(** The cache object with reference [r] in the world. *)
Definition cache_at `{CachePort C} (w : World C) (r : nat) : C :=
  default cache_init (caches w !! r).

(** The contract: a fulfilled update is read back, an update leaves the
    other keys alone, and a rejected update writes nothing. *)
Class CacheLaws (C : Type) `{CachePort C} : Prop := {
  lookup_update_eq c p k v c' :
    cache_update c p k v = (Ok tt, c') → cache_lookup c' p k = Ok (Some v);
  lookup_update_ne c p k v o c' p' k' :
    cache_update c p k v = (o, c') → (p, k) ≠ (p', k') →
    cache_lookup c' p' k' = cache_lookup c p' k';
  lookup_update_throw c p k v e c' :
    cache_update c p k v = (Throw e, c') → cache_lookup c' p k = cache_lookup c p k;
}.

(** A cache none of whose operations rejects. *)
Class CacheReliable (C : Type) `{CachePort C} : Prop := {
  lookup_ok c p k : ∃ r, cache_lookup c p k = Ok r;
  update_ok c p k v : ∃ c', cache_update c p k v = (Ok tt, c');
}.

(** ** The in-memory cache *)

(** A map from keys to generations. *)
Record InMemoryCache : Type := mkInMemoryCache {
  entries : gmap CacheKey (list Generation);
}.

Definition InMemoryCache_empty : InMemoryCache := mkInMemoryCache ∅.

Definition InMemoryCache_lookup (c : InMemoryCache) (p : option string) (k : string) :
    outcome Error (option (list Generation)) :=
  Ok (entries c !! (p, k)).

Definition InMemoryCache_update (c : InMemoryCache) (p : option string) (k : string)
    (v : list Generation) : outcome Error unit * InMemoryCache :=
  (Ok tt, mkInMemoryCache (<[(p, k) := v]> (entries c))).

#[export] Instance InMemoryCache_port : CachePort InMemoryCache := {
  cache_init := InMemoryCache_empty;
  cache_lookup := InMemoryCache_lookup;
  cache_update := InMemoryCache_update;
}.

#[export] Instance InMemoryCache_laws : CacheLaws InMemoryCache.
Proof.
  split; simpl; unfold InMemoryCache_lookup, InMemoryCache_update.
  - intros c p k v c' [= <-]. simpl. by rewrite lookup_insert_eq.
  - intros c p k v o c' p' k' [= <- <-] Hne. simpl. by rewrite lookup_insert_ne.
  - intros c p k v e c' [=].
Qed.

#[export] Instance InMemoryCache_reliable : CacheReliable InMemoryCache.
Proof. split; simpl; eauto. Qed.

(** ** A cache that can fail

    The in-memory cache with a set of keys whose lookup rejects and a set
    of keys whose update rejects: the cache of the error paths. *)
Record FaultyCache : Type := mkFaultyCache {
  store : gmap CacheKey (list Generation);
  bad_lookup : gset CacheKey;
  bad_update : gset CacheKey;
}.

Definition FaultyCache_lookup (c : FaultyCache) (p : option string) (k : string) :
    outcome Error (option (list Generation)) :=
  if decide ((p, k) ∈ bad_lookup c) then Throw "cache lookup failed"
  else Ok (store c !! (p, k)).

Definition FaultyCache_update (c : FaultyCache) (p : option string) (k : string)
    (v : list Generation) : outcome Error unit * FaultyCache :=
  if decide ((p, k) ∈ bad_update c) then (Throw "cache update failed", c)
  else (Ok tt, mkFaultyCache (<[(p, k) := v]> (store c)) (bad_lookup c) (bad_update c)).

#[export] Instance FaultyCache_port : CachePort FaultyCache := {
  cache_init := mkFaultyCache ∅ ∅ ∅;
  cache_lookup := FaultyCache_lookup;
  cache_update := FaultyCache_update;
}.
