(* ===== verification/Manager.v ===== *)
(** * The callback manager (the notification coordinator)

    [BaseLLM] obtains a manager from [CallbackManager.configure], announces
    a run with [handleLLMStart] and reports through the run manager it gets
    back.  The manager's code is not among the sources: this file models it
    from the specification (section 4.2): an event goes to every registered
    handler whose ignore flag for the event's group is not set and that has
    the hook; every such hook is invoked, and the emission fails when one of
    them rejects. *)

From stdpp Require Import strings sets.
From S2P Require Import Prelude JsValue Schema Handler.

#[local] Set Warnings "-clear-no-such-hyp".

(** ** Data *)

(** The coordinator: its handlers, the run it is nested in, verbosity. *)
Record CallbackManager : Type := mkManager {
  handlers : list BaseCallbackHandler;
  parentRunId : option string;
  verbose_flag : bool;
}.

(** The handle of a run: its identifier, its parent and the handlers. *)
Record CallbackManagerForLLMRun : Type := mkRun {
  rm_runId : string;
  rm_handlers : list BaseCallbackHandler;
  rm_parentRunId : option string;
}.

(** [CallbackManager | BaseCallbackHandler[]] *)
Inductive Callbacks : Type :=
  | CbManager (m : CallbackManager)
  | CbHandlers (hs : list BaseCallbackHandler).

(** ** Dispatch

    The specification names three ignore flags, for the events of LLM,
    chain and agent runs.  The events of a tool are taken with those of
    the agent that uses it; a text event belongs to no group and is never
    ignored.  Both are choices of the model. *)

Definition event_group (e : Event) : EventGroup :=
  match e with
  | LLMStart _ _ _ _ | LLMNewToken _ _ _ | LLMError _ _ _ | LLMEnd _ _ _ => GroupLLM
  | ChainStart _ _ _ _ | ChainError _ _ _ | ChainEnd _ _ _ => GroupChain
  | ToolStart _ _ _ _ | ToolError _ _ _ | ToolEnd _ _ _
  | AgentAction _ _ _ | AgentEnd _ _ _ => GroupAgent
  | Text _ _ _ => GroupNone
  end.

Definition ignores (h : BaseCallbackHandler) (e : Event) : bool :=
  match event_group e with
  | GroupLLM => ignoreLLM h
  | GroupChain => ignoreChain h
  | GroupAgent => ignoreAgent h
  | GroupNone => false
  end.

(** The hook of the event applied to it, when the handler has the hook. *)
Definition hook_of (ms : BaseCallbackHandlerMethods) (e : Event) : option HookResult :=
  match e with
  | LLMStart l ps r p => (λ f, f l ps r p) <$> handleLLMStart ms
  | LLMNewToken t r p => (λ f, f t r p) <$> handleLLMNewToken ms
  | LLMError err r p => (λ f, f err r p) <$> handleLLMError ms
  | LLMEnd out r p => (λ f, f out r p) <$> handleLLMEnd ms
  | ChainStart c i r p => (λ f, f c i r p) <$> handleChainStart ms
  | ChainError err r p => (λ f, f err r p) <$> handleChainError ms
  | ChainEnd out r p => (λ f, f out r p) <$> handleChainEnd ms
  | ToolStart t i r p => (λ f, f t i r p) <$> handleToolStart ms
  | ToolError err r p => (λ f, f err r p) <$> handleToolError ms
  | ToolEnd out r p => (λ f, f out r p) <$> handleToolEnd ms
  | Text t r p => (λ f, f t r p) <$> handleText ms
  | AgentAction a r p => (λ f, f a r p) <$> handleAgentAction ms
  | AgentEnd a r p => (λ f, f a r p) <$> handleAgentEnd ms
  end.

(** How the handler's hook settles on the event, when the handler listens
    to it. *)
Definition listening (h : BaseCallbackHandler) (e : Event) : option HookResult :=
  if ignores h e then None else hook_of (methods h) e.

Section dispatch.
Context {C : Type}.
#[local] Abbreviation Prog := (M (World C) Error).

(** One handler: skipped when it ignores the event or lacks the hook;
    otherwise the hook runs, which the trace records. *)
Definition notify (h : BaseCallbackHandler) (e : Event) : Prog unit :=
  match listening h e with
  | None => ret tt
  | Some res => modify (log_delivery (mkDelivery (name h) e)) ;; await res
  end.

(** All handlers, concurrently; the hooks settle in the order they were
    invoked. *)
Definition emit (hs : list BaseCallbackHandler) (e : Event) : Prog unit :=
  promise_all (λ _, 0) (λ _ h, notify h e) hs ;; ret tt.

(** ** Configuration

    The specification merges the caller's sinks with the default sinks,
    deduplicated by identity, and the code is not among the sources.  A
    handler is a value here and what identifies it is its [name]: a handler
    made by [fromMethods] is named by a fresh identifier, so that for such
    handlers an equal name means the same object.  The handlers of a class
    share the name of the class: two objects of one class are taken for
    one handler, the first.  The order of the merge, the caller's handlers
    before the defaults, is a choice of the model: the specification gives
    none. *)

(** Handlers with the names of [seen] removed, and each name once. *)
Fixpoint dedup_by_name (seen : list string) (hs : list BaseCallbackHandler) :
    list BaseCallbackHandler :=
  match hs with
  | [] => []
  | h :: hs' =>
      if decide (name h ∈ seen) then dedup_by_name seen hs'
      else h :: dedup_by_name (name h :: seen) hs'
  end.

Definition callbacks_handlers (c : option Callbacks) : list BaseCallbackHandler :=
  match c with
  | Some (CbManager m) => handlers m
  | Some (CbHandlers hs) => hs
  | None => []
  end.

Definition callbacks_parent (c : option Callbacks) : option string :=
  match c with
  | Some (CbManager m) => parentRunId m
  | _ => None
  end.

(** [CallbackManager.configure(callbacks, defaults, { verbose })]: the
    caller's handlers followed by the defaults, each handler once; no
    manager when there is no handler.  The verbosity is stored and has no
    effect: no handler is added for it. *)
Definition configure (callbacks : option Callbacks)
    (defaults : option (list BaseCallbackHandler)) (verbose : bool) :
    Prog (option CallbackManager) :=
  let hs := dedup_by_name [] (callbacks_handlers callbacks ++ default [] defaults) in
  ret (match hs with
       | [] => None
       | _ :: _ => Some (mkManager hs (callbacks_parent callbacks) verbose)
       end).

(** ** Events of an LLM run *)

(** [handleLLMStart(llm, prompts)]: a fresh run identifier, the start
    event, and the handle of the run. *)
Definition manager_handleLLMStart (m : CallbackManager) (llm : string)
    (prompts : list string) : Prog CallbackManagerForLLMRun :=
  r <- uuidv4 ;;
  emit (handlers m) (LLMStart llm prompts r (parentRunId m)) ;;
  ret (mkRun r (handlers m) (parentRunId m)).

Definition run_handleLLMNewToken (rm : CallbackManagerForLLMRun) (token : string) :
    Prog unit :=
  emit (rm_handlers rm) (LLMNewToken token (rm_runId rm) (rm_parentRunId rm)).

Definition run_handleLLMError (rm : CallbackManagerForLLMRun) (err : Error) :
    Prog unit :=
  emit (rm_handlers rm) (LLMError err (rm_runId rm) (rm_parentRunId rm)).

Definition run_handleLLMEnd (rm : CallbackManagerForLLMRun) (output : LLMResult) :
    Prog unit :=
  emit (rm_handlers rm) (LLMEnd output (rm_runId rm) (rm_parentRunId rm)).

(** ** Events of chain, tool and agent runs

    The analogous emissions.  The handle of a chain or tool run has the
    fields of the handle of an LLM run, and is of the same type here. *)

Definition manager_handleChainStart (m : CallbackManager) (chain : string)
    (inputs : JsObject) : Prog CallbackManagerForLLMRun :=
  r <- uuidv4 ;;
  emit (handlers m) (ChainStart chain inputs r (parentRunId m)) ;;
  ret (mkRun r (handlers m) (parentRunId m)).

Definition run_handleChainError (rm : CallbackManagerForLLMRun) (err : Error) :
    Prog unit :=
  emit (rm_handlers rm) (ChainError err (rm_runId rm) (rm_parentRunId rm)).

Definition run_handleChainEnd (rm : CallbackManagerForLLMRun) (outputs : JsObject) :
    Prog unit :=
  emit (rm_handlers rm) (ChainEnd outputs (rm_runId rm) (rm_parentRunId rm)).

Definition manager_handleToolStart (m : CallbackManager) (tool : string)
    (input : string) : Prog CallbackManagerForLLMRun :=
  r <- uuidv4 ;;
  emit (handlers m) (ToolStart tool input r (parentRunId m)) ;;
  ret (mkRun r (handlers m) (parentRunId m)).

Definition run_handleToolError (rm : CallbackManagerForLLMRun) (err : Error) :
    Prog unit :=
  emit (rm_handlers rm) (ToolError err (rm_runId rm) (rm_parentRunId rm)).

Definition run_handleToolEnd (rm : CallbackManagerForLLMRun) (output : string) :
    Prog unit :=
  emit (rm_handlers rm) (ToolEnd output (rm_runId rm) (rm_parentRunId rm)).

Definition run_handleText (rm : CallbackManagerForLLMRun) (txt : string) : Prog unit :=
  emit (rm_handlers rm) (Text txt (rm_runId rm) (rm_parentRunId rm)).

Definition run_handleAgentAction (rm : CallbackManagerForLLMRun) (action : JsObject) :
    Prog unit :=
  emit (rm_handlers rm) (AgentAction action (rm_runId rm) (rm_parentRunId rm)).

Definition run_handleAgentEnd (rm : CallbackManagerForLLMRun) (action : JsObject) :
    Prog unit :=
  emit (rm_handlers rm) (AgentEnd action (rm_runId rm) (rm_parentRunId rm)).
End dispatch.

(** The coordinator of what runs inside the run [rm]: the handlers of the
    run, with the run as parent. *)
Definition run_getChild (rm : CallbackManagerForLLMRun) : CallbackManager :=
  mkManager (rm_handlers rm) (Some (rm_runId rm)) false.

(** ** What an emission does *)

(** The deliveries an emission makes, in order. *)
Definition deliveries (hs : list BaseCallbackHandler) (e : Event) : list Delivery :=
  omap (λ h, (λ _, mkDelivery (name h) e) <$> listening h e) hs.

(** The rejections of the hooks the emission invokes, in order. *)
Definition rejections (hs : list BaseCallbackHandler) (e : Event) : list Error :=
  omap (λ h, match listening h e with Some (Throw err) => Some err | _ => None end) hs.

Definition emit_outcome (hs : list BaseCallbackHandler) (e : Event) : outcome Error unit :=
  match head (rejections hs e) with
  | Some err => Throw err
  | None => Ok tt
  end.

Definition log_deliveries {C} (ds : list Delivery) (w : World C) : World C :=
  mkWorld (caches w) (trace w ++ ds) (calls w) (uuids w).

Section emit_lemmas.
Context {C : Type}.
Implicit Types (w : World C) (h : BaseCallbackHandler) (e : Event).

Lemma log_deliveries_nil w : log_deliveries [] w = w.
Proof. destruct w. unfold log_deliveries. simpl. by rewrite app_nil_r. Qed.

Lemma log_deliveries_app ds1 ds2 w :
  log_deliveries ds2 (log_deliveries ds1 w) = log_deliveries (ds1 ++ ds2) w.
Proof. unfold log_deliveries. simpl. by rewrite (assoc_L (++)). Qed.

Lemma notify_run h e w :
  notify h e w =
    (default (Ok tt) (listening h e),
     log_deliveries (from_option (λ _, [mkDelivery (name h) e]) [] (listening h e)) w).
Proof.
  unfold notify. destruct (listening h e) as [res|]; simpl.
  - done.
  - by rewrite log_deliveries_nil.
Qed.

Lemma issue_all_notify hs e i w :
  issue_all (λ _ h, notify h e) i hs w =
    ((λ h, default (Ok tt) (listening h e)) <$> hs, log_deliveries (deliveries hs e) w).
Proof.
  revert i w. induction hs as [|h hs IH]; intros i w; simpl.
  - by rewrite log_deliveries_nil.
  - rewrite notify_run, IH, log_deliveries_app. unfold deliveries. csimpl.
    by destruct (listening h e).
Qed.

(** An emission invokes every listening hook, in the order of the
    handlers, whether or not one of them rejects; it fails with the first
    rejection. *)
Lemma emit_run hs e w :
  emit hs e w = (emit_outcome hs e, log_deliveries (deliveries hs e) w).
Proof.
  unfold emit, promise_all, bind. rewrite issue_all_notify.
  rewrite completion_order_in_order by done.
  rewrite <-(length_fmap (λ h, default (Ok tt) (listening h e))).
  rewrite first_rejection_in_order. unfold emit_outcome, rejections.
  rewrite omap_fmap.
  replace (omap _ hs) with
    (omap (λ h, match listening h e with Some (Throw err) => Some err | _ => None end) hs).
  2:{ apply list_omap_ext, Forall_Forall2_diag, Forall_forall. intros h _. simpl.
      by destruct (listening h e) as [[[]|]|]. }
  by destruct (head _).
Qed.

Lemma emit_no_handlers e w : emit [] e w = (Ok tt, w).
Proof. rewrite emit_run. simpl. by rewrite log_deliveries_nil. Qed.
End emit_lemmas.

(** ** The handlers [configure] gathers have distinct names *)

Section configured.
Implicit Types (hs : list BaseCallbackHandler) (seen : list string).

Lemma dedup_by_name_elem_of seen hs h :
  h ∈ dedup_by_name seen hs → h ∈ hs ∧ name h ∉ seen.
Proof.
  revert seen. induction hs as [|h' hs IH]; intros seen; simpl; [by intros ?%elem_of_nil|].
  case_decide as Hseen.
  - intros [? ?]%IH. split; [by right | done].
  - intros [->|[? Hn]%IH]%elem_of_cons; [split; [by left | done]|].
    split; [by right|]. set_solver.
Qed.

Lemma dedup_by_name_NoDup seen hs : NoDup (name <$> dedup_by_name seen hs).
Proof.
  revert seen. induction hs as [|h hs IH]; intros seen; simpl; [constructor|].
  case_decide; [apply IH|]. csimpl. constructor; [|apply IH].
  intros (h' & Hn & [_ Hh']%dedup_by_name_elem_of)%list_elem_of_fmap.
  apply Hh'. rewrite <-Hn. by left.
Qed.

(** A handler without a namesake before it is kept. *)
Lemma dedup_by_name_nil_inv seen hs :
  dedup_by_name seen hs = [] → ∀ h, h ∈ hs → name h ∈ seen.
Proof.
  revert seen. induction hs as [|h' hs IH]; intros seen; simpl; [by intros _ ? ?%elem_of_nil|].
  case_decide; [|done]. intros Hnil h [->|Hh]%elem_of_cons; eauto.
Qed.
End configured.

(** ** What one handler is told *)

Section told.
Implicit Types (hs : list BaseCallbackHandler) (h : BaseCallbackHandler) (e : Event).

Lemma deliveries_to_app s (t1 t2 : list Delivery) :
  deliveries_to s (t1 ++ t2) = deliveries_to s t1 ++ deliveries_to s t2.
Proof. unfold deliveries_to. by rewrite filter_app, fmap_app. Qed.

Lemma deliveries_to_absent hs h e :
  name h ∉ name <$> hs → deliveries_to (name h) (deliveries hs e) = [].
Proof.
  intros Hn. unfold deliveries_to. rewrite filter_none; [done|].
  apply Forall_forall. intros d (h' & Hh' & Hd)%list_elem_of_omap Hs.
  destruct (listening h' e); simplify_eq/=. apply Hn, list_elem_of_fmap. eauto.
Qed.

(** Among handlers with distinct names, an emission tells a listening
    handler the event once, and a handler that does not listen nothing. *)
Lemma deliveries_to_emit hs h e :
  NoDup (name <$> hs) → h ∈ hs →
  deliveries_to (name h) (deliveries hs e) =
    match listening h e with Some _ => [e] | None => [] end.
Proof.
  induction hs as [|h' hs IH]; intros Hnd Hh; [by apply elem_of_nil in Hh|].
  csimpl in Hnd. apply NoDup_cons in Hnd as [Hh' Hnd].
  unfold deliveries. csimpl. fold (deliveries hs e).
  assert (∀ d, deliveries_to (name h) (d :: deliveries hs e) =
               (if decide (sink d = name h) then [event d] else []) ++
               deliveries_to (name h) (deliveries hs e)) as Hcons.
  { intros d. unfold deliveries_to. rewrite filter_cons. by case_decide. }
  apply elem_of_cons in Hh as [->|Hh].
  - destruct (listening h' e); simpl.
    + rewrite Hcons. simpl. rewrite decide_True by done.
      by rewrite deliveries_to_absent.
    + by apply deliveries_to_absent.
  - assert (name h' ≠ name h) as Hne.
    { intros Heq. apply Hh'. rewrite Heq. apply list_elem_of_fmap. eauto. }
    destruct (listening h' e); simpl; [|by apply IH].
    rewrite Hcons. simpl. rewrite decide_False by done. by apply IH.
Qed.

Lemma deliveries_event hs e d : d ∈ deliveries hs e → event d = e.
Proof.
  intros (h & _ & Hd)%list_elem_of_omap. by destruct (listening h e); simplify_eq/=.
Qed.

(** Handlers none of whose hooks rejects. *)
Definition quiet hs : Prop := ∀ h e err, h ∈ hs → listening h e ≠ Some (Throw err).

Lemma emit_outcome_quiet hs e : quiet hs → emit_outcome hs e = Ok tt.
Proof.
  intros Hq. unfold emit_outcome, rejections.
  replace (omap _ hs) with (@nil Error); [done|]. symmetry.
  induction hs as [|h hs IH]; [done|]. csimpl.
  destruct (listening h e) as [[[]|err]|] eqn:Hl.
  - apply IH. intros h' e' err' Hh'. apply Hq. by right.
  - exfalso. eapply (Hq h e err); [by left | done].
  - apply IH. intros h' e' err' Hh'. apply Hq. by right.
Qed.
End told.
