(* ===== verification/LLM.v ===== *)
(** * The generation orchestrator ([src/unnamed/part_000], [llms/base.ts])

    [BaseLLM] with its constructor, [generatePrompt], [_generateUncached],
    [generate] (the cache key, the concurrent lookups, the call on the
    misses, the splice and the concurrent updates), [call], [serialize] and
    [deserialize], and the subclass [LLM], whose [_generate] loops over
    [_call].  Only the definitions are here; the theorems are in the files
    that follow. *)

From stdpp Require Import strings gmap.
From S2P Require Import Prelude JsValue Schema Handler Cache Manager.

(** ** Data *)

(** [SerializedLLM]: an object with [_model] and [_type]. *)
Abbreviation SerializedLLM := JsObject.

(** What the type [SerializedLLM] asks of an object: [_model] and
    [_type] are strings. *)
Definition isSerializedLLM (data : JsObject) : bool :=
  match obj_get data "_model", obj_get data "_type" with
  | JStr _, JStr _ => true
  | _, _ => false
  end.

(** The [cache] parameter, [BaseCache | boolean], possibly absent: a cache
    object (by reference), [null], a boolean, or nothing. *)
Inductive CacheParam : Type :=
  | CacheObject (r : nat)
  | CacheNull
  | CacheFlag (b : bool)
  | CacheAbsent.

(** [BaseLLMParams]: [concurrency], [cache] and the rest, the parameters of
    [BaseLanguageModel]. *)
Record BaseLLMParams : Type := mkParams {
  param_concurrency : option Z;
  param_cache : CacheParam;
  param_maxConcurrency : option Z;
  param_verbose : option bool;
  param_callbacks : option Callbacks;
}.

(** What the constructor passes to [super]. *)
Record BaseLanguageModelParams : Type := mkBaseParams {
  base_maxConcurrency : option Z;
  base_verbose : option bool;
  base_callbacks : option Callbacks;
}.

(** The reference of the process-wide cache of [InMemoryCache.global()]. *)
Definition global_cache : nat := 0.

(** The argument [prompts] as it arrives: an array of strings, or a value
    that is not an array. *)
Inductive PromptsArg : Type :=
  | PromptsArray (ps : list string)
  | PromptsOther (v : JsVal).

(** A prompt value: what [toString()] gives. *)
Record BasePromptValue : Type := mkPromptValue {
  promptValue_toString : string;
}.

(** The latencies of the concurrent cache operations of one [generate]:
    of the [i]-th lookup and of the [i]-th update. *)
Record Schedule : Type := mkSchedule {
  lookup_latency : nat → nat;
  update_latency : nat → nat;
}.

(** Every cache operation settles at once: the promises settle in the
    order of issue. *)
Definition immediate : Schedule := mkSchedule (λ _, 0) (λ _, 0).

(** The class an unknown [_type] selects in [deserialize]'s table
    [{ openai: OpenAI }]: the class [OpenAI], or a member the table
    inherits from [Object.prototype]. *)
Inductive Cls : Type :=
  | ClsOpenAI
  | ClsObjectConstructor
  | ClsNotAConstructor.

(** What [new Cls(rest)] gives: an [OpenAI] built from [rest], or, for
    [Object], the object [rest] itself. *)
Inductive Loaded : Type :=
  | LoadedOpenAI (fields : JsObject)
  | LoadedPlainObject (fields : JsObject).

Section llm.
Context {C : Type} `{!CachePort C}.
#[local] Abbreviation Prog := (M (World C) Error).

(** [BaseLLM]: the fields and the methods a subclass provides
    ([_generate], [_llmType], [_identifyingParams]). *)
Record BaseLLM : Type := mkLLM {
  llm_name : string;
  cache : option nat;
  verbose : bool;
  callbacks : option Callbacks;
  _generate : list string → option (list string) → option CallbackManagerForLLMRun →
              Prog LLMResult;
  _llmType : string;
  _identifyingParams : JsObject;
}.

(** ** The constructor *)

(** [concurrency ? { maxConcurrency: concurrency, ...rest } : rest] *)
Definition super_params (p : BaseLLMParams) : BaseLanguageModelParams :=
  let rest := mkBaseParams (param_maxConcurrency p) (param_verbose p) (param_callbacks p) in
  if js_truthy (js_of_option JNum (param_concurrency p)) then
    mkBaseParams
      (match param_maxConcurrency p with
       | Some m => Some m
       | None => param_concurrency p
       end)
      (base_verbose rest) (base_callbacks rest)
  else rest.

(** The choice of the cache: an object is taken as it is ([null] too), a
    true flag selects the global in-memory cache. *)
Definition select_cache (c : CacheParam) : option nat :=
  match c with
  | CacheObject r => Some r
  | CacheNull => None
  | CacheFlag true => Some global_cache
  | CacheFlag false | CacheAbsent => None
  end.

(** [new] of a subclass that provides [nm], [gen], [ty] and [ids]. *)
Definition construct_llm (nm : string)
    (gen : list string → option (list string) → option CallbackManagerForLLMRun →
           Prog LLMResult)
    (ty : string) (ids : JsObject) (p : BaseLLMParams) : BaseLLM :=
  let base := super_params p in
  mkLLM nm (select_cache (param_cache p)) (default false (base_verbose base))
    (base_callbacks base) gen ty ids.

(** [_identifyingParams()] as [BaseLLM] defines it, for the subclasses
    that do not override it: [{}]. *)
Definition base_identifyingParams : JsObject := [].

(** ** Serialization *)

Definition _modelType : string := "base_llm".

(** [{ ...this._identifyingParams(), _type, _model }] *)
Definition serialize (llm : BaseLLM) : SerializedLLM :=
  obj_set "_model" (JStr _modelType)
    (obj_set "_type" (JStr (_llmType llm)) (_identifyingParams llm)).

(** The table [{ openai: OpenAI }] read at [key]: its own property, or one
    inherited from [Object.prototype]. *)
Definition prototype_members : list string :=
  ["__defineGetter__"; "__defineSetter__"; "hasOwnProperty"; "__lookupGetter__";
   "__lookupSetter__"; "isPrototypeOf"; "propertyIsEnumerable"; "toString";
   "valueOf"; "__proto__"; "toLocaleString"].

Definition registry (key : string) : option Cls :=
  if decide (key = "openai") then Some ClsOpenAI
  else if decide (key = "constructor") then Some ClsObjectConstructor
  else if decide (key ∈ prototype_members) then Some ClsNotAConstructor
  else None.

(** [deserialize(data)] *)
Definition deserialize (data : SerializedLLM) : outcome Error Loaded :=
  let _type := obj_get data "_type" in
  let _model := obj_get data "_model" in
  let rest := obj_rest ["_type"; "_model"] data in
  if js_truthy _model && negb (js_strict_eq_str _model "base_llm") then
    Throw ("Cannot load LLM with model " +:+ js_toString _model)
  else
    match registry (js_toString _type) with
    | None => Throw ("Cannot load  LLM with type " +:+ js_toString _type)
    | Some ClsOpenAI => Ok (LoadedOpenAI rest)
    | Some ClsObjectConstructor => Ok (LoadedPlainObject rest)
    | Some ClsNotAConstructor => Throw "TypeError: Cls is not a constructor"
    end.

(** ** The uncached path *)

(** [m?.f(...)]: nothing when [m] is absent. *)
Definition opt_call {A B} (m : option A) (f : A → Prog B) : Prog (option B) :=
  match m with
  | Some a => b <- f a ;; ret (Some b)
  | None => ret None
  end.

(** [Array.isArray(this.callbacks) ? this.callbacks : this.callbacks?.handlers] *)
Definition own_handlers (llm : BaseLLM) : option (list BaseCallbackHandler) :=
  match callbacks llm with
  | Some (CbHandlers hs) => Some hs
  | Some (CbManager m) => Some (handlers m)
  | None => None
  end.

(** The call of the backend, entered in the log of calls. *)
Definition invoke_generate (llm : BaseLLM) (prompts : list string)
    (stop : option (list string)) (runManager : option CallbackManagerForLLMRun) :
    Prog LLMResult :=
  modify (log_call (mkBackendCall prompts stop (rm_runId <$> runManager))) ;;
  _generate llm prompts stop runManager.

(** [_generateUncached(prompts, stop, callbacks)] *)
Definition _generateUncached (llm : BaseLLM) (prompts : list string)
    (stop : option (list string)) (cbs : option Callbacks) : Prog LLMResult :=
  callbackManager_ <- configure cbs (own_handlers llm) (verbose llm) ;;
  runManager <- opt_call callbackManager_
                  (λ m, manager_handleLLMStart m (_llmType llm) prompts) ;;
  output <- try_catch (invoke_generate llm prompts stop runManager)
              (λ err,
                 opt_call runManager (λ rm, run_handleLLMError rm err) ;;
                 throw err) ;;
  opt_call runManager (λ rm, run_handleLLMEnd rm output) ;;
  ret (mkLLMResult (generations output) (llmOutput output)
         ((λ rm, mkRunInfo (rm_runId rm)) <$> runManager)).

(** ** The cached path *)

(** [`${Object.entries(params).sort()}`] with [params.stop = stop] *)
Definition llmStringKey (llm : BaseLLM) (stop : option (list string)) : string :=
  let params := obj_set "stop" (js_of_option js_of_strings stop) (serialize llm) in
  js_toString (JArr (js_sort (obj_entries params))).

(** One lookup: [await cache.lookup(prompt, llmStringKey)]. *)
Definition lookup_one (r : nat) (key : string) (prompt : string) :
    Prog (option (list Generation)) :=
  c <- gets (λ w, cache_at w r) ;;
  await (cache_lookup c (Some prompt) key).

(** What the lookups push on [missingPromptIndices]: each lookup, when it
    settles, pushes its index if it found nothing. *)
Definition pushed (order : list nat) (results : list (option (list Generation))) :
    list nat :=
  foldl (λ missingPromptIndices index,
           match results !! index with
           | Some None => missingPromptIndices ++ [index]
           | _ => missingPromptIndices
           end) [] order.

(** The lookups of all prompts: the results in the order of the prompts,
    and the indices of the misses in the order the lookups settled. *)
Definition lookup_all (sch : Schedule) (r : nat) (key : string) (prompts : list string) :
    Prog (list (option (list Generation)) * list nat) :=
  results <- promise_all (lookup_latency sch) (λ _ prompt, lookup_one r key prompt) prompts ;;
  ret (results, pushed (completion_order (lookup_latency sch) (length prompts)) results).

(** [missingPromptIndices.map((i) => prompts[i])] *)
Definition missing_prompts (prompts : list string) (missingPromptIndices : list nat) :
    list string :=
  (λ i, default "" (prompts !! i)) <$> missingPromptIndices.

(** [generations[promptIndex] = generation], where [promptIndex] is
    [missingPromptIndices[index]]: no element changes when that is
    [undefined]. *)
Definition splice (gens : list (option (list Generation))) (promptIndex : option nat)
    (generation : list Generation) : list (option (list Generation)) :=
  match promptIndex with
  | Some i => <[i := Some generation]> gens
  | None => gens
  end.

(** The splices of the rows [index], [index + 1], ... of the result. *)
Fixpoint splice_from (index : nat) (missingPromptIndices : list nat)
    (rows : list (list Generation)) (gens : list (option (list Generation))) :
    list (option (list Generation)) :=
  match rows with
  | [] => gens
  | generation :: rows' =>
      splice_from (S index) missingPromptIndices rows'
        (splice gens (missingPromptIndices !! index) generation)
  end.

(** One update: [cache.update(prompts[promptIndex], llmStringKey, generation)]. *)
Definition update_one (r : nat) (key : string) (prompts : list string)
    (missingPromptIndices : list nat) (index : nat) (generation : list Generation) :
    Prog unit :=
  λ w, let prompt := missingPromptIndices !! index ≫= (prompts !!.) in
       let '(o, c') := cache_update (cache_at w r) prompt key generation in
       (o, set_caches <[r := c']> w).

(** The splices and the updates for the rows of the backend's result. *)
Definition update_all (sch : Schedule) (r : nat) (key : string) (prompts : list string)
    (missingPromptIndices : list nat) (gens : list (option (list Generation)))
    (rows : list (list Generation)) : Prog (list (option (list Generation))) :=
  promise_all (update_latency sch) (update_one r key prompts missingPromptIndices) rows ;;
  ret (splice_from 0 missingPromptIndices rows gens).

(** [generate(prompts, stop, callbacks)] *)
Definition generate (llm : BaseLLM) (sch : Schedule) (prompts : PromptsArg)
    (stop : option (list string)) (cbs : option Callbacks) : Prog LLMResultRaw :=
  match prompts with
  | PromptsOther _ => throw "Argument 'prompts' is expected to be a string[]"
  | PromptsArray prompts =>
      match cache llm with
      | None =>
          output <- _generateUncached llm prompts stop cbs ;;
          ret (raw_of output)
      | Some r =>
          let key := llmStringKey llm stop in
          found <- lookup_all sch r key prompts ;;
          let '(gens, missingPromptIndices) := found in
          match missingPromptIndices with
          | [] => ret (mkLLMResult gens (Some []) None)
          | _ =>
              results <- _generateUncached llm
                           (missing_prompts prompts missingPromptIndices) stop cbs ;;
              gens' <- update_all sch r key prompts missingPromptIndices gens
                         (generations results) ;;
              ret (mkLLMResult gens' (Some (nullish (llmOutput results) [])) None)
          end
      end
  end.

(** [generatePrompt(promptValues, stop, callbacks)] *)
Definition generatePrompt (llm : BaseLLM) (sch : Schedule)
    (promptValues : list BasePromptValue) (stop : option (list string))
    (cbs : option Callbacks) : Prog LLMResultRaw :=
  generate llm sch (PromptsArray (promptValue_toString <$> promptValues)) stop cbs.

(** [generations[0][0].text], a [TypeError] when a step reads a property
    of [undefined] or [null]. *)
Definition first_text (gens : list (option (list Generation))) : outcome Error string :=
  match gens !! 0 with
  | Some (Some row) =>
      match row !! 0 with
      | Some g => Ok (text g)
      | None => Throw "TypeError: Cannot read properties of undefined (reading 'text')"
      end
  | Some None => Throw "TypeError: Cannot read properties of null (reading '0')"
  | None => Throw "TypeError: Cannot read properties of undefined (reading '0')"
  end.

(** [call(prompt, stop, callbacks)] *)
Definition call (llm : BaseLLM) (sch : Schedule) (prompt : string)
    (stop : option (list string)) (cbs : option Callbacks) : Prog string :=
  result <- generate llm sch (PromptsArray [prompt]) stop cbs ;;
  await (first_text (generations result)).

(** ** The subclass [LLM] *)

(** [LLM._generate]: one [_call] after the other, each text wrapped in a
    row of one generation. *)
Definition LLM_generate
    (_call : string → option (list string) → option CallbackManagerForLLMRun → Prog string)
    (prompts : list string) (stop : option (list string))
    (runManager : option CallbackManagerForLLMRun) : Prog LLMResult :=
  gens <- for_each (λ prompt, txt <- _call prompt stop runManager ;;
                              ret [mkGeneration txt None]) prompts ;;
  ret (mkLLMResult gens None None).
End llm.

Arguments BaseLLM C : clear implicits.
