(* ===== verification/Backend.v ===== *)
(** * The backend interface

    [BaseLLM] leaves [_generate] to its subclasses.  What the orchestrator
    may assume of it is stated here as an interface: [BackendFrame] says
    what a backend leaves alone (the caches, the log of calls, the supply of
    identifiers) and what it may add to the trace (token events of the run
    it was handed).  The orchestrator's theorems are proved against this
    interface; [LLM_generate], the backend of the subclass [LLM], discharges
    it from the same promise about [_call]. *)

From stdpp Require Import strings.
From S2P Require Import Prelude JsValue Schema Handler Cache Manager LLM.

(** ** Token deliveries *)

(** [d] is the delivery of a token event of the run [rm]. *)
Definition token_of (rm : option CallbackManagerForLLMRun) (d : Delivery) : Prop :=
  match rm with
  | Some rm =>
      match event d with
      | LLMNewToken _ r p => r = rm_runId rm ∧ p = rm_parentRunId rm
      | _ => False
      end
  | None => False
  end.

#[export] Instance token_of_dec rm d : Decision (token_of rm d).
Proof.
  unfold token_of. destruct rm as [rm|]; [|apply _].
  destruct (event d); apply _.
Defined.

(** [w'] is [w] with token deliveries of the run [rm] added to the trace,
    and nothing else changed. *)
Definition tokens_only {C} (rm : option CallbackManagerForLLMRun) : relation (World C) :=
  λ w w', caches w' = caches w ∧ calls w' = calls w ∧ uuids w' = uuids w ∧
          ∃ ds, trace w' = trace w ++ ds ∧ Forall (token_of rm) ds.

(** A program that only reports tokens of the run [rm]. *)
Definition reports_tokens {C A} (rm : option CallbackManagerForLLMRun)
    (m : M (World C) Error A) : Prop :=
  ∀ w, tokens_only rm w (m w).2.

(** ** The interface *)

Class BackendFrame {C} (llm : BaseLLM C) : Prop := {
  generate_frame prompts stop rm : reports_tokens rm (_generate llm prompts stop rm);
}.

(** The backend returns one row for each prompt it is given. *)
Class BackendRows {C} (llm : BaseLLM C) : Prop := {
  generate_rows prompts stop rm w out w' :
    _generate llm prompts stop rm w = (Ok out, w') →
    length (generations out) = length prompts;
}.

(** The backend answers each prompt on its own: the row of a prompt is a
    function [oracle] of the stop list and the prompt, whatever the batch it
    is in and whenever it is asked. *)
Class BackendPointwise {C} (llm : BaseLLM C)
    (oracle : option (list string) → string → list Generation) : Prop := {
  generate_pointwise prompts stop rm w out w' :
    _generate llm prompts stop rm w = (Ok out, w') →
    generations out = oracle stop <$> prompts;
}.

(** A backend that answers each prompt on its own returns a row for each
    prompt. *)
#[export] Instance pointwise_rows {C} (llm : BaseLLM C) oracle :
  BackendPointwise llm oracle → BackendRows llm.
Proof.
  intros Hp. split. intros prompts stop rm w out w' Hg.
  by rewrite (generate_pointwise _ _ _ _ _ _ Hg), length_fmap.
Qed.

(** The backend answers every call, when no hook of the handlers of the
    run it is handed rejects. *)
Class BackendTotal {C} (llm : BaseLLM C) : Prop := {
  generate_total prompts stop rm w :
    from_option (λ rm, quiet (rm_handlers rm)) True rm →
    ∃ out w', _generate llm prompts stop rm w = (Ok out, w');
}.

Section frame.
Context {C : Type}.
Implicit Types (w : World C) (rm : option CallbackManagerForLLMRun).

#[export] Instance tokens_only_preorder rm : PreOrder (@tokens_only C rm).
Proof.
  split.
  - intros w. split_and!; try done. exists []. by rewrite app_nil_r.
  - intros w1 w2 w3 (Hc & Hk & Hu & ds & Ht & Hds) (Hc' & Hk' & Hu' & ds' & Ht' & Hds').
    split_and!; try congruence. exists (ds ++ ds').
    rewrite Ht', Ht, (assoc_L (++)). split; [done | by apply Forall_app].
Qed.

Lemma reports_tokens_ret {A} rm (a : A) : reports_tokens (C:=C) rm (ret a).
Proof. intros w. simpl. reflexivity. Qed.

Lemma reports_tokens_throw {A} rm e : reports_tokens (C:=C) (A:=A) rm (throw e).
Proof. intros w. simpl. reflexivity. Qed.

Lemma reports_tokens_bind {A B} rm (m : M (World C) Error A) (k : A → M (World C) Error B) :
  reports_tokens rm m → (∀ a, reports_tokens rm (k a)) → reports_tokens rm (bind m k).
Proof.
  intros Hm Hk w. unfold bind. specialize (Hm w).
  destruct (m w) as [[a|e] w1]; simpl in *; [|done].
  etrans; [exact Hm | apply Hk].
Qed.

Lemma reports_tokens_for_each {A B} rm (f : A → M (World C) Error B) l :
  (∀ x, reports_tokens rm (f x)) → reports_tokens rm (for_each f l).
Proof.
  intros Hf. induction l as [|x l IH]; simpl.
  - apply reports_tokens_ret.
  - apply reports_tokens_bind; [apply Hf|]. intros y.
    apply reports_tokens_bind; [apply IH|]. intros ys. apply reports_tokens_ret.
Qed.

(** A token reported through the run manager is a token of its run. *)
Lemma reports_tokens_handleLLMNewToken (rm : CallbackManagerForLLMRun) token :
  reports_tokens (C:=C) (Some rm) (run_handleLLMNewToken rm token).
Proof.
  intros w. unfold run_handleLLMNewToken. rewrite emit_run.
  unfold tokens_only. simpl. split_and!; try done. eexists. split; [done|].
  unfold deliveries. apply Forall_forall. intros d [h [_ Hd]]%list_elem_of_omap.
  destruct (listening h _); simplify_eq/=. unfold token_of. simpl. by split.
Qed.

(** The backend of [LLM] reports only tokens when [_call] does. *)
Lemma LLM_generate_frame
    (_call : string → option (list string) → option CallbackManagerForLLMRun →
             M (World C) Error string) prompts stop rm :
  (∀ prompt, reports_tokens rm (_call prompt stop rm)) →
  reports_tokens rm (LLM_generate _call prompts stop rm).
Proof.
  intros Hcall. unfold LLM_generate.
  apply reports_tokens_bind; [|intros; apply reports_tokens_ret].
  apply reports_tokens_for_each. intros prompt.
  apply reports_tokens_bind; [apply Hcall | intros; apply reports_tokens_ret].
Qed.

(** [for_each] returns one result for each element. *)
Lemma for_each_length {A B} (f : A → M (World C) Error B) l w ys w' :
  for_each f l w = (Ok ys, w') → length ys = length l.
Proof.
  revert w ys. induction l as [|x l IH]; intros w ys; simpl.
  - by intros [= <- <-].
  - intros (y & w1 & _ & (ys' & w2 & Hl & [= <- <-])%bind_ok_inv)%bind_ok_inv.
    simpl. f_equal. eauto.
Qed.

(** The backend of [LLM] returns one row for each prompt. *)
Lemma LLM_generate_rows
    (_call : string → option (list string) → option CallbackManagerForLLMRun →
             M (World C) Error string) prompts stop rm w out w' :
  LLM_generate _call prompts stop rm w = (Ok out, w') →
  length (generations out) = length prompts.
Proof.
  unfold LLM_generate. intros (gens & w1 & Hl & [= <- <-])%bind_ok_inv. simpl.
  by eapply for_each_length.
Qed.

(** [for_each] of a function whose results are those of [g]. *)
Lemma for_each_pointwise {A B} (f : A → M (World C) Error B) (g : A → B) l w ys w' :
  (∀ x w y w', f x w = (Ok y, w') → y = g x) →
  for_each f l w = (Ok ys, w') → ys = g <$> l.
Proof.
  intros Hf. revert w ys. induction l as [|x l IH]; intros w ys; simpl.
  - by intros [= <- <-].
  - intros (y & w1 & Hy & (ys' & w2 & Hl & [= <- <-])%bind_ok_inv)%bind_ok_inv.
    csimpl. f_equal; eauto.
Qed.

(** The backend of [LLM] answers each prompt on its own when the text
    [_call] returns is a function of the stop list and the prompt. *)
Lemma LLM_generate_pointwise
    (_call : string → option (list string) → option CallbackManagerForLLMRun →
             M (World C) Error string)
    (answer : option (list string) → string → string) prompts stop rm w out w' :
  (∀ prompt w s w', _call prompt stop rm w = (Ok s, w') → s = answer stop prompt) →
  LLM_generate _call prompts stop rm w = (Ok out, w') →
  generations out = (λ prompt, [mkGeneration (answer stop prompt) None]) <$> prompts.
Proof.
  intros Hcall. unfold LLM_generate. intros (gens & w1 & Hl & [= <- <-])%bind_ok_inv.
  simpl. eapply for_each_pointwise; [|exact Hl].
  intros prompt w0 row w0' (s & w2 & Hs & [= <- <-])%bind_ok_inv.
  by rewrite (Hcall _ _ _ _ Hs).
Qed.

(** [for_each] of a function that returns on every element returns. *)
Lemma for_each_total {A B} (f : A → M (World C) Error B) l w :
  (∀ x w, ∃ y w', f x w = (Ok y, w')) → ∃ ys w', for_each f l w = (Ok ys, w').
Proof.
  intros Hf. revert w. induction l as [|x l IH]; intros w; simpl; [by eexists _, _|].
  destruct (Hf x w) as (y & w1 & Hy). destruct (IH w1) as (ys & w2 & Hys).
  exists (y :: ys), w2. by rewrite (bind_run_ok _ _ _ _ _ Hy), (bind_run_ok _ _ _ _ _ Hys).
Qed.

(** The backend of [LLM] answers when [_call] does. *)
Lemma LLM_generate_total
    (_call : string → option (list string) → option CallbackManagerForLLMRun →
             M (World C) Error string) prompts stop rm w :
  (∀ prompt w, ∃ s w', _call prompt stop rm w = (Ok s, w')) →
  ∃ out w', LLM_generate _call prompts stop rm w = (Ok out, w').
Proof.
  intros Hcall. unfold LLM_generate.
  destruct (for_each_total
    (λ prompt, txt <- _call prompt stop rm ;; ret [mkGeneration txt None]) prompts w)
    as (gens & w' & Hg).
  { intros prompt w0. destruct (Hcall prompt w0) as (s & w1 & Hs).
    eexists _, w1. by rewrite (bind_run_ok _ _ _ _ _ Hs). }
  eexists _, w'. by rewrite (bind_run_ok _ _ _ _ _ Hg).
Qed.
End frame.
