(* ===== verification/Scenario.v ===== *)
(** * Concrete scenarios

    A backend, handlers and worlds on which the definitions compute, used
    to instantiate the theorems: [echo], an [LLM] whose [_call] reports
    the prompt as a token and answers ["echo:" ++ prompt], with the global
    in-memory cache; a handler with the four hooks of an LLM run; handlers
    whose hooks reject; a backend that fails, one that returns too few
    rows; a cache whose operations can reject. *)

From stdpp Require Import strings gmap.
From S2P Require Import Prelude JsValue Schema Handler Cache Manager LLM Backend.

(** ** Handlers *)

Definition fulfils {A} : A → string → option string → HookResult := λ _ _ _, Ok tt.
Definition rejects {A} (e : Error) : A → string → option string → HookResult :=
  λ _ _ _, Throw e.

(** The four hooks of an LLM run, all fulfilled. *)
Definition llm_hooks : BaseCallbackHandlerMethods :=
  mkMethods (Some (λ _, fulfils)) (Some fulfils) (Some fulfils) (Some fulfils)
    None None None None None None None None None.

(** As [llm_hooks], with an error hook that rejects. *)
Definition bad_error_hook : BaseCallbackHandlerMethods :=
  mkMethods (Some (λ _, fulfils)) (Some fulfils) (Some (rejects "sink failed"))
    (Some fulfils) None None None None None None None None None.

(** As [llm_hooks], with a start hook that rejects. *)
Definition bad_start_hook : BaseCallbackHandlerMethods :=
  mkMethods (Some (λ _, rejects "sink failed")) (Some fulfils) (Some fulfils)
    (Some fulfils) None None None None None None None None None.

Definition observer (nm : string) : BaseCallbackHandler :=
  mkHandler nm false false false llm_hooks ClassDerived.

(** ** Backends *)

Section backends.
Context {C : Type} `{!CachePort C}.
#[local] Abbreviation Prog := (M (World C) Error).

Definition echo_call (prompt : string) (stop : option (list string))
    (rm : option CallbackManagerForLLMRun) : Prog string :=
  opt_call rm (λ rm, run_handleLLMNewToken rm prompt) ;;
  ret ("echo:" +:+ prompt).

(** A backend that rejects every call. *)
Definition failing_generate (prompts : list string) (stop : option (list string))
    (rm : option CallbackManagerForLLMRun) : Prog LLMResult :=
  throw "backend failed".

(** A backend that returns one row, whatever it is asked. *)
Definition short_generate (prompts : list string) (stop : option (list string))
    (rm : option CallbackManagerForLLMRun) : Prog LLMResult :=
  ret (mkLLMResult [[mkGeneration "only" None]] None None).

Definition params (c : CacheParam) (hs : list BaseCallbackHandler) : BaseLLMParams :=
  mkParams None c None None (match hs with [] => None | _ => Some (CbHandlers hs) end).

Definition echo_with (c : CacheParam) (hs : list BaseCallbackHandler) : BaseLLM C :=
  construct_llm "echo" (LLM_generate echo_call) "echo" [("temperature", JNum 0)]
    (params c hs).

Definition failing_with (c : CacheParam) (hs : list BaseCallbackHandler) : BaseLLM C :=
  construct_llm "failing" failing_generate "failing" base_identifyingParams (params c hs).

Definition short_with (c : CacheParam) : BaseLLM C :=
  construct_llm "short" short_generate "short" base_identifyingParams (params c []).

(** The world at the start: no cache written, nothing logged. *)
Definition world0 : World C := mkWorld ∅ [] [] 0.

(** [w] with [rows] cached for [prompt] under [key] in the global cache. *)
Definition with_cached (key prompt : string) (rows : list Generation) (w : World C) :
    World C :=
  (update_one global_cache key [prompt] [0] 0 rows w).2.

Lemma echo_call_frame prompt stop rm : reports_tokens rm (echo_call prompt stop rm).
Proof.
  unfold echo_call. apply reports_tokens_bind; [|intros; apply reports_tokens_ret].
  destruct rm as [rm|]; simpl; [|apply reports_tokens_ret].
  apply reports_tokens_bind; [|intros; apply reports_tokens_ret].
  apply reports_tokens_handleLLMNewToken.
Qed.

#[export] Instance echo_frame c hs : BackendFrame (echo_with c hs).
Proof. split. intros. apply LLM_generate_frame. intros. apply echo_call_frame. Qed.

#[export] Instance echo_rows c hs : BackendRows (echo_with c hs).
Proof. split. intros *. apply LLM_generate_rows. Qed.

(** The row of the echo backend for a prompt. *)
Definition echo_row (stop : option (list string)) (prompt : string) : list Generation :=
  [mkGeneration ("echo:" +:+ prompt) None].

#[export] Instance echo_pointwise c hs : BackendPointwise (echo_with c hs) echo_row.
Proof.
  split. intros prompts stop rm w out w' Hg.
  apply (LLM_generate_pointwise echo_call (λ _ prompt, "echo:" +:+ prompt)) in Hg; [done|].
  intros prompt w0 s w0'. unfold echo_call.
  by intros (? & ? & _ & [= <- _])%bind_ok_inv.
Qed.

#[export] Instance echo_total c hs : BackendTotal (echo_with c hs).
Proof.
  split. intros prompts stop rm w Hq. apply LLM_generate_total. intros prompt w0.
  unfold echo_call, bind. destruct rm as [rm|]; simpl; [|by eexists _, _].
  unfold bind, run_handleLLMNewToken. rewrite emit_run, emit_outcome_quiet by done.
  by eexists _, _.
Qed.

#[export] Instance failing_frame c hs : BackendFrame (failing_with c hs).
Proof. split. intros. apply reports_tokens_throw. Qed.

#[export] Instance short_frame c : BackendFrame (short_with c).
Proof. split. intros. apply reports_tokens_ret. Qed.
End backends.

(** The initial world with in-memory caches. *)
Definition mem0 : World InMemoryCache := world0.

(** ** The scenario of three prompts, the second one cached *)

Definition echo : BaseLLM InMemoryCache := echo_with (CacheFlag true) [observer "h1"].

Definition cached_row : list Generation := [mkGeneration "cached" None].

Definition world1 : World InMemoryCache :=
  with_cached (llmStringKey echo None) "p2" cached_row world0.

Definition three_prompts : list string := ["p1"; "p2"; "p3"].

(** The third lookup settles first, the first one last. *)
Definition reversed : Schedule := mkSchedule (λ i, 10 - i) (λ _, 0).

Definition empty_result {Row} : LLMResultOf Row := mkLLMResult [] None None.

(** The result of a run that is known to have returned. *)
Definition result_of {W Row} (run : outcome Error (LLMResultOf Row) * W) : LLMResultOf Row :=
  match run.1 with
  | Ok res => res
  | Throw _ => empty_result
  end.

(** What the lookups of [three_prompts] find in [world1]. *)
Definition found1 : list (option (list Generation)) := [None; Some cached_row; None].

(** ** A cache whose lookup of ["p2"] rejects *)

Definition faulty_echo : BaseLLM FaultyCache := echo_with (CacheObject 1) [].

Definition faulty_world : World FaultyCache :=
  mkWorld {[ 1 := mkFaultyCache ∅ {[ (Some "p2", llmStringKey faulty_echo None) ]} ∅ ]}
    [] [] 0.

(** ** A cache whose update of ["p3"] rejects *)

Definition jammed_world : World FaultyCache :=
  mkWorld {[ 1 := mkFaultyCache ∅ ∅ {[ (Some "p3", llmStringKey faulty_echo None) ]} ]}
    [] [] 0.

(** ** Without a cache *)

Definition plain_echo : BaseLLM InMemoryCache := echo_with CacheAbsent [observer "h1"].
