(* ===== verification/Adapter.v ===== *)
(** * The single-prompt adapter ([LLM._generate])

    The class [LLM] implements the backend of [BaseLLM] by a loop over
    [_call]: one call for each prompt, awaited before the next is made, the
    text of each wrapped in a row of one generation.  The theorem of this
    file gives the loop in closed form on both of its exits, whatever
    [_call] does to the world. *)

From stdpp Require Import strings gmap.
From S2P Require Import Prelude JsValue Schema Handler Cache Manager LLM Backend.
From S2P Require Import Scenario.

(** A [_call] that rejects the prompt [bad] and echoes the others. *)
Definition refusing_call {C} (bad : string) (prompt : string)
    (stop : option (list string)) (rm : option CallbackManagerForLLMRun) :
    M (World C) Error string :=
  if decide (prompt = bad) then throw "refused" else echo_call prompt stop rm.

Section adapter.
Context {C : Type}.
Context (_call : string → option (list string) → option CallbackManagerForLLMRun →
                 M (World C) Error string).
Context (stop : option (list string)) (rm : option CallbackManagerForLLMRun).
Implicit Types (prompts : list string) (prompt : string) (w : World C).

#[local] Abbreviation call := (λ prompt, _call prompt stop rm).

(** The body of the loop. *)
#[local] Abbreviation row_of :=
  (λ prompt, txt <- _call prompt stop rm ;; ret [mkGeneration txt None]).

Lemma row_of_run prompt w :
  row_of prompt w =
    (outcome_map (λ txt, [mkGeneration txt None]) (call prompt w).1, (call prompt w).2).
Proof. unfold bind. by destruct (_call prompt stop rm w) as [[txt|e] w']. Qed.

Lemma row_of_world prompts w : world_after row_of prompts w = world_after call prompts w.
Proof. apply world_after_ext. intros prompt w0. by rewrite row_of_run. Qed.

Lemma LLM_generate_run prompts w :
  LLM_generate _call prompts stop rm w =
    (outcome_map (λ gens, mkLLMResult gens None None) (for_each row_of prompts w).1,
     (for_each row_of prompts w).2).
Proof.
  unfold LLM_generate, bind. by destruct (for_each _ prompts w) as [[gens|e] w'].
Qed.

(** C37.  The adapter.  [LLM._generate] calls [_call] on the prompts one
    after the other, each call in the world the call before it left.  When
    every call returns, the result has one row for each prompt, in the
    order of the prompts, the row of a prompt being the single generation
    with the text its call returned, and no [llmOutput].  When a call
    rejects, [_generate] rejects with the error of that call in the world
    that call left: the calls before it returned and no call is made for
    the prompts after it. *)
Theorem LLM_generate_in_turn prompts w :
  let run := LLM_generate _call prompts stop rm w in
  match run.1 with
  | Ok out =>
      run.2 = world_after call prompts w ∧
      llmOutput out = None ∧ __run out = None ∧
      length (generations out) = length prompts ∧
      ∀ i prompt, prompts !! i = Some prompt →
        ∃ txt, generations out !! i = Some [mkGeneration txt None] ∧
          call prompt (world_after call (take i prompts) w) =
            (Ok txt, world_after call (take (S i) prompts) w)
  | Throw e =>
      ∃ i prompt, prompts !! i = Some prompt ∧
        call prompt (world_after call (take i prompts) w) = (Throw e, run.2) ∧
        ∀ j prompt', j < i → prompts !! j = Some prompt' →
          is_ok (call prompt' (world_after call (take j prompts) w)).1
  end.
Proof.
  cbv zeta. rewrite LLM_generate_run.
  destruct (for_each row_of prompts w) as [[gens|e] w'] eqn:Hl; simpl.
  - apply for_each_ok_inv in Hl as (-> & Hlen & Hrows).
    split_and!; [apply row_of_world | done..|]. intros i prompt Hi.
    destruct (Hrows i prompt Hi) as (row & Hrow & Hcall).
    rewrite row_of_run, !row_of_world in Hcall.
    cbv beta. destruct (_call prompt stop rm _) as [[txt|e] w1]; simplify_eq/=.
    by exists txt.
  - apply for_each_throw_inv in Hl as (i & prompt & Hi & Hcall & Hbefore).
    exists i, prompt. rewrite row_of_run, row_of_world in Hcall. split_and!; [done| |].
    + cbv beta. destruct (_call prompt stop rm _) as [[txt|e'] w1]; by simplify_eq/=.
    + intros j prompt' Hj Hj'. specialize (Hbefore j prompt' Hj Hj').
      rewrite row_of_run, row_of_world in Hbefore. simpl in Hbefore.
      cbv beta. by destruct (_call prompt' stop rm _) as [[txt|e'] w1].
Qed.
End adapter.

(** The handle of a run with one listening handler. *)
Definition run1 : CallbackManagerForLLMRun := mkRun "r1" [observer "h1"] None.

(** Three prompts, the second refused: the loop stops there, with the
    token of the first prompt in the trace and no call for the third. *)
Example LLM_generate_stops :
  LLM_generate (refusing_call "p2") three_prompts None (Some run1) mem0 =
    (Throw "refused",
     mkWorld ∅ [mkDelivery "h1" (LLMNewToken "p1" "r1" None)] [] 0).
Proof. vm_compute. reflexivity. Qed.

(** Every call returns: the rows in the order of the prompts. *)
Example LLM_generate_rows_example :
  (LLM_generate echo_call ["p1"; "p2"] None None mem0).1 =
    Ok (mkLLMResult [[mkGeneration "echo:p1" None]; [mkGeneration "echo:p2" None]]
          None None).
Proof. vm_compute. reflexivity. Qed.
