(* ===== verification/Key.v ===== *)
(** * The cache key

    [llmStringKey] is the string of the sorted entries of the serialized
    model with [stop] added.  The theorems: the key is the sorted entry
    strings joined by commas; it does not depend on the order in which the
    identifying parameters are listed; it depends on [stop] only through
    the string of [stop], so that different stop lists with the same
    string, or an absent and an empty one, share their key; and the key
    determines that string, so that stop lists of plain strings are told
    apart. *)

From stdpp Require Import strings sorting.
From S2P Require Import Prelude JsValue Strings Schema Handler Cache Manager LLM Backend Scenario.

#[local] Set Warnings "-clear-no-such-hyp".

(** The string of an entry [[k, v]]. *)
Definition entry_string (kv : string * JsVal) : string :=
  kv.1 +:+ "," +:+ js_join_elem kv.2.

(** The value [params.stop] takes. *)
Definition stop_value (stop : option (list string)) : JsVal :=
  js_of_option js_of_strings stop.

(** The string of [stop] in the key. *)
Definition stop_string (stop : option (list string)) : string :=
  from_option (String.concat ",") "" stop.

Section objects.
Implicit Types (o : JsObject) (k : string) (v : JsVal).

Lemma obj_entries_strings o : js_toString <$> obj_entries o = entry_string <$> o.
Proof.
  unfold obj_entries. rewrite <-list_fmap_compose. apply list_fmap_ext.
  intros i [k v] _. simpl. unfold entry_string. simpl. by destruct v.
Qed.

(** An element that is an array joins as its string. *)
Lemma js_join_entries (l : list JsVal) :
  Forall (λ v, ∃ l', v = JArr l') l → js_join_elem <$> l = js_toString <$> l.
Proof.
  intros H. apply list_fmap_ext. intros i v Hv.
  by destruct (proj1 (Forall_lookup _ _) H i v Hv) as [l' ->].
Qed.

Lemma obj_entries_arrays o : Forall (λ v, ∃ l', v = JArr l') (obj_entries o).
Proof. apply Forall_fmap, Forall_true. intros [k v]. simpl. eauto. Qed.

(** The entry strings of an object whose property [k] is set depend on the
    value only through its string. *)
Lemma entry_strings_set k v1 v2 o :
  js_join_elem v1 = js_join_elem v2 →
  entry_string <$> obj_set k v1 o = entry_string <$> obj_set k v2 o.
Proof.
  intros Hv. induction o as [|[k' v'] o IH]; simpl.
  - unfold entry_string. simpl. by rewrite Hv.
  - case_decide; csimpl; [|by rewrite IH]. unfold entry_string at 1 3. simpl. by rewrite Hv.
Qed.

(** Setting a property of an object with distinct keys: the property
    first, the other properties after it, up to their order. *)
Lemma obj_set_perm k v o :
  obj_wf o → obj_set k v o ≡ₚ (k, v) :: filter (λ kv, kv.1 ≠ k) o.
Proof.
  unfold obj_wf, obj_keys. induction o as [|[k' v'] o IH]; intros Hnd; [done|].
  csimpl in Hnd. apply NoDup_cons in Hnd as [Hk' Hnd]. simpl.
  destruct (decide (k' = k)) as [->|Hne].
  - rewrite filter_cons_False by naive_solver. rewrite filter_all; [done|].
    apply Forall_forall. intros [k1 v1] Hin. simpl. intros ->.
    apply Hk', list_elem_of_fmap. by exists (k, v1).
  - rewrite filter_cons_True by done. rewrite IH by done. apply Permutation_swap.
Qed.

Lemma obj_set_Permutation k v o1 o2 :
  obj_wf o1 → o1 ≡ₚ o2 → obj_set k v o1 ≡ₚ obj_set k v o2.
Proof.
  intros Hwf Hp. assert (obj_wf o2) as Hwf2.
  { unfold obj_wf, obj_keys in *. by rewrite <-Hp. }
  rewrite !obj_set_perm by done. by rewrite Hp.
Qed.
End objects.

Section key.
Context {C : Type} `{!CachePort C}.
Implicit Types (llm : BaseLLM C) (stop : option (list string)).

Lemma stop_value_string stop : js_join_elem (stop_value stop) = stop_string stop.
Proof.
  destruct stop as [l|]; [|done]. simpl. apply js_toString_of_strings.
Qed.

(** The key is the entry strings of the parameters, sorted and joined. *)
Lemma key_by_strings llm stop :
  llmStringKey llm stop =
    String.concat "," (merge_sort str_le
      (entry_string <$> obj_set "stop" (stop_value stop) (serialize llm))).
Proof.
  unfold llmStringKey. fold (stop_value stop).
  rewrite js_toString_arr, js_sort_defined by apply obj_entries_defined.
  rewrite js_join_entries.
  - by rewrite js_toString_merge_sort, obj_entries_strings.
  - rewrite merge_sort_Permutation. apply obj_entries_arrays.
Qed.

(** The key depends on the stop list only through its string: two
    stop lists that join to the same string give the same key (as
    [["a,b"]] and [["a"; "b"]] do), although they stop the generation at
    different places. *)
Theorem llmStringKey_stop_join llm (stop1 stop2 : list string) :
  String.concat "," stop1 = String.concat "," stop2 →
  llmStringKey llm (Some stop1) = llmStringKey llm (Some stop2).
Proof.
  intros Hj. rewrite !key_by_strings. do 2 f_equal.
  apply entry_strings_set. by rewrite !stop_value_string.
Qed.

(** No stop list, an empty one and a list of one empty string give
    the same key. *)
Theorem llmStringKey_no_stop llm :
  llmStringKey llm None = llmStringKey llm (Some []) ∧
  llmStringKey llm None = llmStringKey llm (Some [""]).
Proof.
  rewrite !key_by_strings.
  split; do 2 f_equal; apply entry_strings_set; by rewrite !stop_value_string.
Qed.

(** C30.  The key does not depend on the order in which the identifying
    parameters are listed: models of the same type whose parameters are a
    permutation of each other have the same key, for every stop list. *)
Theorem llmStringKey_Permutation llm1 llm2 stop :
  _llmType llm1 = _llmType llm2 →
  obj_wf (_identifyingParams llm1) →
  _identifyingParams llm1 ≡ₚ _identifyingParams llm2 →
  llmStringKey llm1 stop = llmStringKey llm2 stop.
Proof.
  intros Hty Hwf Hp. rewrite !key_by_strings. f_equal.
  apply (Sorted_unique str_le); [apply (Sorted_merge_sort _) ..|].
  rewrite !merge_sort_Permutation. apply fmap_Permutation. unfold serialize. rewrite Hty.
  repeat (apply obj_set_Permutation; [by repeat apply obj_set_wf|]). done.
Qed.

(** ** The key tells stop lists apart by their string *)

(** The entry strings of the parameters other than [stop]. *)
Definition key_entries llm : list string :=
  entry_string <$> filter (λ kv, kv.1 ≠ "stop") (serialize llm).

(** The entry string of [stop]. *)
Definition stop_entry (stop : option (list string)) : string :=
  "stop" +:+ String comma (stop_string stop).

Lemma entry_string_comma kv :
  entry_string kv = kv.1 +:+ String comma (js_join_elem kv.2).
Proof. done. Qed.

(** The parameters of the model are an object whose keys have no comma. *)
Definition params_plain llm : Prop :=
  obj_wf (_identifyingParams llm) ∧ Forall comma_free (obj_keys (_identifyingParams llm)).

Lemma serialize_plain llm :
  params_plain llm →
  obj_wf (serialize llm) ∧ Forall comma_free (obj_keys (serialize llm)).
Proof.
  intros [Hwf Hk]. unfold serialize. split; [by repeat apply obj_set_wf|].
  rewrite !obj_keys_set. repeat case_decide; rewrite ?Forall_app, ?Forall_singleton; done.
Qed.

(** The key is the join of the sorted entries, the one of [stop] among
    them. *)
Lemma key_insert llm stop :
  params_plain llm →
  llmStringKey llm stop =
    String.concat "," (merge_sort str_le (stop_entry stop :: key_entries llm)).
Proof.
  intros [Hwf _]%serialize_plain. rewrite key_by_strings. f_equal.
  apply (Sorted_unique str_le); [apply (Sorted_merge_sort _) ..|].
  rewrite !merge_sort_Permutation, (obj_set_perm _ _ _ Hwf). csimpl.
  unfold entry_string at 1, stop_entry. simpl. by rewrite stop_value_string.
Qed.

(** Where the entry of [stop] is among the sorted entries does not depend
    on the stop list. *)
Lemma stop_entry_order llm stop1 stop2 e :
  params_plain llm → e ∈ key_entries llm →
  str_le (stop_entry stop1) e ↔ str_le (stop_entry stop2) e.
Proof.
  intros [_ Hk]%serialize_plain ([k v] & -> & [Hne Hin]%list_elem_of_filter)%list_elem_of_fmap.
  assert (comma_free k) as Hck.
  { apply (proj1 (Forall_forall _ _) Hk), list_elem_of_fmap. by exists (k, v). }
  unfold str_le, String.leb, stop_entry. rewrite entry_string_comma. cbn [fst snd].
  by rewrite (compare_before_comma "stop" k _ _ (stop_string stop2) (js_join_elem v)).
Qed.

(** The key determines the string of the stop list. *)
Lemma key_stop_string llm stop1 stop2 :
  params_plain llm →
  llmStringKey llm stop1 = llmStringKey llm stop2 → stop_string stop1 = stop_string stop2.
Proof.
  intros Hp. rewrite !key_insert, !(merge_sort_insert str_le) by done.
  set (L := merge_sort str_le (key_entries llm)).
  assert (∀ e, e ∈ L → e ∈ key_entries llm) as HL
    by (intros e; unfold L; by rewrite merge_sort_Permutation).
  rewrite (filter_ext_Forall _ (λ e, ¬ str_le (stop_entry stop2) e) L),
    (filter_ext_Forall (str_le (stop_entry stop1)) (str_le (stop_entry stop2)) L).
  - rewrite !concat_middle. intros Heq%(inj _)%app_inv_r_str.
    unfold stop_entry in Heq. apply (inj _) in Heq. by injection Heq.
  - apply Forall_forall. intros e He%HL. by apply (stop_entry_order llm).
  - apply Forall_forall. intros e He%HL. by rewrite (stop_entry_order llm stop1 stop2).
Qed.

(** C29.  The key identifies the stop list by its string, and by nothing
    else: for a model whose parameters are an object with comma-free keys,
    two calls have the same key exactly when their stop lists join to the
    same string (an absent stop list joining to the empty string). *)
Theorem llmStringKey_stop_string llm stop1 stop2 :
  params_plain llm →
  llmStringKey llm stop1 = llmStringKey llm stop2 ↔ stop_string stop1 = stop_string stop2.
Proof.
  intros Hp. split; [by apply key_stop_string|]. intros Hs.
  rewrite !key_by_strings. do 2 f_equal. apply entry_strings_set.
  by rewrite !stop_value_string.
Qed.

(** C12.  Stop lists of plain strings (not empty, without a comma) are
    told apart by the key: for a model whose parameters are an object with
    comma-free keys, two such lists with the same key are the same list. *)
Theorem llmStringKey_stop_inj llm (stop1 stop2 : list string) :
  params_plain llm → Forall plain stop1 → Forall plain stop2 →
  llmStringKey llm (Some stop1) = llmStringKey llm (Some stop2) → stop1 = stop2.
Proof.
  intros Hp H1 H2 Heq%key_stop_string; [|done]. by apply concat_comma_inj.
Qed.
End key.

(** ** The theorems at concrete inputs *)

Lemma llmStringKey_stop_join_witness :
  llmStringKey echo (Some ["a,b"]) = llmStringKey echo (Some ["a"; "b"]).
Proof. apply (llmStringKey_stop_join echo ["a,b"] ["a"; "b"]). reflexivity. Defined.

Lemma llmStringKey_Permutation_witness :
  llmStringKey
    (construct_llm (C:=InMemoryCache) "m" failing_generate "openai"
       [("temperature", JNum 0); ("modelName", JStr "davinci")] (params CacheAbsent []))
    (Some ["."]) =
  llmStringKey
    (construct_llm (C:=InMemoryCache) "m" failing_generate "openai"
       [("modelName", JStr "davinci"); ("temperature", JNum 0)] (params CacheAbsent []))
    (Some ["."]).
Proof.
  apply llmStringKey_Permutation.
  - reflexivity.
  - unfold obj_wf. compute_done.
  - apply Permutation_swap.
Defined.

Lemma llmStringKey_stop_inj_witness : ["\n\n"; "Human:"] = ["\n\n"; "Human:"].
Proof.
  apply (llmStringKey_stop_inj echo ["\n\n"; "Human:"] ["\n\n"; "Human:"]).
  - split; [unfold obj_wf|]; compute_done.
  - compute_done.
  - compute_done.
  - reflexivity.
Defined.

Lemma llmStringKey_stop_string_witness :
  llmStringKey echo (Some ["a,b"]) = llmStringKey echo (Some ["a"; "b"]) ↔
  stop_string (Some ["a,b"]) = stop_string (Some ["a"; "b"]).
Proof.
  apply (llmStringKey_stop_string echo (Some ["a,b"]) (Some ["a"; "b"])).
  split; [unfold obj_wf|]; compute_done.
Defined.
