(* ===== verification/Serialize.v ===== *)
(** * Serialization

    [serialize] and [deserialize]: the two failures of [deserialize], the
    round trip of a serialized model, and the keys of the class table that
    are found although the table does not list them. *)

From stdpp Require Import strings sets.
From S2P Require Import Prelude JsValue Schema Handler Cache Manager LLM Backend Scenario.

#[local] Set Warnings "-clear-no-such-hyp".

Section objects.
Implicit Types (o : JsObject) (k : string) (v : JsVal) (ks : list string).

Lemma obj_rest_set_in ks k v o : k ∈ ks → obj_rest ks (obj_set k v o) = obj_rest ks o.
Proof.
  intros Hk. unfold obj_rest. induction o as [|[k' v'] o IH]; simpl.
  - by rewrite filter_cons_False by naive_solver.
  - case_decide as Hkk; [subst k'|].
    + by rewrite !filter_cons_False by naive_solver.
    + rewrite !filter_cons, IH. done.
Qed.

Lemma obj_rest_cons_in ks k v o : k ∈ ks → obj_rest ks ((k, v) :: o) = obj_rest ks o.
Proof. intros Hk. unfold obj_rest. by rewrite filter_cons_False by naive_solver. Qed.

Lemma obj_get_cons_eq k v o : obj_get ((k, v) :: o) k = v.
Proof. simpl. by rewrite decide_True. Qed.

Lemma obj_get_cons_ne k k' v o : k ≠ k' → obj_get ((k, v) :: o) k' = obj_get o k'.
Proof. intros. simpl. by rewrite decide_False. Qed.

Lemma obj_rest_disjoint ks o : (∀ k, k ∈ ks → k ∉ obj_keys o) → obj_rest ks o = o.
Proof.
  intros Hd. unfold obj_rest. apply filter_all, Forall_forall.
  intros [k v] Hin Hk. simpl in Hk. apply (Hd k Hk), list_elem_of_fmap. by exists (k, v).
Qed.

Lemma serialize_type {C} (llm : BaseLLM C) : obj_get (serialize llm) "_type" = JStr (_llmType llm).
Proof. unfold serialize. by rewrite obj_get_set_ne, obj_get_set_eq. Qed.

Lemma serialize_model {C} (llm : BaseLLM C) : obj_get (serialize llm) "_model" = JStr "base_llm".
Proof. unfold serialize. by rewrite obj_get_set_eq. Qed.

(** The serialization of a model is a [SerializedLLM], and an object
    when the parameters are. *)
Lemma serialize_wf {C} (llm : BaseLLM C) :
  isSerializedLLM (serialize llm) ∧
  (obj_wf (_identifyingParams llm) → obj_wf (serialize llm)).
Proof.
  unfold isSerializedLLM. rewrite serialize_type, serialize_model.
  split; [done|]. intros Hwf. unfold serialize. by repeat apply obj_set_wf.
Qed.

Lemma serialize_rest {C} (llm : BaseLLM C) :
  obj_rest ["_type"; "_model"] (serialize llm) =
  obj_rest ["_type"; "_model"] (_identifyingParams llm).
Proof. unfold serialize. rewrite !obj_rest_set_in; [done | set_solver..]. Qed.
End objects.

Section deserialize.
Implicit Types (data : SerializedLLM).

(** The model discriminator passes: it is falsy or it is ["base_llm"]. *)
Definition model_ok (m : JsVal) : bool :=
  negb (js_truthy m) || js_strict_eq_str m "base_llm".

(** C32.  A record whose model discriminator is set and is not ["base_llm"]
    is refused with the message of the source, whatever its type. *)
Theorem deserialize_model_mismatch data :
  model_ok (obj_get data "_model") = false →
  deserialize data =
    Throw ("Cannot load LLM with model " +:+ js_toString (obj_get data "_model")).
Proof.
  unfold deserialize, model_ok. intros Hm.
  destruct (js_truthy _), (js_strict_eq_str _ _); done.
Qed.

(** C33.  A record whose type is neither in the class table nor a member
    of [Object.prototype] is refused with the message of the source. *)
Theorem deserialize_unknown_type data :
  model_ok (obj_get data "_model") = true →
  registry (js_toString (obj_get data "_type")) = None →
  deserialize data =
    Throw ("Cannot load  LLM with type " +:+ js_toString (obj_get data "_type")).
Proof.
  unfold deserialize, model_ok. intros Hm ->.
  destruct (js_truthy _), (js_strict_eq_str _ _); done.
Qed.

(** C31.  Round trip: a serialized model of type ["openai"] loads the class
    [OpenAI] with the identifying parameters. *)
Theorem deserialize_serialize {C} (llm : BaseLLM C) :
  _llmType llm = "openai" →
  (∀ k, k ∈ ["_type"; "_model"] → k ∉ obj_keys (_identifyingParams llm)) →
  deserialize (serialize llm) = Ok (LoadedOpenAI (_identifyingParams llm)).
Proof.
  intros Hty Hk. unfold deserialize.
  rewrite serialize_model, serialize_type, serialize_rest, Hty. simpl.
  by rewrite obj_rest_disjoint.
Qed.

(** C34.  The type ["constructor"] is not in the class table, yet
    [deserialize] does not fail on it: the table inherits [constructor]
    from [Object.prototype], and what is returned is the plain object of
    the remaining fields, which is no model. *)
Theorem deserialize_constructor (fields : JsObject) :
  (∀ k, k ∈ ["_type"; "_model"] → k ∉ obj_keys fields) →
  deserialize (("_type", JStr "constructor") :: fields) = Ok (LoadedPlainObject fields).
Proof.
  intros Hk. unfold deserialize.
  rewrite obj_get_cons_eq, obj_get_cons_ne, obj_get_notin by (done || apply Hk; set_solver).
  rewrite obj_rest_cons_in, obj_rest_disjoint by (done || set_solver). done.
Qed.
End deserialize.

(** ** The theorems at concrete inputs *)

Lemma deserialize_model_mismatch_witness :
  deserialize [("_type", JStr "openai"); ("_model", JStr "chat")] =
    Throw "Cannot load LLM with model chat".
Proof.
  apply (deserialize_model_mismatch [("_type", JStr "openai"); ("_model", JStr "chat")]).
  reflexivity.
Defined.

Lemma deserialize_unknown_type_witness :
  deserialize [("_type", JStr "cohere"); ("_model", JStr "base_llm")] =
    Throw "Cannot load  LLM with type cohere".
Proof.
  apply (deserialize_unknown_type [("_type", JStr "cohere"); ("_model", JStr "base_llm")]);
    reflexivity.
Defined.

Lemma deserialize_serialize_witness :
  deserialize (serialize
    (construct_llm (C:=InMemoryCache) "m" failing_generate "openai"
       [("temperature", JNum 0)] (params CacheAbsent []))) =
  Ok (LoadedOpenAI [("temperature", JNum 0)]).
Proof.
  apply (deserialize_serialize
    (construct_llm (C:=InMemoryCache) "m" failing_generate "openai"
       [("temperature", JNum 0)] (params CacheAbsent []))).
  - reflexivity.
  - intros k Hk. unfold obj_keys. simpl. set_solver.
Defined.

Lemma deserialize_constructor_witness :
  deserialize [("_type", JStr "constructor"); ("temperature", JNum 0)] =
    Ok (LoadedPlainObject [("temperature", JNum 0)]).
Proof.
  apply (deserialize_constructor [("temperature", JNum 0)]).
  intros k Hk. unfold obj_keys. simpl. set_solver.
Defined.
