(* ===== verification/Uncached.v ===== *)
(** * The uncached path: what [_generateUncached] does

    The behaviour of [_generateUncached] on each of its branches (no
    handler; the start event rejected; the backend fulfilled or rejected,
    and the terminal event fulfilled or rejected), and what follows for the
    caller: which error it sees, when the backend is invoked, what the
    handlers are told. *)

From stdpp Require Import strings.
From S2P Require Import Prelude JsValue Schema Handler Cache Manager LLM Backend Scenario.

#[local] Set Warnings "-clear-no-such-hyp".

(** ** The handlers of a run *)

Section handlers.
Context {C : Type}.

(** The handlers [configure] gathers for a call of [llm] with [cbs]. *)
Definition run_handlers (llm : BaseLLM C) (cbs : option Callbacks) :
    list BaseCallbackHandler :=
  dedup_by_name [] (callbacks_handlers cbs ++ default [] (own_handlers llm)).

(** The result with its run-correlation data. *)
Definition with_run (out : LLMResult) (r : option string) : LLMResult :=
  mkLLMResult (generations out) (llmOutput out) (mkRunInfo <$> r).

(** The error the caller sees when the backend rejected with [err] and the
    error event settled with [o]. *)
Definition surfaced (err : Error) (o : outcome Error unit) : Error :=
  match o with Ok _ => err | Throw e' => e' end.
End handlers.

Section uncached.
Context {C : Type} `{!CachePort C}.
Implicit Types (llm : BaseLLM C) (w : World C) (hs : list BaseCallbackHandler).

Lemma configure_run cbs defaults v w :
  configure cbs defaults v w =
    (let hs := dedup_by_name [] (callbacks_handlers cbs ++ default [] defaults) in
     Ok (match hs with
         | [] => None
         | _ :: _ => Some (mkManager hs (callbacks_parent cbs) v)
         end), w).
Proof. done. Qed.

Lemma nonempty_manager hs p v :
  hs ≠ [] →
  match hs with [] => None | _ => Some (mkManager hs p v) end = Some (mkManager hs p v).
Proof. by destruct hs. Qed.

(** With no handler there is no run manager: the backend is called with
    none, no event is emitted and the result carries no run data. *)
Lemma generateUncached_unobserved llm prompts stop cbs w :
  run_handlers llm cbs = [] →
  _generateUncached llm prompts stop cbs w =
    let '(o, w') := _generate llm prompts stop None
                      (log_call (mkBackendCall prompts stop None) w) in
    (outcome_map (λ out, with_run out None) o, w').
Proof.
  unfold run_handlers. intros Hhs. unfold _generateUncached, bind at 1.
  rewrite configure_run. cbv zeta. rewrite Hhs. simpl. unfold bind, try_catch, invoke_generate, bind. simpl.
  by destruct (_generate _ _ _ _ _) as [[out|err] w'].
Qed.

(** With handlers [hs]: the start event, the backend, the terminal event. *)
Lemma generateUncached_observed llm prompts stop cbs w hs :
  let r := uuid_of (uuids w) in
  let p := callbacks_parent cbs in
  let start := LLMStart (_llmType llm) prompts r p in
  let w1 := log_deliveries (deliveries hs start) (next_uuid w) in
  run_handlers llm cbs = hs → hs ≠ [] →
  _generateUncached llm prompts stop cbs w =
    match emit_outcome hs start with
    | Throw e => (Throw e, w1)
    | Ok _ =>
        match _generate llm prompts stop (Some (mkRun r hs p))
                (log_call (mkBackendCall prompts stop (Some r)) w1) with
        | (Ok out, w2) =>
            (match emit_outcome hs (LLMEnd out r p) with
             | Ok _ => Ok (with_run out (Some r))
             | Throw e => Throw e
             end, log_deliveries (deliveries hs (LLMEnd out r p)) w2)
        | (Throw err, w2) =>
            (Throw (surfaced err (emit_outcome hs (LLMError err r p))),
             log_deliveries (deliveries hs (LLMError err r p)) w2)
        end
    end.
Proof.
  intros r p start w1 Hrun Hhs. unfold _generateUncached, bind at 1.
  rewrite configure_run. fold (run_handlers llm cbs). rewrite Hrun. cbv zeta.
  rewrite (nonempty_manager hs) by done.
  unfold bind at 1. simpl opt_call. unfold bind at 1, manager_handleLLMStart, bind at 1.
  rewrite uuidv4_run. unfold bind at 1. simpl. rewrite emit_run. fold r p start w1.
  destruct (emit_outcome hs start) as [[]|e]; [|done]. simpl.
  unfold bind at 1, try_catch, invoke_generate, bind at 1. simpl.
  destruct (_generate _ _ _ _ _) as [[out|err] w2]; simpl.
  - unfold bind at 1. simpl. unfold bind at 1, run_handleLLMEnd. rewrite emit_run. simpl.
    by destruct (emit_outcome hs (LLMEnd out r p)) as [[]|e].
  - unfold bind at 1. simpl. unfold bind at 1, run_handleLLMError. rewrite emit_run. simpl.
    by destruct (emit_outcome hs (LLMError err r p)) as [[]|e].
Qed.

(** What the uncached path returns is what some call of the backend on
    the same prompts returned, up to the run data. *)
Lemma generateUncached_backend llm prompts stop cbs w out w' :
  _generateUncached llm prompts stop cbs w = (Ok out, w') →
  ∃ rm w0 out0 w1, _generate llm prompts stop rm w0 = (Ok out0, w1) ∧
    generations out = generations out0 ∧ llmOutput out = llmOutput out0.
Proof.
  destruct (run_handlers llm cbs) as [|h hs] eqn:Hhs.
  - rewrite generateUncached_unobserved by done.
    destruct (_generate _ _ _ _ _) as [[out'|err] w2] eqn:Hg; intros [= <- <-].
    by eexists _, _, _, _.
  - rewrite (generateUncached_observed _ _ _ _ _ (h :: hs)) by done.
    destruct (emit_outcome _ _); [|done].
    destruct (_generate _ _ _ _ _) as [[out'|err] w2] eqn:Hg; [|done].
    destruct (emit_outcome _ _); intros [= <- <-]. by eexists _, _, _, _.
Qed.

(** With a backend that returns a row for each prompt, so does the
    uncached path. *)
Lemma generateUncached_rows llm `{!BackendRows llm} prompts stop cbs w out w' :
  _generateUncached llm prompts stop cbs w = (Ok out, w') →
  length (generations out) = length prompts.
Proof.
  intros (rm & w0 & out0 & w1 & Hg & -> & _)%generateUncached_backend.
  by eapply generate_rows.
Qed.

(** With a backend that answers each prompt on its own, so does the
    uncached path. *)
Lemma generateUncached_pointwise llm oracle `{!BackendPointwise llm oracle}
    prompts stop cbs w out w' :
  _generateUncached llm prompts stop cbs w = (Ok out, w') →
  generations out = oracle stop <$> prompts.
Proof.
  intros (rm & w0 & out0 & w1 & Hg & -> & _)%generateUncached_backend.
  by eapply generate_pointwise.
Qed.

(** ** What the call leaves of the world *)

(** The backend entered in the log: the world a backend that only reports
    tokens leaves. *)
Lemma invoke_frame llm `{!BackendFrame llm} prompts stop rm w :
  let w' := (_generate llm prompts stop rm
               (log_call (mkBackendCall prompts stop (rm_runId <$> rm)) w)).2 in
  caches w' = caches w ∧ uuids w' = uuids w ∧
  calls w' = calls w ++ [mkBackendCall prompts stop (rm_runId <$> rm)] ∧
  ∃ ds, trace w' = trace w ++ ds ∧ Forall (token_of rm) ds.
Proof.
  intros w'. destruct (generate_frame prompts stop rm
    (log_call (mkBackendCall prompts stop (rm_runId <$> rm)) w)) as (Hc & Hk & Hu & Ht).
  by split_and!.
Qed.

(** The uncached path never writes a cache, draws at most one identifier
    and calls the backend at most once, with the prompts it was given. *)
Lemma generateUncached_frame llm `{!BackendFrame llm} prompts stop cbs w :
  let w' := (_generateUncached llm prompts stop cbs w).2 in
  caches w' = caches w ∧ uuids w ≤ uuids w' ≤ S (uuids w) ∧
  (calls w' = calls w ∨ ∃ run, calls w' = calls w ++ [mkBackendCall prompts stop run]).
Proof.
  destruct (run_handlers llm cbs) as [|h hs] eqn:Hhs.
  - rewrite generateUncached_unobserved by done.
    destruct (invoke_frame llm prompts stop None w) as (Hc & Hu & Hk & _).
    simpl in *. destruct (_generate _ _ _ _ _) as [o w2]. simpl in *.
    split_and!; [done | lia | lia | eauto].
  - rewrite (generateUncached_observed _ _ _ _ _ (h :: hs)) by done.
    destruct (emit_outcome _ _); simpl; [|split_and!; auto; lia].
    match goal with |- context [_generate llm prompts stop ?rm (log_call _ ?w1)] =>
      destruct (invoke_frame llm prompts stop rm w1) as (Hc & Hu & Hk & _) end.
    simpl in *. destruct (_generate _ _ _ _ _) as [[out|err] w2]; simpl in *;
      (split_and!; [done | lia | lia | eauto]).
Qed.

(** A result means the backend was called, exactly once. *)
Lemma generateUncached_ok_calls llm `{!BackendFrame llm} prompts stop cbs w out w' :
  _generateUncached llm prompts stop cbs w = (Ok out, w') →
  ∃ run, calls w' = calls w ++ [mkBackendCall prompts stop run].
Proof.
  destruct (run_handlers llm cbs) as [|h hs] eqn:Hhs.
  - rewrite generateUncached_unobserved by done.
    destruct (invoke_frame llm prompts stop None w) as (_ & _ & Hk & _).
    simpl in *. destruct (_generate _ _ _ _ _) as [o w2]. intros [= _ <-]. eauto.
  - rewrite (generateUncached_observed _ _ _ _ _ (h :: hs)) by done.
    destruct (emit_outcome _ _); [|done].
    match goal with |- context [_generate llm prompts stop ?rm (log_call _ ?w1)] =>
      destruct (invoke_frame llm prompts stop rm w1) as (_ & _ & Hk & _) end.
    simpl in *. destruct (_generate _ _ _ _ _) as [[out'|err] w2]; [|done].
    intros [= _ <-]. simpl. eauto.
Qed.

Lemma run_handlers_NoDup llm cbs : NoDup (name <$> run_handlers llm cbs).
Proof. apply dedup_by_name_NoDup. Qed.

(** C25.  With no handler registered for the call or on the model, no event
    is emitted: the outcome is the backend's, the trace is extended by the
    backend alone (with nothing, when it keeps to its interface), no
    identifier is drawn and the result carries no run data. *)
Theorem generateUncached_no_handlers llm `{!BackendFrame llm} prompts stop cbs w :
  callbacks_handlers cbs = [] → default [] (own_handlers llm) = [] →
  let run := _generateUncached llm prompts stop cbs w in
  let back := _generate llm prompts stop None
                (log_call (mkBackendCall prompts stop None) w) in
  run.1 = outcome_map (λ out, with_run out None) back.1 ∧
  trace run.2 = trace w ∧ uuids run.2 = uuids w.
Proof.
  intros Hc Ho run back. subst run.
  rewrite generateUncached_unobserved by (unfold run_handlers; by rewrite Hc, Ho).
  destruct (invoke_frame llm prompts stop None w) as (_ & Hu & _ & ds & Ht & Hds).
  simpl in *. fold back in Hu, Ht |- *. destruct back as [o w']. simpl in *.
  split_and!; [done | | done].
  destruct ds as [|d ds]; [by rewrite app_nil_r in Ht|]. by apply Forall_cons in Hds as [[] _].
Qed.

(** C9.  When no hook of the handlers rejects, the caller sees the
    backend's outcome: its error as it was thrown, or its rows and
    metadata with the identifier of the run attached. *)
Theorem generateUncached_outcome llm prompts stop cbs w hs :
  run_handlers llm cbs = hs → hs ≠ [] → quiet hs →
  let r := uuid_of (uuids w) in
  let p := callbacks_parent cbs in
  let w1 := log_deliveries (deliveries hs (LLMStart (_llmType llm) prompts r p)) (next_uuid w) in
  (_generateUncached llm prompts stop cbs w).1 =
    outcome_map (λ out, with_run out (Some r))
      (_generate llm prompts stop (Some (mkRun r hs p))
         (log_call (mkBackendCall prompts stop (Some r)) w1)).1.
Proof.
  intros Hhs Hne Hq r p w1. rewrite (generateUncached_observed _ _ _ _ _ hs) by done.
  rewrite emit_outcome_quiet by done. fold r p w1.
  destruct (_generate _ _ _ _ _) as [[out|err] w2]; simpl;
    by rewrite emit_outcome_quiet by done.
Qed.

(** C27.  When a hook of the start event rejects, the call fails with that
    rejection before the backend is invoked: the log of calls is as
    before, and the only events delivered are those of the start, so that
    the run has no terminal event. *)
Theorem generateUncached_start_rejected llm prompts stop cbs w hs e :
  run_handlers llm cbs = hs → hs ≠ [] →
  let start := LLMStart (_llmType llm) prompts (uuid_of (uuids w)) (callbacks_parent cbs) in
  emit_outcome hs start = Throw e →
  let run := _generateUncached llm prompts stop cbs w in
  run.1 = Throw e ∧ calls run.2 = calls w ∧ trace run.2 = trace w ++ deliveries hs start.
Proof.
  intros Hhs Hne start He run. subst run.
  rewrite (generateUncached_observed _ _ _ _ _ hs) by done. fold start. by rewrite He.
Qed.

(** C26.  When the backend fails with [err] and a hook of the error event
    rejects with [e'], the caller sees [e'] and not [err]. *)
Theorem generateUncached_error_masked llm prompts stop cbs w hs err e' :
  run_handlers llm cbs = hs → hs ≠ [] →
  let r := uuid_of (uuids w) in
  let p := callbacks_parent cbs in
  let start := LLMStart (_llmType llm) prompts r p in
  emit_outcome hs start = Ok tt →
  (_generate llm prompts stop (Some (mkRun r hs p))
     (log_call (mkBackendCall prompts stop (Some r))
        (log_deliveries (deliveries hs start) (next_uuid w)))).1 = Throw err →
  emit_outcome hs (LLMError err r p) = Throw e' →
  (_generateUncached llm prompts stop cbs w).1 = Throw e'.
Proof.
  intros Hhs Hne r p start Hs Hb He.
  rewrite (generateUncached_observed _ _ _ _ _ hs) by done. fold r p start.
  rewrite Hs. destruct (_generate _ _ _ _ _) as [[out|err0] w2]; simpl in *; [done|].
  simplify_eq. by rewrite He.
Qed.
End uncached.

(** ** The theorems at concrete inputs *)

Lemma generateUncached_no_handlers_witness :
  let llm := echo_with (C:=InMemoryCache) CacheAbsent [] in
  let run := _generateUncached llm ["p"] None None mem0 in
  let back := _generate llm ["p"] None None (log_call (mkBackendCall ["p"] None None) mem0) in
  run.1 = outcome_map (λ out, with_run out None) back.1 ∧
  trace run.2 = trace mem0 ∧ uuids run.2 = uuids mem0.
Proof.
  apply (generateUncached_no_handlers (echo_with (C:=InMemoryCache) CacheAbsent [])
           ["p"] None None mem0); reflexivity.
Defined.

Lemma generateUncached_outcome_witness :
  (_generateUncached (failing_with (C:=InMemoryCache) CacheAbsent [observer "h1"])
     ["p"] None None mem0).1 = Throw "backend failed".
Proof.
  apply (generateUncached_outcome (failing_with (C:=InMemoryCache) CacheAbsent [observer "h1"])
           ["p"] None None mem0 [observer "h1"]).
  - reflexivity.
  - discriminate.
  - intros h e err ->%list_elem_of_singleton. by destruct e.
Defined.

Lemma generateUncached_start_rejected_witness :
  let llm := echo_with (C:=InMemoryCache) CacheAbsent
               [mkHandler "bad" false false false bad_start_hook ClassDerived] in
  let run := _generateUncached llm ["p"] None None mem0 in
  run.1 = Throw "sink failed" ∧ calls run.2 = calls mem0 ∧
  trace run.2 = trace mem0 ++
    [mkDelivery "bad" (LLMStart "echo" ["p"] (uuid_of 0) None)].
Proof.
  apply (generateUncached_start_rejected
           (echo_with (C:=InMemoryCache) CacheAbsent
              [mkHandler "bad" false false false bad_start_hook ClassDerived])
           ["p"] None None mem0
           [mkHandler "bad" false false false bad_start_hook ClassDerived]).
  - reflexivity.
  - discriminate.
  - reflexivity.
Defined.

Lemma generateUncached_error_masked_witness :
  (_generateUncached
     (failing_with (C:=InMemoryCache) CacheAbsent
        [mkHandler "bad" false false false bad_error_hook ClassDerived])
     ["p"] None None mem0).1 = Throw "sink failed".
Proof.
  apply (generateUncached_error_masked
           (failing_with (C:=InMemoryCache) CacheAbsent
              [mkHandler "bad" false false false bad_error_hook ClassDerived])
           ["p"] None None mem0
           [mkHandler "bad" false false false bad_error_hook ClassDerived]
           "backend failed"); reflexivity || discriminate.
Defined.
