(* ===== verification/Lifecycle.v ===== *)
(** * The life of a run

    The notifications of a run follow a state machine: a start event, then
    token events, then one terminal event (end or error), after which
    nothing.  [run_step] is the machine, [run_after] its executable form.
    The theorem: what [_generateUncached] delivers to a handler that
    listens to LLM events drives the machine from [Idle] to [Drained], or
    to [Active] when a hook of the start event rejected; every delivery
    carries the identifier drawn for the run. *)

From stdpp Require Import strings.
From S2P Require Import Prelude JsValue Schema Handler Cache Manager LLM Backend Scenario.
From S2P Require Import Uncached.

#[local] Set Warnings "-clear-no-such-hyp".

(** ** The machine *)

Inductive RunState : Type := Idle | Active | Drained.

#[export] Instance RunState_eq_dec : EqDecision RunState.
Proof. solve_decision. Defined.

Inductive run_step : RunState → Event → RunState → Prop :=
  | step_start e : event_phase e = PStart → run_step Idle e Active
  | step_progress e : event_phase e = PProgress → run_step Active e Active
  | step_terminal e : is_terminal e = true → run_step Active e Drained.

Inductive run_steps : RunState → list Event → RunState → Prop :=
  | steps_nil s : run_steps s [] s
  | steps_cons s e s1 es s2 :
      run_step s e s1 → run_steps s1 es s2 → run_steps s (e :: es) s2.

(** The machine as a function: the state after an event, if the event is
    allowed. *)
Definition run_next (s : RunState) (e : Event) : option RunState :=
  match s, event_phase e with
  | Idle, PStart => Some Active
  | Active, PProgress => Some Active
  | Active, (PEnd | PError) => Some Drained
  | _, _ => None
  end.

Fixpoint run_after (s : RunState) (es : list Event) : option RunState :=
  match es with
  | [] => Some s
  | e :: es' => run_next s e ≫= λ s1, run_after s1 es'
  end.

(** A handler that listens to the start and to both terminal events of an
    LLM run. *)
Definition llm_listener (h : BaseCallbackHandler) : Prop :=
  ignoreLLM h = false ∧ is_Some (handleLLMStart (methods h)) ∧
  is_Some (handleLLMError (methods h)) ∧ is_Some (handleLLMEnd (methods h)).

#[export] Instance llm_listener_dec h : Decision (llm_listener h).
Proof. unfold llm_listener. apply _. Defined.

Section machine.
Implicit Types (s : RunState) (e : Event) (es : list Event).

Lemma run_next_step s e s' : run_next s e = Some s' ↔ run_step s e s'.
Proof.
  split.
  - unfold run_next. destruct s, (event_phase e) eqn:He; intros [= <-];
      constructor; unfold is_terminal; by rewrite ?He.
  - intros [e' He|e' He|e' He]; unfold run_next, is_terminal in *;
      destruct (event_phase e'); done.
Qed.

Lemma run_after_steps s es s' : run_after s es = Some s' ↔ run_steps s es s'.
Proof.
  revert s. induction es as [|e es IH]; intros s; simpl.
  - split; [intros [= <-]; constructor | by inversion 1].
  - split.
    + destruct (run_next s e) as [s1|] eqn:He; [|done]. simpl.
      intros Hs. econstructor; [by apply run_next_step | by apply IH].
    + inversion 1 as [|? ? s1 ? ? Hstep Hsteps]; subst.
      apply run_next_step in Hstep as ->. simpl. by apply IH.
Qed.

Lemma run_steps_app s es1 s1 es2 s2 :
  run_steps s es1 s1 → run_steps s1 es2 s2 → run_steps s (es1 ++ es2) s2.
Proof. induction 1; simpl; [done | econstructor; eauto]. Qed.

Lemma run_steps_one s e s' : run_step s e s' → run_steps s [e] s'.
Proof. intros. econstructor; [done | constructor]. Qed.

(** The machine is deterministic: a list of events leads to one state. *)
Lemma run_steps_det s es s1 s2 : run_steps s es s1 → run_steps s es s2 → s1 = s2.
Proof. rewrite <-!run_after_steps. congruence. Qed.

(** Nothing is allowed after the terminal event. *)
Lemma run_steps_drained es s : run_steps Drained es s → es = [] ∧ s = Drained.
Proof. inversion 1 as [|? ? ? ? ? Hstep]; subst; [done | inversion Hstep]. Qed.

(** Tokens keep a run active. *)
Lemma run_steps_tokens rm nm (ds : list Delivery) :
  Forall (token_of rm) ds → run_steps Active (deliveries_to nm ds) Active.
Proof.
  induction 1 as [|d ds Hd _ IH]; [constructor|].
  unfold deliveries_to. rewrite filter_cons. case_decide; [|done]. csimpl.
  econstructor; [|exact IH]. apply step_progress.
  unfold token_of in Hd. destruct rm; [|done]. by destruct (event d).
Qed.

Lemma tokens_run rm (ds : list Delivery) :
  Forall (token_of (Some rm)) ds → Forall (λ d, event_run (event d) = rm_runId rm) ds.
Proof.
  intros H. eapply Forall_impl; [exact H|]. intros d Hd. unfold token_of in Hd.
  destruct (event d); try done. by destruct Hd.
Qed.

Lemma deliveries_run hs e : Forall (λ d, event_run (event d) = event_run e) (deliveries hs e).
Proof. apply Forall_forall. by intros d ->%deliveries_event. Qed.

Lemma llm_listener_listening h e :
  llm_listener h → event_group e = GroupLLM → event_phase e ≠ PProgress →
  is_Some (listening h e).
Proof.
  intros (Hi & Hs & Herr & Hend) Hg Hp. unfold listening, ignores. rewrite Hg, Hi.
  destruct e; try done; simpl; by apply fmap_is_Some.
Qed.
End machine.

Section lifecycle.
Context {C : Type} `{!CachePort C}.
Implicit Types (llm : BaseLLM C) (w : World C) (hs : list BaseCallbackHandler).

(** What one emission of a start or terminal event adds for a listener. *)
Lemma told_once hs h e :
  NoDup (name <$> hs) → h ∈ hs → llm_listener h →
  event_group e = GroupLLM → event_phase e ≠ PProgress →
  deliveries_to (name h) (deliveries hs e) = [e].
Proof.
  intros Hnd Hh Hl Hg Hp. rewrite deliveries_to_emit by done.
  by destruct (llm_listener_listening h e Hl Hg Hp) as [res ->].
Qed.

(** What a call with handlers [hs] appends to the trace: the deliveries of
    the start event and, when no hook of the start rejected, the tokens of
    the backend and the deliveries of one terminal event of the run. *)
Lemma generateUncached_deliveries llm `{!BackendFrame llm} prompts stop cbs w hs :
  run_handlers llm cbs = hs → hs ≠ [] →
  let r := uuid_of (uuids w) in
  let p := callbacks_parent cbs in
  let start := LLMStart (_llmType llm) prompts r p in
  let w' := (_generateUncached llm prompts stop cbs w).2 in
  uuids w' = S (uuids w) ∧
  ∃ tok fin,
    trace w' = trace w ++ deliveries hs start ++
      (if is_ok (emit_outcome hs start) then tok ++ deliveries hs fin else []) ∧
    Forall (token_of (Some (mkRun r hs p))) tok ∧
    is_terminal fin = true ∧ event_group fin = GroupLLM ∧ event_run fin = r ∧
    event_parent fin = p.
Proof.
  intros Hhs Hne r p start. rewrite (generateUncached_observed _ _ _ _ _ hs) by done.
  fold r p start. destruct (emit_outcome hs start) as [[]|e]; simpl.
  2:{ split; [done|]. exists [], (LLMError "" r p). by rewrite app_nil_r. }
  match goal with |- context [_generate llm prompts stop (Some ?rm) (log_call _ ?w1)] =>
    destruct (invoke_frame llm prompts stop (Some rm) w1) as (_ & Hu & _ & tok & Ht & Htok)
  end.
  simpl in *. destruct (_generate _ _ _ _ _) as [[out|err] w2]; simpl in *.
  - split; [done|]. exists tok, (LLMEnd out r p). by rewrite Ht, <-!(assoc_L (++)).
  - split; [done|]. exists tok, (LLMError err r p). by rewrite Ht, <-!(assoc_L (++)).
Qed.

(** An event of the LLM run [r] nested in [p]. *)
Definition correlated (r : string) (p : option string) (e : Event) : Prop :=
  event_run e = r ∧ event_parent e = p ∧ event_group e = GroupLLM.

Lemma deliveries_correlated hs e :
  Forall (λ d, correlated (event_run e) (event_parent e) (event d) ∨
               event_group e ≠ GroupLLM) (deliveries hs e).
Proof.
  apply Forall_forall. intros d ->%deliveries_event.
  destruct (decide (event_group e = GroupLLM)); [by left | by right].
Qed.

Lemma tokens_correlated rm (ds : list Delivery) :
  Forall (token_of (Some rm)) ds →
  Forall (λ d, correlated (rm_runId rm) (rm_parentRunId rm) (event d)) ds.
Proof.
  intros H. eapply Forall_impl; [exact H|]. intros d Hd. unfold token_of in Hd.
  destruct (event d); try done. by destruct Hd as [-> ->].
Qed.

(** Every delivery of a call is of an event of one LLM run: the run of the
    identifier the call drew, nested in the run the caller passed; and a
    call that delivers draws an identifier. *)
Lemma generateUncached_correlated llm `{!BackendFrame llm} prompts stop cbs w :
  let w' := (_generateUncached llm prompts stop cbs w).2 in
  ∃ ds, trace w' = trace w ++ ds ∧
        Forall (λ d, correlated (uuid_of (uuids w)) (callbacks_parent cbs) (event d)) ds ∧
        (ds = [] ∨ uuids w' = S (uuids w)).
Proof.
  destruct (run_handlers llm cbs) as [|h hs] eqn:Hhs.
  - rewrite generateUncached_unobserved by done.
    destruct (invoke_frame llm prompts stop None w) as (_ & _ & _ & ds & Ht & Hds).
    simpl in *. destruct (_generate _ _ _ _ _) as [o w2]. simpl in *.
    exists ds. split_and!; [done| |left]; by destruct Hds as [|d ds []].
  - destruct (generateUncached_deliveries llm prompts stop cbs w (h :: hs))
      as (Hu & tok & fin & Ht & Htok & _ & Hg & Hfin & Hpar); [done..|].
    eexists. split_and!; [exact Ht | | by right].
    assert (∀ e, event_group e = GroupLLM →
      Forall (λ d, correlated (event_run e) (event_parent e) (event d))
        (deliveries (h :: hs) e)) as Hdel.
    { intros e He. eapply Forall_impl; [apply deliveries_correlated|]. by intros d [?|?]. }
    rewrite Forall_app. split; [by apply (Hdel (LLMStart _ _ _ _))|].
    destruct (is_ok _); [|done]. rewrite Forall_app.
    split; [by apply tokens_correlated in Htok|].
    rewrite <-Hfin, <-Hpar. by apply Hdel.
Qed.

(** The deliveries of a call drive the machine of a listener from [Idle]
    to [Drained], or to [Active] when a hook of the start rejected. *)
Lemma call_steps hs h start tok fin rm (ok : bool) :
  NoDup (name <$> hs) → h ∈ hs → llm_listener h →
  event_group start = GroupLLM → event_phase start = PStart →
  Forall (token_of rm) tok →
  event_group fin = GroupLLM → is_terminal fin = true →
  run_steps Idle
    (deliveries_to (name h)
       (deliveries hs start ++ (if ok then tok ++ deliveries hs fin else [])))
    (if ok then Drained else Active).
Proof.
  intros Hnd Hh Hl Hgs Hps Htok Hgf Hf.
  rewrite deliveries_to_app, (told_once hs h start) by (done || by rewrite Hps).
  eapply run_steps_app; [by apply run_steps_one, step_start|].
  destruct ok; [|constructor]. rewrite deliveries_to_app, (told_once hs h fin);
    [|done..|by destruct fin].
  eapply run_steps_app; [by eapply run_steps_tokens|]. by apply run_steps_one, step_terminal.
Qed.

(** C8.  For a handler of the run that listens to LLM events, the events
    [_generateUncached] delivers to it are a start, then tokens, then
    exactly one terminal event, [end] or [error]: the machine goes from
    [Idle] to [Drained].  When a hook of the start event rejects, the run
    stops at [Active], with no terminal event.  Every delivery of the call
    carries the identifier drawn for the run, and no other state is
    reached. *)
Theorem generateUncached_lifecycle llm `{!BackendFrame llm} prompts stop cbs w hs h :
  run_handlers llm cbs = hs → h ∈ hs → llm_listener h →
  let r := uuid_of (uuids w) in
  let start := LLMStart (_llmType llm) prompts r (callbacks_parent cbs) in
  ∃ ds, trace (_generateUncached llm prompts stop cbs w).2 = trace w ++ ds ∧
        Forall (λ d, event_run (event d) = r) ds ∧
        run_steps Idle (deliveries_to (name h) ds)
          (if is_ok (emit_outcome hs start) then Drained else Active).
Proof.
  intros Hhs Hh Hl r start.
  assert (hs ≠ []) as Hne by (intros ->; by apply elem_of_nil in Hh).
  assert (NoDup (name <$> hs)) as Hnd by (rewrite <-Hhs; apply run_handlers_NoDup).
  destruct (generateUncached_deliveries llm prompts stop cbs w hs Hhs Hne)
    as (_ & tok & fin & Ht & Htok & Hfin & Hg & Hr & _).
  fold r start in Ht, Htok, Hr. eexists. split_and!; [exact Ht | |].
  - rewrite Forall_app. split; [apply (deliveries_run hs start)|].
    destruct (is_ok _); [|done]. rewrite Forall_app. split; [by apply tokens_run in Htok|].
    rewrite <-Hr. apply deliveries_run.
  - by eapply call_steps.
Qed.
End lifecycle.

(** ** The theorem at a concrete input *)

Lemma generateUncached_lifecycle_witness :
  ∃ ds, trace (_generateUncached echo three_prompts None None mem0).2 = trace mem0 ++ ds ∧
        Forall (λ d, event_run (event d) = uuid_of 0) ds ∧
        run_steps Idle (deliveries_to "h1" ds) Drained.
Proof.
  apply (generateUncached_lifecycle echo (BackendFrame0:=echo_frame _ _) three_prompts
           None None mem0 [observer "h1"] (observer "h1")).
  - reflexivity.
  - by apply list_elem_of_singleton.
  - unfold llm_listener. simpl. by split_and!.
Defined.
