(* ===== verification/Dispatch.v ===== *)
(** * Dispatch of an event to the handlers

    What the coordinator promises the handlers: an event reaches exactly
    the registered handlers that do not ignore its group and have its hook,
    whether or not a hook rejects, and the emission changes nothing else of
    the world. *)

From stdpp Require Import strings.
From S2P Require Import Prelude JsValue Schema Handler Manager.

Section dispatch.
Context {C : Type}.
Implicit Types (w : World C) (hs : list BaseCallbackHandler)
  (h : BaseCallbackHandler) (e : Event) (d : Delivery).

Lemma elem_of_deliveries hs e d :
  d ∈ deliveries hs e ↔
  ∃ h, h ∈ hs ∧ d = mkDelivery (name h) e ∧ ignores h e = false ∧
       is_Some (hook_of (methods h) e).
Proof.
  unfold deliveries. rewrite list_elem_of_omap. unfold listening. split.
  - intros (h & Hh & Hd). exists h. destruct (ignores h e); [done|].
    destruct (hook_of (methods h) e) as [res|]; simplify_eq/=. eauto.
  - intros (h & Hh & -> & Hi & [res Hk]). exists h. by rewrite Hi, Hk.
Qed.

(** C36.  Dispatch.  An emission invokes exactly the hooks of the
    registered handlers that do not ignore the group of the event and have
    the hook of the event, whether or not one of them rejects: a handler
    with [ignoreLLM] is told no event of an LLM run, a handler without the
    hook is skipped.  The emission changes nothing else of the world. *)
Theorem emit_dispatch hs e w :
  let w' := (emit hs e w).2 in
  caches w' = caches w ∧ calls w' = calls w ∧ uuids w' = uuids w ∧
  ∃ ds, trace w' = trace w ++ ds ∧
    ∀ d, d ∈ ds ↔
      ∃ h, h ∈ hs ∧ d = mkDelivery (name h) e ∧ ignores h e = false ∧
           is_Some (hook_of (methods h) e).
Proof.
  rewrite emit_run. simpl. split_and!; [done..|].
  exists (deliveries hs e). split; [done|]. apply elem_of_deliveries.
Qed.
End dispatch.
