(* ===== verification/Lookup.v ===== *)
(** * The cached path, first half: the concurrent lookups

    What [lookup_all] returns: the cached rows in the order of the prompts,
    whatever the order in which the lookups settle; the indices of the
    misses, each once, in the order of settling; the first rejection when a
    lookup rejects.  The lookups leave the world as it is. *)

From stdpp Require Import strings sorting.
From S2P Require Import Prelude JsValue Schema Handler Cache Manager LLM.

#[local] Set Warnings "-clear-no-such-hyp".

Section lookup.
Context {C : Type} `{!CachePort C}.
Implicit Types (w : World C) (prompts : list string) (order missing : list nat)
  (found : list (option (list Generation))).

(** The outcomes of the lookups of [prompts] in the cache [c]. *)
Definition lookups (c : C) (key : string) prompts :
    list (outcome Error (option (list Generation))) :=
  (λ prompt, cache_lookup c (Some prompt) key) <$> prompts.

(** The index [i] is a miss of [found]. *)
Definition is_miss found (i : nat) : bool :=
  match found !! i with Some None => true | _ => false end.

Lemma is_miss_spec found i : is_miss found i ↔ found !! i = Some None.
Proof. unfold is_miss. destruct (found !! i) as [[g|]|]; naive_solver. Qed.

(** The misses of [found] in increasing order. *)
Definition misses found : list nat := filter (is_miss found) (seq 0 (length found)).

Lemma issue_all_lookup r key prompts i w :
  issue_all (λ _ prompt, lookup_one r key prompt) i prompts w =
    (lookups (cache_at w r) key prompts, w).
Proof.
  revert i. induction prompts as [|p prompts IH]; intros i; [done|].
  cbn [issue_all]. unfold lookup_one at 1, bind, gets, await. by rewrite IH.
Qed.

Lemma pushes_from order found (acc : list nat) :
  foldl (λ missingPromptIndices index,
           match found !! index with
           | Some None => missingPromptIndices ++ [index]
           | _ => missingPromptIndices
           end) acc order = acc ++ filter (is_miss found) order.
Proof.
  revert acc. induction order as [|i order IH]; intros acc; simpl; [by rewrite app_nil_r|].
  rewrite IH. pose proof (is_miss_spec found i) as Hm.
  destruct (found !! i) as [[g|]|] eqn:Hi.
  - by rewrite filter_cons_False by naive_solver.
  - rewrite filter_cons_True by naive_solver. by rewrite <-(assoc_L (++)).
  - by rewrite filter_cons_False by naive_solver.
Qed.

(** The pushes collect the misses, in the order of settling. *)
Lemma pushed_filter order found : pushed order found = filter (is_miss found) order.
Proof. apply (pushes_from order found []). Qed.

(** [lookup_all] on every branch: the world is unchanged; the first
    rejection in the order of settling is thrown; otherwise the rows are
    returned in the order of the prompts with the pushed misses. *)
Lemma lookup_all_run sch r key prompts w :
  let outs := lookups (cache_at w r) key prompts in
  let order := completion_order (lookup_latency sch) (length prompts) in
  lookup_all sch r key prompts w =
    match first_rejection order outs with
    | Some e => (Throw e, w)
    | None => (Ok (fulfilled outs, filter (is_miss (fulfilled outs)) order), w)
    end.
Proof.
  intros outs order. unfold lookup_all, bind, promise_all.
  rewrite issue_all_lookup. fold outs order.
  destruct (first_rejection order outs); [done|]. unfold ret. by rewrite pushed_filter.
Qed.

(** When every lookup is fulfilled. *)
Lemma lookups_ok c key prompts found :
  Forall2 (λ prompt o, cache_lookup c (Some prompt) key = Ok o) prompts found →
  lookups c key prompts = Ok <$> found.
Proof.
  unfold lookups. induction 1 as [|p o prompts found Hp _ IH]; csimpl; [done|].
  by rewrite Hp, IH.
Qed.

Lemma first_rejection_ok order found :
  first_rejection (E:=Error) order (Ok <$> found) = None.
Proof.
  apply first_rejection_None. intros i _. unfold rejection_at.
  rewrite list_lookup_fmap. by destruct (found !! i).
Qed.

Lemma fulfilled_ok found : fulfilled (E:=Error) (Ok <$> found) = found.
Proof. unfold fulfilled. induction found as [|o found IH]; csimpl; [done | by rewrite IH]. Qed.

Lemma lookup_all_ok sch r key prompts found w :
  Forall2 (λ prompt o, cache_lookup (cache_at w r) (Some prompt) key = Ok o) prompts found →
  lookup_all sch r key prompts w =
    (Ok (found, filter (is_miss found)
                  (completion_order (lookup_latency sch) (length prompts))), w).
Proof.
  intros Hf. rewrite lookup_all_run. cbv zeta. rewrite (lookups_ok _ _ _ _ Hf).
  by rewrite first_rejection_ok, fulfilled_ok.
Qed.

(** A rejected lookup: [lookup_all] throws the rejection of a lookup, and
    the world is as before. *)
Lemma lookup_all_throw sch r key prompts w e w' :
  lookup_all sch r key prompts w = (Throw e, w') →
  w' = w ∧ ∃ prompt, prompt ∈ prompts ∧ cache_lookup (cache_at w r) (Some prompt) key = Throw e.
Proof.
  rewrite lookup_all_run. cbv zeta.
  destruct (first_rejection _ _) as [e'|] eqn:Hrej; [|done].
  intros [= -> <-]. split; [done|].
  apply first_rejection_Some in Hrej as (i & _ & Hi). unfold lookups in Hi.
  rewrite list_lookup_fmap in Hi. destruct (prompts !! i) as [p|] eqn:Hp; [|done].
  exists p. split; [by eapply list_elem_of_lookup_2 | by simplify_eq/=].
Qed.

(** ** The indices of the misses *)

Lemma missing_perm lat found :
  filter (is_miss found) (completion_order lat (length found)) ≡ₚ misses found.
Proof. unfold misses. by rewrite completion_order_perm. Qed.

Lemma missing_NoDup lat n found :
  NoDup (filter (is_miss found) (completion_order lat n)).
Proof. apply NoDup_filter, completion_order_NoDup. Qed.

Lemma missing_elem_of lat found i :
  i ∈ filter (is_miss found) (completion_order lat (length found)) ↔
  found !! i = Some None.
Proof.
  rewrite list_elem_of_filter, completion_order_elem_of, is_miss_spec.
  split; [by intros [? _]|]. intros Hi. split; [done|]. by eapply lookup_lt_Some.
Qed.

(** Lookups that settle in the order of issue push the misses in the
    order of the prompts. *)
Lemma missing_in_order lat found :
  (∀ a b, a ≤ b → lat a ≤ lat b) →
  filter (is_miss found) (completion_order lat (length found)) = misses found.
Proof. intros Hlat. unfold misses. by rewrite completion_order_in_order. Qed.

Lemma misses_sorted found : StronglySorted lt (misses found).
Proof.
  unfold misses. apply StronglySorted_filter, seq_StronglySorted.
Qed.
End lookup.
