(* ===== verification/Update.v ===== *)
(** * The cached path, second half: the splice and the concurrent updates

    [splice_from] puts the rows of the backend's result at the indices of
    the misses and leaves the other rows alone; the updates write, for each
    row, the prompt of its index under the key, in the order of the rows.
    The effect on the cache is described by [apply_writes], a fold of the
    port's [cache_update] over the list of writes. *)

From stdpp Require Import strings gmap.
From S2P Require Import Prelude JsValue Schema Handler Cache Manager LLM.

#[local] Set Warnings "-clear-no-such-hyp".

(** ** The splice *)

Section splice.
Implicit Types (missing : list nat) (rows : list (list Generation))
  (gens : list (option (list Generation))).

(** The splice by simultaneous recursion on the misses and the rows: the
    reading of [splice_from] that the proofs use. *)
Fixpoint splice_zip missing rows gens : list (option (list Generation)) :=
  match missing, rows with
  | i :: missing', row :: rows' => splice_zip missing' rows' (<[i := Some row]> gens)
  | _, _ => gens
  end.

Lemma splice_zip_nil_r missing gens : splice_zip missing [] gens = gens.
Proof. by destruct missing. Qed.

Lemma splice_from_zip index missing rows gens :
  splice_from index missing rows gens = splice_zip (drop index missing) rows gens.
Proof.
  revert index gens. induction rows as [|row rows IH]; intros index gens; simpl.
  - by rewrite splice_zip_nil_r.
  - rewrite IH. destruct (missing !! index) as [i|] eqn:Hi; simpl.
    + by rewrite (drop_S _ _ _ Hi).
    + apply lookup_ge_None in Hi. by rewrite !drop_ge by lia.
Qed.

Lemma splice_zip_length missing rows gens :
  length (splice_zip missing rows gens) = length gens.
Proof.
  revert rows gens. induction missing as [|i missing IH]; intros [|row rows] gens;
    simpl; try done. by rewrite IH, length_insert.
Qed.

Lemma splice_zip_lookup_notin missing rows gens i :
  i ∉ missing → splice_zip missing rows gens !! i = gens !! i.
Proof.
  revert rows gens. induction missing as [|j missing IH]; intros [|row rows] gens Hi;
    simpl; try done.
  rewrite IH by set_solver. apply list_lookup_insert_ne. set_solver.
Qed.

Lemma splice_zip_lookup_in missing rows gens k i :
  NoDup missing → missing !! k = Some i → i < length gens →
  splice_zip missing rows gens !! i =
    match rows !! k with
    | Some row => Some (Some row)
    | None => gens !! i
    end.
Proof.
  revert rows gens k. induction missing as [|j missing IH]; intros rows gens k Hnd Hk Hi;
    [done|].
  apply NoDup_cons in Hnd as [Hj Hnd]. destruct rows as [|row rows].
  { by destruct k. }
  destruct k as [|k]; simpl in *.
  - simplify_eq. rewrite splice_zip_lookup_notin by done.
    by apply list_lookup_insert_eq.
  - rewrite (IH _ _ k) by (by rewrite ?length_insert).
    destruct (rows !! k); [done|]. apply list_lookup_insert_ne.
    intros ->. apply Hj. by eapply list_elem_of_lookup_2.
Qed.

(** The splice keeps the number of rows. *)
Lemma splice_from_length missing rows gens :
  length (splice_from 0 missing rows gens) = length gens.
Proof. by rewrite splice_from_zip, splice_zip_length. Qed.

(** A row whose index is not a miss is untouched. *)
Lemma splice_from_hit missing rows gens i :
  i ∉ missing → splice_from 0 missing rows gens !! i = gens !! i.
Proof. rewrite splice_from_zip, drop_0. apply splice_zip_lookup_notin. Qed.

(** The row at the [k]-th miss is the [k]-th row of the result, when the
    result has one. *)
Lemma splice_from_miss missing rows gens k i :
  NoDup missing → missing !! k = Some i → i < length gens →
  splice_from 0 missing rows gens !! i =
    match rows !! k with
    | Some row => Some (Some row)
    | None => gens !! i
    end.
Proof. rewrite splice_from_zip, drop_0. apply splice_zip_lookup_in. Qed.
End splice.

(** ** The updates *)

Section updates.
Context {C : Type} `{!CachePort C}.
Implicit Types (w : World C) (c : C) (prompts : list string) (missing : list nat)
  (rows : list (list Generation)) (kvs : list (option string * list Generation)).

(** The writes of the rows [index], [index + 1], ...: the prompt of each
    row's index, and the row. *)
Fixpoint writes prompts missing (index : nat) rows :
    list (option string * list Generation) :=
  match rows with
  | [] => []
  | row :: rows' =>
      (missing !! index ≫= (prompts !!.), row) :: writes prompts missing (S index) rows'
  end.

(** The writes applied to a cache, in order: how each settles, and the
    cache they leave. *)
Fixpoint apply_writes (key : string) kvs c : list (outcome Error unit) * C :=
  match kvs with
  | [] => ([], c)
  | (p, v) :: kvs' =>
      let '(o, c1) := cache_update c p key v in
      let '(os, c2) := apply_writes key kvs' c1 in
      (o :: os, c2)
  end.

(** [w'] is [w] with the cache [r] in the state [c'], and nothing else
    changed. *)
Definition cache_written (r : nat) c' : relation (World C) :=
  λ w w', trace w' = trace w ∧ calls w' = calls w ∧ uuids w' = uuids w ∧
          (∀ r', r' ≠ r → caches w' !! r' = caches w !! r') ∧ cache_at w' r = c'.

Lemma cache_written_refl r w : cache_written r (cache_at w r) w w.
Proof. by split_and!. Qed.

Lemma cache_written_trans r c1 c2 w w1 w2 :
  cache_written r c1 w w1 → cache_written r c2 w1 w2 → cache_written r c2 w w2.
Proof.
  intros (Ht & Hk & Hu & Ho & Hc) (Ht' & Hk' & Hu' & Ho' & Hc').
  split_and!; try congruence. intros r' Hr'. by rewrite Ho', Ho.
Qed.

Lemma cache_written_set r c' w : cache_written r c' w (set_caches <[r := c']> w).
Proof.
  split_and!; try done.
  - intros r' Hr'. simpl. by rewrite lookup_insert_ne.
  - unfold cache_at. simpl. by rewrite lookup_insert_eq.
Qed.

Lemma update_one_run r key prompts missing index row w :
  let res := cache_update (cache_at w r) (missing !! index ≫= (prompts !!.)) key row in
  update_one r key prompts missing index row w = (res.1, set_caches <[r := res.2]> w).
Proof. unfold update_one. by destruct (cache_update _ _ _ _). Qed.

(** The updates, issued in the order of the rows, act on the cache [r] as
    [apply_writes] says and on nothing else. *)
Lemma issue_all_update r key prompts missing index rows w :
  let res := issue_all (update_one r key prompts missing) index rows w in
  let ws := apply_writes key (writes prompts missing index rows) (cache_at w r) in
  res.1 = ws.1 ∧ cache_written r ws.2 w res.2.
Proof.
  revert index w. induction rows as [|row rows IH]; intros index w; simpl.
  - split; [done | apply cache_written_refl].
  - rewrite update_one_run.
    destruct (cache_update _ _ _ _) as [o c1] eqn:Hu. simpl.
    pose proof (cache_written_set r c1 w) as Hw1.
    specialize (IH (S index) (set_caches <[r := c1]> w)). simpl in IH.
    destruct (issue_all _ _ _ _) as [os w2].
    replace (cache_at (set_caches <[r := c1]> w) r) with c1 in IH
      by (symmetry; apply Hw1).
    destruct (apply_writes _ _ c1) as [os' c2]. simpl in *.
    destruct IH as [-> Hw2]. split; [done|]. by eapply cache_written_trans.
Qed.
End updates.
