(* ===== verification/Cached.v ===== *)
(** * The cached path: what [generate] returns and does

    With a cache, [generate] looks every prompt up, calls the backend on
    the misses only and merges.  The theorems: prompts that are all cached
    are answered from the cache alone, in the order of the prompts and
    without a call of the backend, an event or a write; otherwise the rows
    of the hits are returned untouched and the rows of the misses are those
    of the backend; the result has one row for each prompt; the backend is
    called once, on the prompts of the misses in the order in which their
    lookups settled, which is the order of the prompts when the lookups
    settle in the order of issue. *)

From stdpp Require Import strings gmap sorting.
From S2P Require Import Prelude JsValue Schema Handler Cache Manager LLM Backend.
From S2P Require Import Scenario Uncached Lookup Update.

#[local] Set Warnings "-clear-no-such-hyp".

Section cached.
Context {C : Type} `{!CachePort C}.
Implicit Types (llm : BaseLLM C) (w : World C) (prompts : list string)
  (missing : list nat) (found : list (option (list Generation))).

(** The lookups of [prompts] in the cache [r] of the world [w] settle with
    [found]. *)
Definition looked_up llm stop (r : nat) w prompts found : Prop :=
  Forall2 (λ prompt o, cache_lookup (cache_at w r) (Some prompt) (llmStringKey llm stop) = Ok o)
    prompts found.

(** The indices [generate] collects in [missingPromptIndices]. *)
Definition missing_of (sch : Schedule) found : list nat :=
  filter (is_miss found) (completion_order (lookup_latency sch) (length found)).

Lemma looked_up_length llm stop r w prompts found :
  looked_up llm stop r w prompts found → length found = length prompts.
Proof. intros H. symmetry. by eapply Forall2_length. Qed.

(** The lookups of a reliable cache all settle with a row or with none. *)
Lemma looked_up_exists `{!CacheReliable C} llm stop r w prompts :
  ∃ found, looked_up llm stop r w prompts found.
Proof. apply Forall2_exists, Forall_forall. intros q _. apply lookup_ok. Qed.

Lemma update_all_run sch r key prompts missing found rows w :
  let res := issue_all (update_one r key prompts missing) 0 rows w in
  update_all sch r key prompts missing found rows w =
    (match first_rejection (completion_order (update_latency sch) (length rows)) res.1 with
     | Some e => Throw e
     | None => Ok (splice_from 0 missing rows found)
     end, res.2).
Proof.
  intros res. unfold update_all, bind, promise_all. fold res.
  destruct res as [os w']. simpl. by destruct (first_rejection _ _).
Qed.

(** The updates write to the cache [r] and to nothing else. *)
Lemma update_all_frame sch r key prompts missing found rows w :
  let w' := (update_all sch r key prompts missing found rows w).2 in
  trace w' = trace w ∧ calls w' = calls w ∧ uuids w' = uuids w ∧
  ∀ r', r' ≠ r → caches w' !! r' = caches w !! r'.
Proof.
  rewrite update_all_run. simpl.
  destruct (issue_all_update r key prompts missing 0 rows w) as [_ (Ht & Hk & Hu & Ho & _)].
  by split_and!.
Qed.

(** [generate] after the lookups. *)
Lemma generate_cached_run llm sch prompts stop cbs w r found :
  cache llm = Some r → looked_up llm stop r w prompts found →
  generate llm sch (PromptsArray prompts) stop cbs w =
    match missing_of sch found with
    | [] => (Ok (mkLLMResult found (Some []) None), w)
    | _ :: _ =>
        (results <- _generateUncached llm
                      (missing_prompts prompts (missing_of sch found)) stop cbs ;;
         gens' <- update_all sch r (llmStringKey llm stop) prompts (missing_of sch found)
                    found (generations results) ;;
         ret (mkLLMResult gens' (Some (nullish (llmOutput results) [])) None)) w
    end.
Proof.
  intros Hc Hf. unfold generate. rewrite Hc. unfold bind at 1.
  rewrite (lookup_all_ok _ _ _ _ found) by done.
  unfold missing_of. rewrite (looked_up_length _ _ _ _ _ _ Hf).
  by destruct (filter _ _).
Qed.

(** What a result of the cached path is made of. *)
Lemma generate_cached_inv llm sch prompts stop cbs w r found res w' :
  cache llm = Some r → looked_up llm stop r w prompts found →
  generate llm sch (PromptsArray prompts) stop cbs w = (Ok res, w') →
  (missing_of sch found = [] ∧ res = mkLLMResult found (Some []) None ∧ w' = w) ∨
  (missing_of sch found ≠ [] ∧ ∃ results w1,
     _generateUncached llm (missing_prompts prompts (missing_of sch found)) stop cbs w =
       (Ok results, w1) ∧
     update_all sch r (llmStringKey llm stop) prompts (missing_of sch found) found
       (generations results) w1 =
       (Ok (splice_from 0 (missing_of sch found) (generations results) found), w') ∧
     res = mkLLMResult (splice_from 0 (missing_of sch found) (generations results) found)
             (Some (nullish (llmOutput results) [])) None).
Proof.
  intros Hc Hf. rewrite (generate_cached_run _ _ _ _ _ _ r found) by done.
  destruct (missing_of sch found) as [|i missing] eqn:Hm.
  - intros [= <- <-]. by left.
  - intros (results & w1 & Hu & (gens' & w2 & Hup & [= <- <-])%bind_ok_inv)%bind_ok_inv.
    right. split; [done|]. exists results, w1. split; [done|].
    rewrite update_all_run in Hup |- *. destruct (first_rejection _ _); [done|].
    by simplify_eq.
Qed.

Lemma missing_of_elem_of sch found i :
  i ∈ missing_of sch found ↔ found !! i = Some None.
Proof. apply missing_elem_of. Qed.

Lemma missing_of_lookup sch found k i :
  missing_of sch found !! k = Some i → found !! i = Some None ∧ i < length found.
Proof.
  intros Hk%list_elem_of_lookup_2%missing_of_elem_of.
  split; [done | by eapply lookup_lt_Some].
Qed.

Lemma hits_no_miss sch (rows : list (list Generation)) :
  missing_of sch (Some <$> rows) = [].
Proof.
  apply filter_none, Forall_forall. intros i _ Hi%is_miss_spec.
  rewrite list_lookup_fmap in Hi. by destruct (rows !! i).
Qed.

(** C1.  When every prompt is in the cache under the key of the call,
    [generate] returns the cached rows in the order of the prompts, with
    an empty [llmOutput], whatever the order in which the lookups settle;
    and the world is as before: the backend is not called, no handler is
    notified, nothing is written. *)
Theorem generate_all_hits llm sch prompts stop cbs w r rows :
  cache llm = Some r → looked_up llm stop r w prompts (Some <$> rows) →
  generate llm sch (PromptsArray prompts) stop cbs w =
    (Ok (mkLLMResult (Some <$> rows) (Some []) None), w).
Proof.
  intros Hc Hf. rewrite (generate_cached_run _ _ _ _ _ _ r (Some <$> rows)) by done.
  by rewrite hits_no_miss.
Qed.

(** C3.  The row of a prompt that was found in the cache is returned as
    it was found, whatever the backend returns for the other prompts. *)
Theorem generate_hits_untouched llm sch prompts stop cbs w r found res w' i g :
  cache llm = Some r → looked_up llm stop r w prompts found →
  generate llm sch (PromptsArray prompts) stop cbs w = (Ok res, w') →
  found !! i = Some (Some g) →
  generations res !! i = Some (Some g).
Proof.
  intros Hc Hf Hgen Hi.
  destruct (generate_cached_inv _ _ _ _ _ _ _ _ _ _ Hc Hf Hgen)
    as [(_ & -> & _)|(_ & results & w1 & _ & _ & ->)]; simpl; [done|].
  rewrite splice_from_hit; [done|]. rewrite missing_of_elem_of. congruence.
Qed.

(** C2.  The row of the [k]-th index collected as a miss is the [k]-th row
    of what the uncached path returned for the prompts of the misses
    ([null] when the backend returned fewer rows). *)
Theorem generate_misses_filled llm sch prompts stop cbs w r found res w' k i :
  cache llm = Some r → looked_up llm stop r w prompts found →
  generate llm sch (PromptsArray prompts) stop cbs w = (Ok res, w') →
  missing_of sch found !! k = Some i →
  ∃ results w1,
    _generateUncached llm (missing_prompts prompts (missing_of sch found)) stop cbs w =
      (Ok results, w1) ∧
    generations res !! i = Some (generations results !! k).
Proof.
  intros Hc Hf Hgen Hk.
  destruct (generate_cached_inv _ _ _ _ _ _ _ _ _ _ Hc Hf Hgen)
    as [(Hnil & _)|(_ & results & w1 & Hu & _ & ->)].
  { by rewrite Hnil in Hk. }
  exists results, w1. split; [done|]. simpl.
  destruct (missing_of_lookup _ _ _ _ Hk) as [Hi Hlt].
  rewrite (splice_from_miss _ _ _ k) by (done || apply missing_NoDup).
  rewrite Hi. by destruct (generations results !! k).
Qed.

(** C20.  On the cached path the result has one row for each prompt,
    whatever the backend returns. *)
Theorem generate_cached_length llm sch prompts stop cbs w r found res w' :
  cache llm = Some r → looked_up llm stop r w prompts found →
  generate llm sch (PromptsArray prompts) stop cbs w = (Ok res, w') →
  length (generations res) = length prompts.
Proof.
  intros Hc Hf Hgen. rewrite <-(looked_up_length _ _ _ _ _ _ Hf).
  destruct (generate_cached_inv _ _ _ _ _ _ _ _ _ _ Hc Hf Hgen)
    as [(_ & -> & _)|(_ & results & w1 & _ & _ & ->)]; simpl; [done|].
  apply splice_from_length.
Qed.

(** C4.  When a prompt is missing from the cache and [generate] returns,
    the backend was called exactly once, on the prompts at the indices
    collected as misses, in the order they were collected. *)
Theorem generate_backend_call llm `{!BackendFrame llm} sch prompts stop cbs w r found res w' :
  cache llm = Some r → looked_up llm stop r w prompts found →
  generate llm sch (PromptsArray prompts) stop cbs w = (Ok res, w') →
  missing_of sch found ≠ [] →
  ∃ run, calls w' =
    calls w ++ [mkBackendCall (missing_prompts prompts (missing_of sch found)) stop run].
Proof.
  intros Hc Hf Hgen Hm.
  destruct (generate_cached_inv _ _ _ _ _ _ _ _ _ _ Hc Hf Hgen)
    as [(Hnil & _)|(_ & results & w1 & Hu & Hup & _)]; [done|].
  destruct (generateUncached_ok_calls _ _ _ _ _ _ _ Hu) as [run Hk]. exists run.
  pose proof (update_all_frame sch r (llmStringKey llm stop) prompts
                (missing_of sch found) found (generations results) w1) as (_ & Hk' & _).
  rewrite Hup in Hk'. simpl in Hk'. congruence.
Qed.

(** C24.  Lookups that settle in the order of issue (latencies that do not
    decrease with the index, as with a cache that answers at once) collect
    the misses in the order of the prompts. *)
Theorem lookup_all_in_order llm sch prompts stop w r found :
  (∀ a b, a ≤ b → lookup_latency sch a ≤ lookup_latency sch b) →
  looked_up llm stop r w prompts found →
  lookup_all sch r (llmStringKey llm stop) prompts w = (Ok (found, misses found), w) ∧
  StronglySorted lt (misses found).
Proof.
  intros Hlat Hf. split; [|apply misses_sorted].
  rewrite (lookup_all_ok _ _ _ _ found) by done.
  by rewrite <-(looked_up_length _ _ _ _ _ _ Hf), missing_in_order.
Qed.

(** C17.  Whatever the order in which the lookups settle, the rows come
    back in the order of the prompts and the collected indices are the
    misses, each once. *)
Theorem lookup_all_any_order llm sch prompts stop w r found :
  looked_up llm stop r w prompts found →
  ∃ missing,
    lookup_all sch r (llmStringKey llm stop) prompts w = (Ok (found, missing), w) ∧
    missing ≡ₚ misses found ∧ NoDup missing.
Proof.
  intros Hf. eexists. split; [by apply lookup_all_ok|].
  rewrite <-(looked_up_length _ _ _ _ _ _ Hf). split; [apply missing_perm|].
  apply missing_NoDup.
Qed.

(** The prompts handed to the backend are the prompts at the collected
    indices. *)
Lemma missing_prompts_lookup sch prompts found k i :
  length found = length prompts →
  missing_of sch found !! k = Some i →
  ∃ prompt, prompts !! i = Some prompt ∧
            missing_prompts prompts (missing_of sch found) !! k = Some prompt.
Proof.
  intros Hlen Hk. destruct (missing_of_lookup _ _ _ _ Hk) as [_ Hlt].
  destruct (lookup_lt_is_Some_2 prompts i) as [prompt Hp]; [lia|].
  exists prompt. split; [done|]. unfold missing_prompts.
  by rewrite list_lookup_fmap, Hk; simpl; rewrite Hp.
Qed.

(** C18.  Without a cache [generate] is the uncached path: its outcome is
    that of [_generateUncached] on all the prompts, the rows as the backend
    returned them, and no cache is read or written. *)
Theorem generate_no_cache llm `{!BackendFrame llm} sch prompts stop cbs w :
  cache llm = None →
  let res := _generateUncached llm prompts stop cbs w in
  generate llm sch (PromptsArray prompts) stop cbs w = (outcome_map raw_of res.1, res.2) ∧
  caches res.2 = caches w.
Proof.
  intros Hc res. split.
  - unfold generate. rewrite Hc. unfold bind. fold res. by destruct res as [[out|e] w'].
  - apply (generateUncached_frame llm prompts stop cbs w).
Qed.

(** A [prompts] argument that is not an array is refused before
    anything is done: the error of the source, and the world as before. *)
Theorem generate_invalid_argument llm sch v stop cbs w :
  generate llm sch (PromptsOther v) stop cbs w =
    (Throw "Argument 'prompts' is expected to be a string[]", w).
Proof. done. Qed.

(** C19.  When a lookup rejects, [generate] rejects with the rejection of
    a lookup and the world is as before: the backend is not called and
    nothing is written. *)
Theorem generate_lookup_failure llm sch prompts stop cbs w r prompt e0 :
  cache llm = Some r → prompt ∈ prompts →
  cache_lookup (cache_at w r) (Some prompt) (llmStringKey llm stop) = Throw e0 →
  ∃ e prompt',
    generate llm sch (PromptsArray prompts) stop cbs w = (Throw e, w) ∧
    prompt' ∈ prompts ∧
    cache_lookup (cache_at w r) (Some prompt') (llmStringKey llm stop) = Throw e.
Proof.
  intros Hc [i Hi]%list_elem_of_lookup_1 Hthrow.
  unfold generate. rewrite Hc. unfold bind.
  destruct (lookup_all sch r (llmStringKey llm stop) prompts w) as [[res|e] w1] eqn:Hl.
  - exfalso. rewrite lookup_all_run in Hl. cbv zeta in Hl.
    destruct (first_rejection _ _) eqn:Hrej; [done|].
    pose proof (proj1 (first_rejection_None _ _) Hrej i) as Hnone.
    rewrite completion_order_elem_of in Hnone.
    specialize (Hnone (lookup_lt_Some _ _ _ Hi)). unfold rejection_at, lookups in Hnone.
    by rewrite list_lookup_fmap, Hi in Hnone; simpl in Hnone; rewrite Hthrow in Hnone.
  - apply lookup_all_throw in Hl as (-> & prompt' & Hin & Hp). eauto.
Qed.

End cached.

(** ** The theorems at concrete inputs *)

Lemma generate_all_hits_witness :
  generate echo reversed (PromptsArray ["p2"]) None None world1 =
    (Ok (mkLLMResult [Some cached_row] (Some []) None), world1).
Proof.
  apply (generate_all_hits echo reversed ["p2"] None None world1 0 [cached_row]).
  - reflexivity.
  - repeat constructor.
Defined.

Lemma generate_hits_untouched_witness :
  generations (result_of (generate echo reversed (PromptsArray three_prompts) None None world1))
    !! 1 = Some (Some cached_row).
Proof.
  apply (generate_hits_untouched echo reversed three_prompts None None world1 0 found1
           _ (generate echo reversed (PromptsArray three_prompts) None None world1).2).
  - reflexivity.
  - repeat constructor.
  - vm_compute. reflexivity.
  - reflexivity.
Defined.

Lemma generate_misses_filled_witness :
  ∃ results w1,
    _generateUncached echo (missing_prompts three_prompts (missing_of reversed found1))
      None None world1 = (Ok results, w1) ∧
    generations (result_of (generate echo reversed (PromptsArray three_prompts) None None world1))
      !! 2 = Some (generations results !! 0).
Proof.
  apply (generate_misses_filled echo reversed three_prompts None None world1 0 found1
           _ (generate echo reversed (PromptsArray three_prompts) None None world1).2 0 2).
  - reflexivity.
  - repeat constructor.
  - vm_compute. reflexivity.
  - vm_compute. reflexivity.
Defined.

Lemma generate_cached_length_witness :
  length (generations (result_of
    (generate (short_with (CacheFlag true)) immediate (PromptsArray three_prompts)
       None None (world0 (C:=InMemoryCache))))) = length three_prompts.
Proof.
  apply (generate_cached_length (short_with (CacheFlag true)) immediate three_prompts
           None None world0 0 [None; None; None]
           _ (generate (short_with (CacheFlag true)) immediate (PromptsArray three_prompts)
                None None world0).2).
  - reflexivity.
  - repeat constructor.
  - vm_compute. reflexivity.
Defined.

Lemma generate_backend_call_witness :
  ∃ run, calls (generate echo immediate (PromptsArray three_prompts) None None world1).2 =
    calls world1 ++ [mkBackendCall ["p1"; "p3"] None run].
Proof.
  apply (generate_backend_call echo (BackendFrame0:=echo_frame _ _) immediate three_prompts
           None None world1 0 found1
           (result_of (generate echo immediate (PromptsArray three_prompts) None None world1))).
  - reflexivity.
  - repeat constructor.
  - vm_compute. reflexivity.
  - vm_compute. discriminate.
Defined.

Lemma lookup_all_in_order_witness :
  lookup_all immediate 0 (llmStringKey echo None) three_prompts world1 =
    (Ok (found1, misses found1), world1) ∧
  StronglySorted lt (misses found1).
Proof.
  apply (lookup_all_in_order echo immediate three_prompts None world1 0 found1).
  - intros a b _. simpl. lia.
  - repeat constructor.
Defined.

Lemma lookup_all_any_order_witness :
  ∃ missing,
    lookup_all reversed 0 (llmStringKey echo None) three_prompts world1 =
      (Ok (found1, missing), world1) ∧
    missing ≡ₚ misses found1 ∧ NoDup missing.
Proof.
  apply (lookup_all_any_order echo reversed three_prompts None world1 0 found1).
  repeat constructor.
Defined.

Lemma generate_no_cache_witness :
  let res := _generateUncached plain_echo three_prompts None None world0 in
  generate plain_echo immediate (PromptsArray three_prompts) None None world0 =
    (outcome_map raw_of res.1, res.2) ∧
  caches res.2 = caches world0.
Proof.
  apply (generate_no_cache plain_echo (BackendFrame0:=echo_frame _ _) immediate
           three_prompts None None world0).
  reflexivity.
Defined.

Lemma generate_lookup_failure_witness :
  ∃ e prompt',
    generate faulty_echo immediate (PromptsArray three_prompts) None None faulty_world =
      (Throw e, faulty_world) ∧
    prompt' ∈ three_prompts ∧
    cache_lookup (cache_at faulty_world 1) (Some prompt') (llmStringKey faulty_echo None) =
      Throw e.
Proof.
  apply (generate_lookup_failure faulty_echo immediate three_prompts None None faulty_world
           1 "p2" "cache lookup failed").
  - reflexivity.
  - unfold three_prompts. set_solver.
  - vm_compute. reflexivity.
Defined.
