(* ===== verification/Memo.v ===== *)
(** * What [generate] writes, and memoization

    Against the contract of the cache ([CacheLaws]): [generate] writes
    only under the key of the call and only for prompts it collected as
    misses, so that the entries of the hits and of other calls are as
    before; and after a call that returned, with a backend that returns a
    row for each prompt, every prompt of the batch is cached, so that the
    same call again is answered from the cache without the backend. *)

From stdpp Require Import strings gmap sorting.
From S2P Require Import Prelude JsValue Schema Handler Cache Manager LLM Backend.
From S2P Require Import Scenario Uncached Lookup Update Cached.

#[local] Set Warnings "-clear-no-such-hyp".

Section writes.
Context {C : Type} `{!CachePort C} `{!CacheLaws C}.
Implicit Types (c : C) (prompts : list string) (missing : list nat)
  (rows : list (list Generation)) (kvs : list (option string * list Generation))
  (p : option string).

Lemma writes_lookup prompts missing index rows j row :
  rows !! j = Some row →
  writes prompts missing index rows !! j =
    Some (missing !! (index + j) ≫= (prompts !!.), row).
Proof.
  revert index j. induction rows as [|row' rows IH]; intros index [|j] Hj; simplify_eq/=.
  - by rewrite Nat.add_0_r.
  - rewrite (IH (S index) j) by done. by rewrite Nat.add_succ_r.
Qed.

Lemma writes_length prompts missing index rows :
  length (writes prompts missing index rows) = length rows.
Proof. revert index. induction rows; intros; simpl; auto. Qed.

(** Distinct prompts at distinct collected indices are written under
    distinct keys. *)
Lemma writes_NoDup prompts missing rows :
  NoDup prompts → NoDup missing → (∀ i, i ∈ missing → i < length prompts) →
  length rows ≤ length missing →
  NoDup (writes prompts missing 0 rows).*1.
Proof.
  intros Hp Hm Hin Hlen. apply NoDup_alt. intros j1 j2 p.
  rewrite !list_lookup_fmap. intros H1 H2.
  destruct (writes _ _ _ _ !! j1) as [kv1|] eqn:E1; [|done].
  destruct (writes _ _ _ _ !! j2) as [kv2|] eqn:E2; [|done].
  pose proof (lookup_lt_Some _ _ _ E1) as L1. pose proof (lookup_lt_Some _ _ _ E2) as L2.
  rewrite writes_length in L1, L2.
  destruct (lookup_lt_is_Some_2 rows j1 L1) as [r1 R1].
  destruct (lookup_lt_is_Some_2 rows j2 L2) as [r2 R2].
  rewrite (writes_lookup _ _ 0 _ _ _ R1) in E1. rewrite (writes_lookup _ _ 0 _ _ _ R2) in E2.
  destruct (lookup_lt_is_Some_2 missing j1) as [i1 M1]; [lia|].
  destruct (lookup_lt_is_Some_2 missing j2) as [i2 M2]; [lia|].
  simpl in E1, E2. rewrite M1 in E1. rewrite M2 in E2. simplify_eq/=.
  destruct (lookup_lt_is_Some_2 prompts i1) as [q1 Q1];
    [by eapply Hin, list_elem_of_lookup_2|].
  rewrite Q1 in H1. symmetry in H1.
  assert (i2 = i1) as -> by (by apply (NoDup_lookup prompts i2 i1 q1)).
  by apply (NoDup_lookup missing j1 j2 i1).
Qed.

(** Under keys that are distinct, the row written for a key is the one. *)
Lemma NoDup_fst_lookup {A B} (l : list (A * B)) (k : nat) (a : A) (b b' : B) :
  NoDup l.*1 → (a, b) ∈ l → l !! k = Some (a, b') → b = b'.
Proof.
  intros Hnd [k' Hk']%list_elem_of_lookup_1 Hk.
  assert (k' = k) as ->; [|congruence].
  eapply NoDup_lookup; [exact Hnd| |]; rewrite list_lookup_fmap.
  - by rewrite Hk'.
  - by rewrite Hk.
Qed.

(** Every write is for the prompt of a collected index (or for
    [undefined], when the backend returned more rows than prompts). *)
Lemma writes_keys prompts missing index rows kv :
  kv ∈ writes prompts missing index rows →
  kv.1 = None ∨ ∃ i, i ∈ missing ∧ kv.1 = prompts !! i.
Proof.
  revert index. induction rows as [|row rows IH]; intros index; simpl;
    [by intros ?%elem_of_nil|].
  intros [->|Hin]%elem_of_cons; [|by eapply IH]. simpl.
  destruct (missing !! index) as [i|] eqn:Hi; simpl; [|by left].
  right. exists i. split; [by eapply list_elem_of_lookup_2 | done].
Qed.

(** Writes leave alone the keys they are not for. *)
Lemma apply_writes_other key kvs c p key' :
  key' ≠ key ∨ (∀ kv, kv ∈ kvs → kv.1 ≠ p) →
  cache_lookup (apply_writes key kvs c).2 p key' = cache_lookup c p key'.
Proof.
  revert c. induction kvs as [|[p0 v0] kvs IH]; intros c Hne; simpl; [done|].
  destruct (cache_update c p0 key v0) as [o c1] eqn:Hu.
  specialize (IH c1). destruct (apply_writes key kvs c1) as [os c2]. simpl in *.
  rewrite IH.
  - eapply lookup_update_ne; [done|]. destruct Hne as [?|Hne]; [congruence|].
    intros [= -> _]. by apply (Hne (p, v0)); [left|].
  - destruct Hne as [?|Hne]; [by left | right]. intros kv Hkv. apply Hne. by right.
Qed.

(** After writes that were all fulfilled, a key that was written holds a
    row that was written for it. *)
Lemma apply_writes_written key kvs c p :
  Forall is_ok (apply_writes key kvs c).1 → p ∈ kvs.*1 →
  ∃ v, (p, v) ∈ kvs ∧ cache_lookup (apply_writes key kvs c).2 p key = Ok (Some v).
Proof.
  revert c. induction kvs as [|[p0 v0] kvs IH]; intros c; simpl;
    [by intros _ ?%elem_of_nil|].
  destruct (cache_update c p0 key v0) as [o c1] eqn:Hu.
  specialize (IH c1).
  pose proof (apply_writes_other key kvs c1 p key) as Hother.
  destruct (apply_writes key kvs c1) as [os c2]. simpl in *.
  intros [Ho Hos]%Forall_cons Hp.
  destruct (decide (p ∈ kvs.*1)) as [Hin|Hnin].
  - destruct (IH Hos Hin) as (v & Hv & Hl). exists v. split; [by right | done].
  - apply elem_of_cons in Hp as [->|?]; [|done]. exists v0. split; [by left|].
    rewrite Hother.
    + destruct o as [[]|e]; [|done]. by eapply lookup_update_eq.
    + right. intros kv Hkv Heq. apply Hnin, list_elem_of_fmap. eauto.
Qed.
End writes.

Section memo.
Context {C : Type} `{!CachePort C} `{!CacheLaws C}.
Implicit Types (llm : BaseLLM C) (w : World C) (prompts : list string)
  (found : list (option (list Generation))).

Lemma cache_at_caches w w' r : caches w' = caches w → cache_at w' r = cache_at w r.
Proof. unfold cache_at. by intros ->. Qed.

(** Updates that [Promise.all] reported fulfilled were all fulfilled, and
    they left the cache as [apply_writes] says. *)
Lemma update_all_ok_inv sch r key prompts missing found rows w gens w' :
  update_all sch r key prompts missing found rows w = (Ok gens, w') →
  let ws := apply_writes key (writes prompts missing 0 rows) (cache_at w r) in
  Forall is_ok ws.1 ∧ cache_written r ws.2 w w'.
Proof.
  rewrite update_all_run. cbv zeta.
  pose proof (issue_all_length (update_one r key prompts missing) 0 rows w) as Hlen.
  destruct (issue_all_update r key prompts missing 0 rows w) as [Hos Hw].
  simpl in Hos, Hw. rewrite <-Hos. rewrite <-Hlen.
  destruct (first_rejection _ _) eqn:Hfr; [done|]. intros [= _ <-].
  split; [by eapply first_rejection_None_all_ok | done].
Qed.

(** What a call of [generate] on the cached path leaves of the caches:
    the cache of the model after some writes under the key of the call for
    the collected indices, the other cache objects as they were. *)
Lemma generate_cached_writes llm `{!BackendFrame llm} sch prompts stop cbs w r found :
  cache llm = Some r → looked_up llm stop r w prompts found →
  let w' := (generate llm sch (PromptsArray prompts) stop cbs w).2 in
  (∃ rows, cache_at w' r =
     (apply_writes (llmStringKey llm stop)
        (writes prompts (missing_of sch found) 0 rows) (cache_at w r)).2) ∧
  ∀ r', r' ≠ r → caches w' !! r' = caches w !! r'.
Proof.
  intros Hc Hf. rewrite (generate_cached_run _ _ _ _ _ _ r found) by done.
  destruct (missing_of sch found) as [|i0 missing] eqn:Hm; [split; [by exists []|done]|].
  unfold bind at 1.
  pose proof (generateUncached_frame llm (missing_prompts prompts (i0 :: missing))
                stop cbs w) as (Hcs & _).
  destruct (_generateUncached _ _ _ _ _) as [[results|e] w1]; simpl in Hcs |- *.
  2:{ split; [exists []; simpl; by apply cache_at_caches | by rewrite Hcs]. }
  rewrite bind_ret_snd, update_all_run. simpl.
  destruct (issue_all_update r (llmStringKey llm stop) prompts (i0 :: missing) 0
              (generations results) w1) as [_ (_ & _ & _ & Ho & Hr)].
  rewrite (cache_at_caches w w1) in Hr by done. rewrite <-Hcs.
  split; [eexists; exact Hr | exact Ho].
Qed.

(** A prompt that was found is not the prompt of a write. *)
Lemma hit_not_written llm sch stop r w prompts found rows i g q :
  looked_up llm stop r w prompts found →
  found !! i = Some (Some g) → prompts !! i = Some q →
  ∀ kv, kv ∈ writes prompts (missing_of sch found) 0 rows → kv.1 ≠ Some q.
Proof.
  intros Hf Hi Hq kv [Hkv|(j & Hj%missing_of_elem_of & Hkv)]%writes_keys Heq;
    [congruence|].
  rewrite Hkv in Heq.
  pose proof (Forall2_lookup_lr _ _ _ _ _ _ Hf Hq Hi) as H1.
  pose proof (Forall2_lookup_lr _ _ _ _ _ _ Hf Heq Hj) as H2. simpl in *. congruence.
Qed.

(** The row that a miss left in the cache: with a backend that returns a
    row for each prompt, the prompt of a collected index is cached after
    updates that were all fulfilled, and with distinct prompts under the
    row of the backend for it. *)
Lemma miss_written llm sch stop prompts found rows c k i q :
  length found = length prompts → length rows = length (missing_of sch found) →
  missing_of sch found !! k = Some i → prompts !! i = Some q →
  let ws := apply_writes (llmStringKey llm stop)
              (writes prompts (missing_of sch found) 0 rows) c in
  Forall is_ok ws.1 →
  ∃ v, cache_lookup ws.2 (Some q) (llmStringKey llm stop) = Ok (Some v) ∧
       (NoDup prompts → rows !! k = Some v).
Proof.
  intros Hlen Hrows Hk Hq ws Hok.
  destruct (lookup_lt_is_Some_2 rows k) as [row Hrow];
    [rewrite Hrows; by eapply lookup_lt_Some|].
  pose proof (writes_lookup prompts (missing_of sch found) 0 rows k row Hrow) as Hw.
  simpl in Hw. rewrite Hk in Hw. simpl in Hw. rewrite Hq in Hw.
  destruct (apply_writes_written _ _ c (Some q) Hok) as (v & Hv & Hl).
  { apply list_elem_of_fmap. exists (Some q, row). split; [done|].
    by eapply list_elem_of_lookup_2. }
  exists v. split; [done|]. intros Hnd. rewrite Hrow. f_equal. symmetry.
  eapply NoDup_fst_lookup; [|exact Hv|exact Hw].
  apply writes_NoDup; [done | apply missing_NoDup | | lia].
  intros j [k' [_ Hj]%missing_of_lookup]%list_elem_of_lookup_1. lia.
Qed.

(** After a call that returned, each prompt of the batch is cached; with
    distinct prompts, under its row of the result. *)
Lemma cached_after llm `{!BackendFrame llm} `{!BackendRows llm}
    sch prompts stop cbs w r found res w' i q :
  cache llm = Some r → looked_up llm stop r w prompts found →
  generate llm sch (PromptsArray prompts) stop cbs w = (Ok res, w') →
  prompts !! i = Some q →
  ∃ v, cache_lookup (cache_at w' r) (Some q) (llmStringKey llm stop) = Ok (Some v) ∧
       (NoDup prompts → generations res !! i = Some (Some v)).
Proof.
  intros Hc Hf Hgen Hq.
  destruct (Forall2_lookup_l _ _ _ _ _ Hf Hq) as (o & Hi & Hl).
  pose proof (looked_up_length _ _ _ _ _ _ Hf) as Hlen.
  destruct (generate_cached_inv _ _ _ _ _ _ _ _ _ _ Hc Hf Hgen)
    as [(Hnil & -> & ->)|(_ & results & w1 & Hu & Hup & ->)].
  { destruct o as [g|]; [by exists g|].
    apply (missing_of_elem_of sch) in Hi. rewrite Hnil in Hi. by apply elem_of_nil in Hi. }
  pose proof (generateUncached_frame llm
    (missing_prompts prompts (missing_of sch found)) stop cbs w) as (Hcs & _).
  pose proof (generateUncached_rows _ _ _ _ _ _ _ Hu) as Hrows.
  rewrite Hu in Hcs. unfold missing_prompts in Hrows. rewrite length_fmap in Hrows.
  apply update_all_ok_inv in Hup as [Hok (_ & _ & _ & _ & Hr)]. simpl in Hcs.
  rewrite (cache_at_caches w w1) in Hok, Hr by done. rewrite Hr. simpl.
  destruct o as [g|].
  - exists g. rewrite apply_writes_other by (right; by eapply hit_not_written).
    split; [done|]. intros _. rewrite splice_from_hit; [done|].
    rewrite missing_of_elem_of. congruence.
  - pose proof (proj2 (missing_of_elem_of sch found i) Hi) as [k Hk]%list_elem_of_lookup_1.
    destruct (miss_written llm sch stop prompts found (generations results)
                (cache_at w r) k i q Hlen Hrows Hk Hq Hok) as (v & Hv & Hrow).
    exists v. split; [done|]. intros Hnd.
    rewrite (splice_from_miss _ _ _ k)
      by (done || apply missing_NoDup || by eapply lookup_lt_Some).
    by rewrite (Hrow Hnd).
Qed.
(** C7.  [generate] writes to the cache only under the key of the call
    and only for the prompts of the indices it collected as misses: the
    entry of any other prompt or key reads as before the call, however the
    call ends, and the other cache objects are as they were. *)
Theorem generate_writes_only_misses llm `{!BackendFrame llm}
    sch prompts stop cbs w r found q key' :
  cache llm = Some r → looked_up llm stop r w prompts found →
  key' ≠ llmStringKey llm stop ∨
    (∀ i, i ∈ missing_of sch found → prompts !! i ≠ Some q) →
  let w' := (generate llm sch (PromptsArray prompts) stop cbs w).2 in
  cache_lookup (cache_at w' r) (Some q) key' = cache_lookup (cache_at w r) (Some q) key' ∧
  ∀ r', r' ≠ r → caches w' !! r' = caches w !! r'.
Proof.
  intros Hc Hf Hq.
  destruct (generate_cached_writes llm sch prompts stop cbs w r found Hc Hf)
    as [[rows Hr] Ho].
  cbv zeta. rewrite Hr. split; [|done]. apply apply_writes_other.
  destruct Hq as [?|Hq]; [by left | right].
  intros kv [Hkv|(j & Hj & Hkv)]%writes_keys; [congruence|]. rewrite Hkv. by apply Hq.
Qed.

(** C22.  A prompt that was found in the cache is not rewritten: after the
    call, however it ends, its entry holds the row that was found. *)
Theorem generate_hits_kept llm `{!BackendFrame llm} sch prompts stop cbs w r found i g q :
  cache llm = Some r → looked_up llm stop r w prompts found →
  found !! i = Some (Some g) → prompts !! i = Some q →
  cache_lookup (cache_at (generate llm sch (PromptsArray prompts) stop cbs w).2 r)
    (Some q) (llmStringKey llm stop) = Ok (Some g).
Proof.
  intros Hc Hf Hi Hq.
  destruct (generate_cached_writes llm sch prompts stop cbs w r found Hc Hf)
    as [[rows Hr] _].
  cbv zeta in Hr. rewrite Hr.
  rewrite apply_writes_other by (right; by eapply hit_not_written).
  exact (Forall2_lookup_lr _ _ _ _ _ _ Hf Hq Hi).
Qed.

(** After a call that returned, the rows the cache holds for the prompts
    of the batch. *)
Lemma all_cached_after llm `{!BackendFrame llm} `{!BackendRows llm}
    sch prompts stop cbs w r found res w' :
  cache llm = Some r → looked_up llm stop r w prompts found →
  generate llm sch (PromptsArray prompts) stop cbs w = (Ok res, w') →
  ∃ rows, looked_up llm stop r w' prompts (Some <$> rows).
Proof.
  intros Hc Hf Hgen.
  destruct (Forall2_exists (λ q v, cache_lookup (cache_at w' r) (Some q)
              (llmStringKey llm stop) = Ok (Some v)) prompts) as [rows Hrows].
  { apply Forall_lookup. intros i q Hq.
    destruct (cached_after llm sch prompts stop cbs w r found res w' i q)
      as (v & Hv & _); eauto. }
  exists rows. by apply Forall2_fmap_r.
Qed.

(** C6.  Memoization.  After a call that returned, with a cache that keeps
    what it is given and a backend that returns a row for each prompt,
    every prompt of the batch is cached under the key of the call: the same
    batch again, with whatever callbacks and timing, is answered from the
    cache and leaves the world as it is (no backend call, no event, no
    write). *)
Theorem generate_memoizes llm `{!BackendFrame llm} `{!BackendRows llm}
    sch prompts stop cbs w r found res w' :
  cache llm = Some r → looked_up llm stop r w prompts found →
  generate llm sch (PromptsArray prompts) stop cbs w = (Ok res, w') →
  ∃ rows, looked_up llm stop r w' prompts (Some <$> rows) ∧
    ∀ sch' cbs', generate llm sch' (PromptsArray prompts) stop cbs' w' =
                   (Ok (mkLLMResult (Some <$> rows) (Some []) None), w').
Proof.
  intros Hc Hf Hgen.
  destruct (all_cached_after llm sch prompts stop cbs w r found res w') as [rows Hf'];
    [done..|].
  exists rows. split; [done|]. intros sch' cbs'.
  rewrite (generate_cached_run _ _ _ _ _ _ r (Some <$> rows)) by done.
  by rewrite hits_no_miss.
Qed.

(** C28.  The cache tells calls apart by their key and by nothing else: a
    call with another stop list that has the same key (as [["a,b"]] has
    for [["a"; "b"]]) is answered with the rows cached by the
    first call, generated for the first stop list, and the backend is not
    asked. *)
Theorem generate_key_shared llm `{!BackendFrame llm} `{!BackendRows llm}
    sch prompts stop stop' cbs w r found res w' :
  cache llm = Some r → looked_up llm stop r w prompts found →
  llmStringKey llm stop' = llmStringKey llm stop →
  generate llm sch (PromptsArray prompts) stop cbs w = (Ok res, w') →
  ∃ rows, looked_up llm stop r w' prompts (Some <$> rows) ∧
    ∀ sch' cbs', generate llm sch' (PromptsArray prompts) stop' cbs' w' =
                   (Ok (mkLLMResult (Some <$> rows) (Some []) None), w').
Proof.
  intros Hc Hf Hkey Hgen.
  destruct (all_cached_after llm sch prompts stop cbs w r found res w') as [rows Hf'];
    [done..|].
  exists rows. split; [done|]. intros sch' cbs'.
  rewrite (generate_cached_run _ _ _ _ _ _ r (Some <$> rows))
    by (done || (unfold looked_up; by rewrite Hkey)).
  by rewrite hits_no_miss.
Qed.

(** C23.  With distinct prompts, the same batch again returns the rows of
    the first call: the second result has the [generations] of the first,
    an empty [llmOutput], and the world is not changed. *)
Theorem generate_twice llm `{!BackendFrame llm} `{!BackendRows llm}
    sch sch' prompts stop cbs cbs' w r found res w' :
  cache llm = Some r → looked_up llm stop r w prompts found → NoDup prompts →
  generate llm sch (PromptsArray prompts) stop cbs w = (Ok res, w') →
  generate llm sch' (PromptsArray prompts) stop cbs' w' =
    (Ok (mkLLMResult (generations res) (Some []) None), w').
Proof.
  intros Hc Hf Hnd Hgen.
  assert (looked_up llm stop r w' prompts (generations res)) as Hf'.
  { apply Forall2_same_length_lookup_2.
    - rewrite <-(looked_up_length _ _ _ _ _ _ Hf).
      destruct (generate_cached_inv _ _ _ _ _ _ _ _ _ _ Hc Hf Hgen)
        as [(_ & -> & _)|(_ & results & w1 & _ & _ & ->)]; simpl; [done|].
      symmetry. apply splice_from_length.
    - intros i q o Hq Ho.
      destruct (cached_after llm sch prompts stop cbs w r found res w' i q)
        as (v & Hv & Hres); eauto.
      rewrite (Hres Hnd) in Ho. by simplify_eq. }
  rewrite (generate_cached_run _ _ _ _ _ _ r (generations res)) by done.
  replace (missing_of sch' (generations res)) with (@nil nat); [done|].
  symmetry. apply filter_none, Forall_forall. intros i _ Hi%is_miss_spec.
  destruct (lookup_lt_is_Some_2 prompts i) as [q Hq].
  { rewrite (Forall2_length _ _ _ Hf'). by eapply lookup_lt_Some. }
  destruct (cached_after llm sch prompts stop cbs w r found res w' i q)
    as (v & _ & Hres); eauto.
  rewrite (Hres Hnd) in Hi. done.
Qed.
End memo.

(** ** The theorems at concrete inputs *)

Lemma generate_writes_only_misses_witness :
  let w' := (generate echo immediate (PromptsArray three_prompts) None None world1).2 in
  cache_lookup (cache_at w' 0) (Some "p2") (llmStringKey echo None) =
    cache_lookup (cache_at world1 0) (Some "p2") (llmStringKey echo None) ∧
  ∀ r', r' ≠ 0 → caches w' !! r' = caches world1 !! r'.
Proof.
  apply (generate_writes_only_misses echo (BackendFrame0:=echo_frame _ _) immediate
           three_prompts None None world1 0 found1 "p2").
  - reflexivity.
  - repeat constructor.
  - right. intros i Hi. vm_compute in Hi.
    apply elem_of_cons in Hi as [->|Hi]; [done|].
    apply list_elem_of_singleton in Hi as ->. done.
Defined.

Lemma generate_hits_kept_witness :
  cache_lookup
    (cache_at (generate echo reversed (PromptsArray three_prompts) None None world1).2 0)
    (Some "p2") (llmStringKey echo None) = Ok (Some cached_row).
Proof.
  apply (generate_hits_kept echo (BackendFrame0:=echo_frame _ _) reversed
           three_prompts None None world1 0 found1 1).
  - reflexivity.
  - repeat constructor.
  - reflexivity.
  - reflexivity.
Defined.

Lemma generate_memoizes_witness :
  let w' := (generate echo immediate (PromptsArray three_prompts) None None world1).2 in
  ∃ rows, looked_up echo None 0 w' three_prompts (Some <$> rows) ∧
    ∀ sch' cbs', generate echo sch' (PromptsArray three_prompts) None cbs' w' =
                   (Ok (mkLLMResult (Some <$> rows) (Some []) None), w').
Proof.
  apply (generate_memoizes echo (BackendFrame0:=echo_frame _ _)
           (BackendRows0:=echo_rows _ _) immediate three_prompts None None world1 0 found1
           (result_of (generate echo immediate (PromptsArray three_prompts) None None world1))).
  - reflexivity.
  - repeat constructor.
  - vm_compute. reflexivity.
Defined.

Lemma generate_twice_witness :
  let first := generate echo immediate (PromptsArray three_prompts) None None world1 in
  generate echo reversed (PromptsArray three_prompts) None None first.2 =
    (Ok (mkLLMResult (generations (result_of first)) (Some []) None), first.2).
Proof.
  apply (generate_twice echo (BackendFrame0:=echo_frame _ _)
           (BackendRows0:=echo_rows _ _) immediate reversed three_prompts None None None
           world1 0 found1).
  - reflexivity.
  - repeat constructor.
  - unfold three_prompts. compute_done.
  - vm_compute. reflexivity.
Defined.

Lemma generate_key_shared_witness :
  let w' := (generate echo immediate (PromptsArray ["q"]) (Some ["a"; "b"]) None mem0).2 in
  ∃ rows, looked_up echo (Some ["a"; "b"]) 0 w' ["q"] (Some <$> rows) ∧
    ∀ sch' cbs', generate echo sch' (PromptsArray ["q"]) (Some ["a,b"]) cbs' w' =
                   (Ok (mkLLMResult (Some <$> rows) (Some []) None), w').
Proof.
  apply (generate_key_shared echo (BackendFrame0:=echo_frame _ _)
           (BackendRows0:=echo_rows _ _) immediate ["q"] (Some ["a"; "b"]) (Some ["a,b"])
           None mem0 0 [None]
           (result_of (generate echo immediate (PromptsArray ["q"]) (Some ["a"; "b"])
                         None mem0))).
  - reflexivity.
  - repeat constructor.
  - vm_compute. reflexivity.
  - vm_compute. reflexivity.
Defined.
