(* ===== verification/Transparent.v ===== *)
(** * The cache is transparent

    The cached path against its reference, the uncached path.  With a
    backend that answers each prompt on its own ([BackendPointwise]) and a
    cache that keeps what it is given ([CacheLaws]), a cache that holds
    only rows of the backend ([consistent]) makes no difference to what
    [generate] returns, for every order in which the lookups and the
    updates settle, and [generate] leaves the cache so.  Hence a session of
    calls that starts from an empty cache returns, batch after batch, the
    rows the backend gives. *)

From stdpp Require Import strings gmap sorting.
From S2P Require Import Prelude JsValue Schema Handler Cache Manager LLM Backend.
From S2P Require Import Scenario Uncached Lookup Update Cached Memo.

#[local] Set Warnings "-clear-no-such-hyp".

Section transparent.
Context {C : Type} `{!CachePort C}.
Implicit Types (llm : BaseLLM C) (w : World C) (prompts : list string)
  (found : list (option (list Generation)))
  (oracle : option (list string) → string → list Generation).

(** The cache [r] holds, under the key of [llm] and [stop], only rows of
    the backend. *)
Definition consistent llm stop (r : nat) oracle w : Prop :=
  ∀ q g, cache_lookup (cache_at w r) (Some q) (llmStringKey llm stop) = Ok (Some g) →
         g = oracle stop q.

(** The rows of the reference: the backend's row for each prompt. *)
Definition reference oracle (stop : option (list string)) prompts :
    list (option (list Generation)) :=
  (λ q, Some (oracle stop q)) <$> prompts.

(** A session: one call of [generate] after the other, on the same model,
    with the same stop list. *)
Definition session llm (sch : Schedule) (stop : option (list string))
    (cbs : option Callbacks) (batches : list (list string)) :
    M (World C) Error (list LLMResultRaw) :=
  for_each (λ prompts, generate llm sch (PromptsArray prompts) stop cbs) batches.

(** The rows written for the results of a pointwise backend are the rows
    of the backend for the prompts they are written under. *)
Lemma writes_pointwise oracle stop prompts missing q v :
  (Some q, v) ∈ writes prompts missing 0 (oracle stop <$> missing_prompts prompts missing) →
  v = oracle stop q.
Proof.
  intros [k Hk]%list_elem_of_lookup_1.
  pose proof (lookup_lt_Some _ _ _ Hk) as Hlt. rewrite writes_length in Hlt.
  destruct (lookup_lt_is_Some_2 _ k Hlt) as [row Hrow].
  rewrite (writes_lookup _ _ 0 _ _ _ Hrow) in Hk. unfold missing_prompts in Hrow.
  rewrite !list_lookup_fmap in Hrow. simpl in Hk.
  destruct (missing !! k) as [i|]; simplify_eq/=. by rewrite H.
Qed.

(** A miss is answered with the row of the backend for its prompt. *)
Lemma miss_pointwise oracle stop prompts missing k i q :
  missing !! k = Some i → prompts !! i = Some q →
  (oracle stop <$> missing_prompts prompts missing) !! k = Some (oracle stop q).
Proof.
  intros Hk Hq. unfold missing_prompts. by rewrite !list_lookup_fmap, Hk; simpl; rewrite Hq.
Qed.

(** Writing rows of the backend keeps the cache consistent. *)
Lemma apply_writes_consistent `{!CacheLaws C} llm stop oracle prompts missing (c : C) q g :
  let ws := apply_writes (llmStringKey llm stop)
    (writes prompts missing 0 (oracle stop <$> missing_prompts prompts missing)) c in
  Forall is_ok ws.1 →
  (∀ g', cache_lookup c (Some q) (llmStringKey llm stop) = Ok (Some g') → g' = oracle stop q) →
  cache_lookup ws.2 (Some q) (llmStringKey llm stop) = Ok (Some g) → g = oracle stop q.
Proof.
  intros ws Hok Hc Hl. subst ws.
  set (kvs := writes _ _ _ _) in *.
  destruct (decide (Some q ∈ kvs.*1)) as [Hin|Hnin].
  - destruct (apply_writes_written _ kvs c (Some q) Hok Hin) as (v & Hv & Hl').
    rewrite Hl' in Hl. simplify_eq. by eapply writes_pointwise.
  - rewrite apply_writes_other in Hl; [by apply Hc|]. right.
    intros kv Hkv Heq. apply Hnin, list_elem_of_fmap. eauto.
Qed.
(** The rows of the backend spliced into the rows of a consistent cache
    are the rows of the reference. *)
Lemma splice_reference llm oracle sch stop r w prompts found :
  looked_up llm stop r w prompts found → consistent llm stop r oracle w →
  splice_from 0 (missing_of sch found)
    (oracle stop <$> missing_prompts prompts (missing_of sch found)) found =
  reference oracle stop prompts.
Proof.
  intros Hf Hcons. pose proof (looked_up_length _ _ _ _ _ _ Hf) as Hlen.
  apply list_eq. intros i. unfold reference. rewrite list_lookup_fmap.
  destruct (prompts !! i) as [q|] eqn:Hq; simpl.
  - destruct (Forall2_lookup_l _ _ _ _ _ Hf Hq) as ([g|] & Hi & Hl).
    + rewrite splice_from_hit, Hi by (rewrite missing_of_elem_of; congruence).
      by rewrite (Hcons q g Hl).
    + pose proof (proj2 (missing_of_elem_of sch found i) Hi) as [k Hk]%list_elem_of_lookup_1.
      rewrite (splice_from_miss _ _ _ k)
        by (done || apply missing_NoDup || by eapply lookup_lt_Some).
      by rewrite (miss_pointwise oracle stop prompts _ k i q).
  - apply lookup_ge_None. rewrite splice_from_length, Hlen. by apply lookup_ge_None.
Qed.

Section step.
Context `{!CacheLaws C} llm oracle `{!BackendFrame llm} `{!BackendPointwise llm oracle}.
Context (sch : Schedule) (stop : option (list string)) (cbs : option Callbacks) (r : nat).
Context (Hcache : cache llm = Some r).

(** One call: the rows are those of the reference. *)
Lemma transparent_rows prompts w found res w' :
  looked_up llm stop r w prompts found → consistent llm stop r oracle w →
  generate llm sch (PromptsArray prompts) stop cbs w = (Ok res, w') →
  generations res = reference oracle stop prompts.
Proof.
  intros Hf Hcons Hgen.
  rewrite <-(splice_reference llm oracle sch stop r w prompts found) by done.
  destruct (generate_cached_inv _ _ _ _ _ _ _ _ _ _ Hcache Hf Hgen)
    as [(Hnil & -> & _)|(_ & results & w1 & Hu & _ & ->)]; simpl.
  - by rewrite Hnil.
  - by rewrite (generateUncached_pointwise _ oracle _ _ _ _ _ _ Hu).
Qed.

(** One call: the cache stays consistent. *)
Lemma transparent_cache prompts w found res w' :
  looked_up llm stop r w prompts found → consistent llm stop r oracle w →
  generate llm sch (PromptsArray prompts) stop cbs w = (Ok res, w') →
  consistent llm stop r oracle w'.
Proof.
  intros Hf Hcons Hgen.
  destruct (generate_cached_inv _ _ _ _ _ _ _ _ _ _ Hcache Hf Hgen)
    as [(_ & _ & ->)|(_ & results & w1 & Hu & Hup & _)]; [done|].
  pose proof (generateUncached_frame llm
    (missing_prompts prompts (missing_of sch found)) stop cbs w) as (Hcs & _).
  rewrite Hu in Hcs. simpl in Hcs.
  rewrite (generateUncached_pointwise _ oracle _ _ _ _ _ _ Hu) in Hup.
  apply update_all_ok_inv in Hup as [Hok (_ & _ & _ & _ & Hr)].
  rewrite (cache_at_caches w w1) in Hok, Hr by done.
  intros q g Hl. rewrite Hr in Hl.
  eapply apply_writes_consistent; [exact Hok | apply Hcons | exact Hl].
Qed.

(** C5.  The cache is transparent.  With a backend that answers each
    prompt on its own and a cache that holds only rows of the backend,
    [generate] returns for each prompt the row of the backend, as the
    uncached path does, whatever the order in which lookups and updates
    settle and whatever was cached; and the cache still holds only rows of
    the backend. *)
Theorem generate_transparent prompts w found res w' :
  looked_up llm stop r w prompts found → consistent llm stop r oracle w →
  generate llm sch (PromptsArray prompts) stop cbs w = (Ok res, w') →
  generations res = reference oracle stop prompts ∧ consistent llm stop r oracle w'.
Proof. intros. split; [by eapply transparent_rows | by eapply transparent_cache]. Qed.

(** C10.  A session of calls on a reliable cache that is consistent at the
    start returns, batch after batch, the rows of the backend, and leaves
    the cache consistent. *)
Theorem session_transparent `{!CacheReliable C} batches w results w' :
  consistent llm stop r oracle w →
  session llm sch stop cbs batches w = (Ok results, w') →
  generations <$> results = reference oracle stop <$> batches ∧
  consistent llm stop r oracle w'.
Proof.
  unfold session. revert w results. induction batches as [|prompts batches IH];
    intros w results Hcons; simpl.
  - by intros [= <- <-].
  - intros (res & w1 & Hgen & (ress & w2 & Hl & [= <- <-])%bind_ok_inv)%bind_ok_inv.
    destruct (looked_up_exists llm stop r w prompts) as [found Hf].
    destruct (IH w1 ress) as [Hrows Hcons']; [by eapply transparent_cache | done |].
    csimpl. split; [|done]. f_equal; [by eapply transparent_rows | done].
Qed.
End step.
End transparent.

(** ** The theorems at concrete inputs *)

Lemma generate_transparent_witness :
  let run := generate echo reversed (PromptsArray ["p1"; "p3"; "p1"]) None None mem0 in
  generations (result_of run) = reference echo_row None ["p1"; "p3"; "p1"] ∧
  consistent echo None 0 echo_row run.2.
Proof.
  apply (generate_transparent echo echo_row (BackendFrame0:=echo_frame _ _)
           (BackendPointwise0:=echo_pointwise _ _) reversed None None 0 eq_refl
           ["p1"; "p3"; "p1"] mem0 [None; None; None]).
  - repeat constructor.
  - intros q g Hl. vm_compute in Hl. discriminate.
  - vm_compute. reflexivity.
Defined.

Lemma session_transparent_witness :
  let batches := [["p1"; "p2"]; ["p2"; "p3"]; ["p1"; "p3"]] in
  let run := session echo reversed None None batches mem0 in
  generations <$> match run.1 with Ok rs => rs | Throw _ => [] end =
    reference echo_row None <$> batches ∧
  consistent echo None 0 echo_row run.2.
Proof.
  apply (session_transparent echo echo_row (BackendFrame0:=echo_frame _ _)
           (BackendPointwise0:=echo_pointwise _ _) reversed None None 0 eq_refl
           [["p1"; "p2"]; ["p2"; "p3"]; ["p1"; "p3"]] mem0).
  - intros q g Hl. vm_compute in Hl. discriminate.
  - vm_compute. reflexivity.
Defined.
