(* ===== verification/Progress.v ===== *)
(** * What a call costs, and that it returns

    [generate] on every branch, up to the caches: the world after the call
    is the world before it, or the world the uncached path leaves on some
    of the prompts ([generate_via_uncached]).  From this: the bounds of a
    call (at most one identifier drawn, at most one call of the backend,
    on at most as many prompts as the batch has); the identifiers of the
    runs (fresh at every call, so that the events of two runs never mix);
    and that a call returns a result when the cache is reliable, the
    backend answers and no hook rejects. *)

From stdpp Require Import strings gmap sorting.
From S2P Require Import Prelude JsValue Schema Handler Cache Manager LLM Backend.
From S2P Require Import Scenario Uncached Lifecycle Lookup Update Cached Memo.

#[local] Set Warnings "-clear-no-such-hyp".

Section progress.
Context {C : Type} `{!CachePort C}.
Implicit Types (llm : BaseLLM C) (w : World C) (prompts : list string)
  (found : list (option (list Generation))).

(** [w2] is [w1] up to the caches. *)
Definition same_logs w1 w2 : Prop :=
  trace w2 = trace w1 ∧ calls w2 = calls w1 ∧ uuids w2 = uuids w1.

(** Every delivery of [ds] is of a run with an identifier drawn before the
    [n]-th. *)
Definition runs_below (n : nat) (ds : list Delivery) : Prop :=
  Forall (λ d, ∃ m, event_run (event d) = uuid_of m ∧ m < n) ds.

(** The runs of the trace were drawn from the supply of identifiers. *)
Definition runs_wf w : Prop := runs_below (uuids w) (trace w).

(** The lookups are all fulfilled, or [lookup_all] rejects and leaves the
    world as it is. *)
Lemma looked_up_or_rejected llm sch stop r w prompts :
  (∃ found, looked_up llm stop r w prompts found) ∨
  (∃ e, lookup_all sch r (llmStringKey llm stop) prompts w = (Throw e, w)).
Proof.
  rewrite lookup_all_run. cbv zeta.
  destruct (first_rejection _ _) as [e|] eqn:Hrej; [right; eauto | left].
  replace (length prompts) with (length (lookups (cache_at w r) (llmStringKey llm stop)
    prompts)) in Hrej by apply length_fmap.
  apply first_rejection_None_all_ok, all_ok_fulfilled in Hrej.
  eexists. unfold looked_up. apply Forall2_fmap. rewrite Hrej.
  by apply Forall_Forall2_diag, Forall_true.
Qed.

Lemma missing_of_length sch found : length (missing_of sch found) ≤ length found.
Proof.
  unfold missing_of. etrans; [apply length_filter|]. by rewrite completion_order_length.
Qed.

(** Up to the caches, [generate] leaves the world as it is or as the
    uncached path leaves it on some of the prompts. *)
Lemma generate_via_uncached llm sch prompts stop cbs w :
  let w' := (generate llm sch (PromptsArray prompts) stop cbs w).2 in
  same_logs w w' ∨
  ∃ ps, length ps ≤ length prompts ∧
        same_logs (_generateUncached llm ps stop cbs w).2 w'.
Proof.
  destruct (cache llm) as [r|] eqn:Hc.
  2:{ right. exists prompts. unfold generate. rewrite Hc, bind_ret_snd. done. }
  destruct (looked_up_or_rejected llm sch stop r w prompts) as [[found Hf]|[e He]].
  2:{ left. unfold generate. rewrite Hc. unfold bind. by rewrite He. }
  rewrite (generate_cached_run _ _ _ _ _ _ r found) by done.
  destruct (missing_of sch found) as [|i0 missing] eqn:Hm; [by left|]. right.
  exists (missing_prompts prompts (i0 :: missing)). split.
  { unfold missing_prompts. rewrite length_fmap, <-Hm, <-(looked_up_length _ _ _ _ _ _ Hf).
    apply missing_of_length. }
  unfold bind at 1. destruct (_generateUncached _ _ _ _ _) as [[results|e] w1]; [|done].
  rewrite bind_ret_snd.
  pose proof (update_all_frame sch r (llmStringKey llm stop) prompts (i0 :: missing)
                found (generations results) w1) as (Ht & Hk & Hu & _). done.
Qed.
(** ** Bounds *)

(** C15.  The cost of a call, however it ends: it draws at most one
    identifier, and it calls the backend at most once, with the stop list
    of the call and at most as many prompts as the batch has. *)
Theorem generate_bounds llm `{!BackendFrame llm} sch prompts stop cbs w :
  let w' := (generate llm sch (PromptsArray prompts) stop cbs w).2 in
  uuids w ≤ uuids w' ≤ S (uuids w) ∧
  (calls w' = calls w ∨
   ∃ ps run, calls w' = calls w ++ [mkBackendCall ps stop run] ∧
             length ps ≤ length prompts).
Proof.
  cbv zeta. destruct (generate_via_uncached llm sch prompts stop cbs w)
    as [(_ & -> & ->)|(ps & Hps & _ & -> & ->)]; [split; [lia | by left]|].
  destruct (generateUncached_frame llm ps stop cbs w) as (_ & Hu & [Hk|[run Hk]]).
  - split; [done | by left].
  - split; [done | right; eauto].
Qed.

(** ** The identifiers of the runs *)

Lemma runs_below_mono n m ds : n ≤ m → runs_below n ds → runs_below m ds.
Proof.
  intros Hle Hn. eapply Forall_impl; [exact Hn|].
  intros d (k & Hk & Hlt). exists k. split; [done | lia].
Qed.

(** The deliveries of a call carry the identifier it drew, which no
    earlier delivery carries, and the trace stays within the supply. *)
Lemma generateUncached_runs llm `{!BackendFrame llm} prompts stop cbs w :
  runs_wf w →
  let w' := (_generateUncached llm prompts stop cbs w).2 in
  runs_wf w' ∧
  ∃ ds, trace w' = trace w ++ ds ∧
        Forall (λ d, correlated (uuid_of (uuids w)) (callbacks_parent cbs) (event d)) ds.
Proof.
  intros Hwf.
  destruct (generateUncached_correlated llm prompts stop cbs w) as (ds & Ht & Hds & Hu).
  destruct (generateUncached_frame llm prompts stop cbs w) as (_ & Hle & _).
  split; [|by exists ds]. unfold runs_wf, runs_below. rewrite Ht, Forall_app. split.
  - eapply runs_below_mono; [|exact Hwf]. lia.
  - destruct Hu as [->|Hu]; [done|]. eapply Forall_impl; [exact Hds|].
    intros d [Hd _]. exists (uuids w). split; [done | lia].
Qed.

(** C13.  The events of a call are those of one run, and its identifier
    is fresh.  In a world whose trace holds only runs drawn from the
    supply, the deliveries of a call of [generate] are all of events of an
    LLM run with one identifier, the next of the supply, nested in the run
    the caller passed; no delivery of the trace before the call carries
    that identifier; and the world after the call is again such a world. *)
Theorem generate_runs_fresh llm `{!BackendFrame llm} sch prompts stop cbs w :
  runs_wf w →
  let w' := (generate llm sch (PromptsArray prompts) stop cbs w).2 in
  runs_wf w' ∧
  ∃ ds, trace w' = trace w ++ ds ∧
        Forall (λ d, correlated (uuid_of (uuids w)) (callbacks_parent cbs) (event d)) ds ∧
        Forall (λ d, event_run (event d) ≠ uuid_of (uuids w)) (trace w).
Proof.
  intros Hwf.
  assert (Forall (λ d, event_run (event d) ≠ uuid_of (uuids w)) (trace w)) as Hold.
  { eapply Forall_impl; [exact Hwf|]. intros d (m & -> & Hlt) Heq%uuid_of_inj. lia. }
  unfold runs_wf. cbv zeta.
  destruct (generate_via_uncached llm sch prompts stop cbs w)
    as [(-> & _ & ->)|(ps & _ & -> & _ & ->)].
  - split; [done|]. exists []. by rewrite app_nil_r.
  - destruct (generateUncached_runs llm ps stop cbs w Hwf) as (Hwf' & ds & Ht & Hds).
    split; [done|]. by exists ds.
Qed.

End progress.

(** ** A call returns *)

Section completes.
Context {C : Type} `{!CachePort C}.
Implicit Types (llm : BaseLLM C) (w : World C) (prompts : list string)
  (found : list (option (list Generation))).

Lemma apply_writes_reliable `{!CacheReliable C} key kvs (c : C) :
  Forall is_ok (apply_writes key kvs c).1.
Proof.
  revert c. induction kvs as [|[p v] kvs IH]; intros c; simpl; [done|].
  destruct (update_ok c p key v) as [c' ->]. specialize (IH c').
  destruct (apply_writes key kvs c'). by constructor.
Qed.

(** The updates of a reliable cache are all fulfilled. *)
Lemma update_all_completes `{!CacheReliable C} sch r key prompts missing found rows w :
  ∃ w', update_all sch r key prompts missing found rows w =
          (Ok (splice_from 0 missing rows found), w').
Proof.
  rewrite update_all_run. cbv zeta.
  destruct (issue_all_update r key prompts missing 0 rows w) as [Hos _]. simpl in Hos.
  rewrite Hos, all_ok_first_rejection by apply apply_writes_reliable. by eexists.
Qed.

(** The uncached path returns when the backend answers and no hook
    rejects. *)
Lemma generateUncached_completes llm `{!BackendTotal llm} prompts stop cbs w :
  quiet (run_handlers llm cbs) →
  ∃ out w', _generateUncached llm prompts stop cbs w = (Ok out, w').
Proof.
  intros Hq. destruct (run_handlers llm cbs) as [|h hs] eqn:Hhs.
  - rewrite generateUncached_unobserved by done.
    destruct (generate_total prompts stop None
                (log_call (mkBackendCall prompts stop None) w)) as (out & w' & ->); [done|].
    by eexists _, _.
  - rewrite (generateUncached_observed _ _ _ _ _ (h :: hs)) by done.
    rewrite emit_outcome_quiet by done.
    match goal with |- context [_generate llm prompts stop ?rm ?w1] =>
      destruct (generate_total prompts stop rm w1) as (out & w' & ->); [done|] end.
    rewrite emit_outcome_quiet by done. by eexists _, _.
Qed.

(** C14.  A call returns.  With a cache none of whose operations rejects, a
    backend that answers and handlers none of whose hooks rejects,
    [generate] returns a result, with or without a cache and whatever the
    order in which the lookups and the updates settle. *)
Theorem generate_completes llm `{!CacheReliable C} `{!BackendTotal llm}
    sch prompts stop cbs w :
  quiet (run_handlers llm cbs) →
  ∃ res w', generate llm sch (PromptsArray prompts) stop cbs w = (Ok res, w').
Proof.
  intros Hq. destruct (cache llm) as [r|] eqn:Hc.
  - destruct (looked_up_exists llm stop r w prompts) as [found Hf].
    rewrite (generate_cached_run _ _ _ _ _ _ r found) by done.
    destruct (missing_of sch found) as [|i0 missing]; [by eexists _, _|].
    destruct (generateUncached_completes llm (missing_prompts prompts (i0 :: missing))
                stop cbs w Hq) as (results & w1 & Hu).
    rewrite (bind_run_ok _ _ _ _ _ Hu).
    destruct (update_all_completes sch r (llmStringKey llm stop) prompts (i0 :: missing)
                found (generations results) w1) as (w2 & Hup).
    rewrite (bind_run_ok _ _ _ _ _ Hup). by eexists _, _.
  - destruct (generateUncached_completes llm prompts stop cbs w Hq) as (out & w1 & Hu).
    unfold generate. rewrite Hc, (bind_run_ok _ _ _ _ _ Hu). by eexists _, _.
Qed.

(** C16.  A rejected update.  When the backend has answered for the misses
    and an update of the cache rejects, [generate] rejects with the
    rejection of an update: the rows of the backend are lost to the
    caller.  Every update was issued all the same, so that the cache holds
    the rows of the updates that were fulfilled. *)
Theorem generate_update_failure llm sch prompts stop cbs w r found results w1 :
  cache llm = Some r → looked_up llm stop r w prompts found →
  missing_of sch found ≠ [] →
  _generateUncached llm (missing_prompts prompts (missing_of sch found)) stop cbs w =
    (Ok results, w1) →
  let ws := apply_writes (llmStringKey llm stop)
              (writes prompts (missing_of sch found) 0 (generations results))
              (cache_at w1 r) in
  ¬ Forall is_ok ws.1 →
  ∃ e w', generate llm sch (PromptsArray prompts) stop cbs w = (Throw e, w') ∧
          Throw e ∈ ws.1 ∧ cache_at w' r = ws.2 ∧ same_logs w1 w'.
Proof.
  intros Hc Hf Hne Hu ws Hbad. rewrite (generate_cached_run _ _ _ _ _ _ r found) by done.
  destruct (missing_of sch found) as [|i0 missing] eqn:Hm; [done|].
  rewrite (bind_run_ok _ _ _ _ _ Hu). unfold bind. rewrite update_all_run. cbv zeta.
  pose proof (issue_all_length (update_one r (llmStringKey llm stop) prompts (i0 :: missing))
                0 (generations results) w1) as Hlen.
  destruct (issue_all_update r (llmStringKey llm stop) prompts (i0 :: missing) 0
              (generations results) w1) as [Hos (Ht & Hk & Hid & _ & Hr)].
  simpl in Hos. fold ws in Hos, Hr. rewrite <-Hlen, Hos.
  destruct (first_rejection _ _) as [e|] eqn:Hrej.
  - apply first_rejection_Some in Hrej as (i & _ & Hi). unfold rejection_at in Hi.
    destruct (ws.1 !! i) as [[?|e']|] eqn:Hwi; simplify_eq.
    eexists e, _. split_and!; [done | by eapply list_elem_of_lookup_2 | done | done].
  - rewrite <-Hos in Hrej. by apply first_rejection_None_all_ok in Hrej; rewrite Hos in Hrej.
Qed.
End completes.

(** ** The theorems at concrete inputs *)

Lemma generate_runs_fresh_witness :
  let w' := (generate echo reversed (PromptsArray three_prompts) None None world1).2 in
  runs_wf w' ∧
  ∃ ds, trace w' = trace world1 ++ ds ∧
        Forall (λ d, correlated (uuid_of (uuids world1)) None (event d)) ds ∧
        Forall (λ d, event_run (event d) ≠ uuid_of (uuids world1)) (trace world1).
Proof.
  apply (generate_runs_fresh echo (BackendFrame0:=echo_frame _ _) reversed three_prompts
           None None world1).
  constructor.
Defined.

Lemma generate_completes_witness :
  ∃ res w', generate echo reversed (PromptsArray three_prompts) None None world1 =
              (Ok res, w').
Proof.
  apply (generate_completes echo (BackendTotal0:=echo_total _ _) reversed three_prompts
           None None world1).
  intros h e err ->%list_elem_of_singleton. by destruct e.
Defined.

Lemma generate_update_failure_witness :
  let run := generate faulty_echo immediate (PromptsArray three_prompts) None None
               jammed_world in
  let w1 := (_generateUncached faulty_echo three_prompts None None jammed_world).2 in
  let ws := apply_writes (llmStringKey faulty_echo None)
              (writes three_prompts [0; 1; 2] 0
                 [echo_row None "p1"; echo_row None "p2"; echo_row None "p3"])
              (cache_at w1 1) in
  ∃ e w', run = (Throw e, w') ∧ Throw e ∈ ws.1 ∧ cache_at w' 1 = ws.2 ∧ same_logs w1 w'.
Proof.
  apply (generate_update_failure faulty_echo immediate three_prompts None None jammed_world
           1 [None; None; None]
           (mkLLMResult [echo_row None "p1"; echo_row None "p2"; echo_row None "p3"]
              None None)).
  - reflexivity.
  - repeat constructor.
  - vm_compute. discriminate.
  - vm_compute. reflexivity.
  - intros H. apply (Forall_lookup_1 _ _ 2 (Throw "cache update failed")) in H; [done|].
    vm_compute. reflexivity.
Defined.

Lemma generate_bounds_witness :
  let w' := (generate echo reversed (PromptsArray three_prompts) None None world1).2 in
  uuids world1 ≤ uuids w' ≤ S (uuids world1) ∧
  (calls w' = calls world1 ∨
   ∃ ps run, calls w' = calls world1 ++ [mkBackendCall ps None run] ∧
             length ps ≤ length three_prompts).
Proof.
  apply (generate_bounds echo (BackendFrame0:=echo_frame _ _) reversed three_prompts
           None None world1).
Defined.
