(* ===== verification/Session.v ===== *)
(** * The runs of a session

    A session is a sequence of calls of [generate] on one model.  Each call
    that notifies draws a fresh identifier for its run, so that the events
    of a run are those of one call: for a handler that listens, every run
    of the session has a complete life (start, tokens, one terminal
    event), and the events of different runs do not mix. *)

From stdpp Require Import strings gmap sorting.
From S2P Require Import Prelude JsValue Schema Handler Cache Manager LLM Backend.
From S2P Require Import Scenario Uncached Lifecycle Lookup Update Cached Memo.
From S2P Require Import Transparent Progress.

#[local] Set Warnings "-clear-no-such-hyp".

Section session.
Context {C : Type} `{!CachePort C}.
Implicit Types (llm : BaseLLM C) (w : World C) (h : BaseCallbackHandler)
  (ds : list Delivery) (es : list Event).

(** The life of the run with the [n]-th identifier, as [h] was told, is
    complete. *)
Definition run_complete h w (n : nat) : Prop :=
  run_steps Idle (events_of_run (uuid_of n) (deliveries_to (name h) (trace w))) Drained.

(** Every run drawn so far is in the trace with a complete life, and the
    trace has no other run. *)
Definition runs_complete h w : Prop :=
  runs_wf w ∧ ∀ n, n < uuids w → run_complete h w n.

Lemma events_of_run_app r es1 es2 :
  events_of_run r (es1 ++ es2) = events_of_run r es1 ++ events_of_run r es2.
Proof. unfold events_of_run. apply filter_app. Qed.

Lemma Forall_deliveries_to (P : Event → Prop) nm ds :
  Forall (λ d, P (event d)) ds → Forall P (deliveries_to nm ds).
Proof.
  intros H. unfold deliveries_to. apply Forall_fmap. unfold compose.
  apply Forall_forall. intros d [_ Hd]%list_elem_of_filter.
  by apply (proj1 (Forall_forall _ _) H).
Qed.

Lemma events_of_run_all r es :
  Forall (λ e, event_run e = r) es → events_of_run r es = es.
Proof. apply filter_all. Qed.

Lemma events_of_run_none r es :
  Forall (λ e, event_run e ≠ r) es → events_of_run r es = [].
Proof. intros H. apply filter_none. eapply Forall_impl; [exact H|]. naive_solver. Qed.

(** The runs of a trace within the supply are not the next of the supply. *)
Lemma runs_below_fresh n ds m :
  runs_below n ds → n ≤ m → Forall (λ d, event_run (event d) ≠ uuid_of m) ds.
Proof.
  intros H Hle. eapply Forall_impl; [exact H|].
  intros d (k & -> & Hlt) Heq%uuid_of_inj. lia.
Qed.

(** A trace extended by the deliveries of a new run: the earlier runs are
    as they were, and the new run is the extension. *)
Lemma run_extended h w w' ds n :
  runs_wf w → trace w' = trace w ++ ds →
  Forall (λ d, event_run (event d) = uuid_of (uuids w)) ds →
  events_of_run (uuid_of n) (deliveries_to (name h) (trace w')) =
    if decide (n = uuids w) then deliveries_to (name h) ds
    else events_of_run (uuid_of n) (deliveries_to (name h) (trace w)).
Proof.
  intros Hwf -> Hds. rewrite deliveries_to_app, events_of_run_app. case_decide as Hn.
  - subst n. rewrite events_of_run_none, events_of_run_all; [done| |].
    + by apply Forall_deliveries_to.
    + by apply Forall_deliveries_to, (runs_below_fresh (uuids w)).
  - rewrite (events_of_run_none _ (deliveries_to (name h) ds)); [by rewrite app_nil_r|].
    apply Forall_deliveries_to. eapply Forall_impl; [exact Hds|].
    intros d -> Heq%uuid_of_inj. done.
Qed.
Lemma same_logs_complete h w1 w2 :
  same_logs w1 w2 → runs_complete h w1 → runs_complete h w2.
Proof.
  intros (Ht & _ & Hu). unfold runs_complete, runs_wf, run_complete. by rewrite Ht, Hu.
Qed.

Section calls.
Context llm `{!BackendFrame llm} (cbs : option Callbacks) (h : BaseCallbackHandler).
Context (Hh : h ∈ run_handlers llm cbs) (Hl : llm_listener h).
Context (Hq : quiet (run_handlers llm cbs)).

(** The uncached path adds one complete run. *)
Lemma generateUncached_complete prompts stop w :
  runs_complete h w → runs_complete h (_generateUncached llm prompts stop cbs w).2.
Proof.
  intros [Hwf Hruns].
  assert (run_handlers llm cbs ≠ []) as Hne.
  { intros Hnil. pose proof Hh as Hh'. rewrite Hnil in Hh'. by apply elem_of_nil in Hh'. }
  destruct (generateUncached_deliveries llm prompts stop cbs w _ eq_refl Hne)
    as (Hu & tok & fin & Ht & Htok & Hfin & Hg & _).
  rewrite emit_outcome_quiet in Ht by done. simpl in Ht.
  destruct (generateUncached_runs llm prompts stop cbs w Hwf) as (Hwf' & ds & Ht' & Hds).
  split; [done|]. intros n Hn. unfold run_complete. rewrite (run_extended h w _ ds n Hwf Ht').
  2:{ eapply Forall_impl; [exact Hds|]. by intros d [? _]. }
  case_decide.
  - rewrite Ht' in Ht. apply (inj (app _)) in Ht as ->.
    by eapply (call_steps _ h _ tok fin _ true); [apply run_handlers_NoDup|..].
  - apply Hruns. lia.
Qed.

(** So does a call of [generate], when it notifies at all. *)
Lemma generate_complete sch prompts stop w :
  runs_complete h w →
  runs_complete h (generate llm sch (PromptsArray prompts) stop cbs w).2.
Proof.
  intros Hw. destruct (generate_via_uncached llm sch prompts stop cbs w)
    as [Hsame|(ps & _ & Hsame)]; (eapply same_logs_complete; [exact Hsame|]); [done|].
  by apply generateUncached_complete.
Qed.

(** C11.  The runs of a session.  For a handler of the calls that listens
    to LLM events, when no hook rejects: after a session of calls of
    [generate], every run that was ever started is in the trace with a
    complete life of its own (a start, tokens, one terminal event), the
    events of different runs being told apart by their identifiers, and
    the trace has no event of any other run. *)
Theorem session_runs_complete sch stop batches w :
  runs_complete h w → runs_complete h (session llm sch stop cbs batches w).2.
Proof.
  apply (for_each_invariant (runs_complete h)). intros prompts w0. apply generate_complete.
Qed.
End calls.
End session.

(** ** The theorem at a concrete input *)

Lemma session_runs_complete_witness :
  runs_complete (observer "h1")
    (session echo reversed None None [["p1"; "p2"]; ["p2"; "p3"]; ["p1"; "p4"]] mem0).2.
Proof.
  apply (session_runs_complete echo (BackendFrame0:=echo_frame _ _) None (observer "h1")).
  - apply list_elem_of_singleton. reflexivity.
  - compute_done.
  - intros h e err ->%list_elem_of_singleton. by destruct e.
  - split; [constructor | intros n Hn; simpl in Hn; lia].
Defined.
