(* ===== verification/Call.v ===== *)
(** * The rows of a result, and [call]

    On the cached path the rows of the result are typed [Generation[]] but
    assembled from the cache and from what the backend returned: they are
    all there when the backend returns a row for each prompt, and [null]
    where it returned fewer.  [call] reads the first candidate of the first
    row of a batch of one. *)

From stdpp Require Import strings gmap sorting.
From S2P Require Import Prelude JsValue Schema Handler Cache Manager LLM Backend.
From S2P Require Import Scenario Uncached Lookup Update Cached.

#[local] Set Warnings "-clear-no-such-hyp".

Section call.
Context {C : Type} `{!CachePort C}.
Implicit Types (llm : BaseLLM C) (w : World C) (prompts : list string)
  (found : list (option (list Generation))).

(** [call] after [generate]. *)
Lemma call_run llm sch prompt stop cbs w :
  call llm sch prompt stop cbs w =
    let '(o, w') := generate llm sch (PromptsArray [prompt]) stop cbs w in
    (match o with Ok res => first_text (generations res) | Throw e => Throw e end, w').
Proof.
  unfold call, bind, await.
  destruct (generate _ _ _ _ _ _) as [[res|e] w']; [|done]. by destruct (first_text _).
Qed.

(** C21.  With a backend that returns a row for each prompt it is given,
    every row of a result of the cached path is there: the row of a hit
    from the cache, the row of a miss from the backend. *)
Theorem generate_no_holes llm `{!BackendRows llm} sch prompts stop cbs w r found res w' :
  cache llm = Some r → looked_up llm stop r w prompts found →
  generate llm sch (PromptsArray prompts) stop cbs w = (Ok res, w') →
  Forall is_Some (generations res).
Proof.
  intros Hc Hf Hgen. apply Forall_lookup. intros i o Hi.
  destruct (generate_cached_inv _ _ _ _ _ _ _ _ _ _ Hc Hf Hgen)
    as [(Hnil & -> & _)|(_ & results & w1 & Hu & _ & ->)]; simpl in Hi.
  { destruct o; [done|]. apply (missing_of_elem_of sch) in Hi.
    rewrite Hnil in Hi. by apply elem_of_nil in Hi. }
  pose proof (generateUncached_rows _ _ _ _ _ _ _ Hu) as Hrows.
  unfold missing_prompts in Hrows. rewrite length_fmap in Hrows.
  destruct (decide (i ∈ missing_of sch found)) as [[k Hk]%list_elem_of_lookup_1|Hnin].
  - destruct (lookup_lt_is_Some_2 (generations results) k) as [row Hrow];
      [rewrite Hrows; by eapply lookup_lt_Some|].
    rewrite (splice_from_miss _ _ _ k) in Hi
      by (done || apply missing_NoDup || by eapply missing_of_lookup).
    rewrite Hrow in Hi. by simplify_eq.
  - rewrite splice_from_hit in Hi by done. destruct o; [done|].
    by apply (missing_of_elem_of sch) in Hi.
Qed.

(** C35.  [call] returns the text of the first candidate of the first row
    of [generate] on the batch of the one prompt, in the world [generate]
    leaves. *)
Theorem call_first_text llm sch prompt stop cbs w res w' g gs rest :
  generate llm sch (PromptsArray [prompt]) stop cbs w = (Ok res, w') →
  generations res = Some (g :: gs) :: rest →
  call llm sch prompt stop cbs w = (Ok (text g), w').
Proof. intros Hgen Hrows. by rewrite call_run, Hgen; unfold first_text; rewrite Hrows. Qed.

(** [call] on a prompt that is cached under the key of the call
    returns the text of the first cached candidate and leaves the world as
    it is: no backend call, no event. *)
Theorem call_cached llm sch prompt stop cbs w r g gs :
  cache llm = Some r →
  cache_lookup (cache_at w r) (Some prompt) (llmStringKey llm stop) = Ok (Some (g :: gs)) →
  call llm sch prompt stop cbs w = (Ok (text g), w).
Proof.
  intros Hc Hl. rewrite call_run.
  rewrite (generate_cached_run _ _ _ _ _ _ r (Some <$> [g :: gs])) by (done || by constructor).
  by rewrite hits_no_miss.
Qed.

(** [call] rejects with the error of [generate], and with a
    [TypeError] when [generate] returns a first row without a candidate. *)
Theorem call_rejects llm sch prompt stop cbs w o w' :
  generate llm sch (PromptsArray [prompt]) stop cbs w = (o, w') →
  match o with
  | Throw e => call llm sch prompt stop cbs w = (Throw e, w')
  | Ok res => generations res !! 0 = Some (Some []) →
      call llm sch prompt stop cbs w =
        (Throw "TypeError: Cannot read properties of undefined (reading 'text')", w')
  end.
Proof.
  intros Hgen. rewrite call_run, Hgen. destruct o as [res|e]; [|done].
  intros Hrow. unfold first_text. by rewrite Hrow.
Qed.
End call.

(** ** The theorems at concrete inputs *)

Lemma generate_no_holes_witness :
  Forall is_Some (generations (result_of
    (generate echo reversed (PromptsArray three_prompts) None None world1))).
Proof.
  apply (generate_no_holes echo (BackendRows0:=echo_rows _ _) reversed three_prompts
           None None world1 0 found1 _
           (generate echo reversed (PromptsArray three_prompts) None None world1).2).
  - reflexivity.
  - repeat constructor.
  - vm_compute. reflexivity.
Defined.

Lemma call_first_text_witness :
  call echo immediate "p1" None None world1 =
    (Ok "echo:p1", (generate echo immediate (PromptsArray ["p1"]) None None world1).2).
Proof.
  apply (call_first_text echo immediate "p1" None None world1
           (result_of (generate echo immediate (PromptsArray ["p1"]) None None world1))
           _ (mkGeneration "echo:p1" None) [] []).
  - vm_compute. reflexivity.
  - vm_compute. reflexivity.
Defined.

Lemma call_cached_witness :
  call echo immediate "p2" None None world1 = (Ok "cached", world1).
Proof.
  apply (call_cached echo immediate "p2" None None world1 0 (mkGeneration "cached" None) []).
  - reflexivity.
  - reflexivity.
Defined.

Lemma call_rejects_witness :
  call (failing_with CacheAbsent []) immediate "p1" None None mem0 =
    (Throw "backend failed",
     (generate (failing_with CacheAbsent []) immediate (PromptsArray ["p1"]) None None mem0).2).
Proof.
  apply (call_rejects (failing_with CacheAbsent []) immediate "p1" None None mem0
           (Throw "backend failed")).
  vm_compute. reflexivity.
Defined.
