(* ===== verification/Examples.v ===== *)
(** * The orchestrator at concrete inputs

    Runs of [generate] that show what the general theorems leave open: the
    order of the prompts the backend is given when the lookups settle out
    of order, and the rows of a result and the entries of the cache when
    the backend returns fewer or more rows than it was given prompts. *)

From stdpp Require Import strings gmap sorting.
From S2P Require Import Prelude JsValue Schema Handler Cache Manager LLM Backend.
From S2P Require Import Scenario Uncached Lookup Update Cached.

(** A backend that returns two rows, whatever it is asked. *)
Definition wordy_generate {C} (prompts : list string) (stop : option (list string))
    (rm : option CallbackManagerForLLMRun) : M (World C) Error LLMResult :=
  ret (mkLLMResult [[mkGeneration "one" None]; [mkGeneration "two" None]] None None).

Definition wordy : BaseLLM InMemoryCache :=
  construct_llm "wordy" wordy_generate "wordy" base_identifyingParams
    (params (CacheFlag true) []).

(** With lookups that settle in the reverse order of issue, the
    backend is given the missing prompts in the order the lookups settled,
    ["p3"] before ["p1"], not in the order of the batch; each row of the
    result is still at the index of its prompt. *)
Example generate_backend_order :
  let run := generate echo reversed (PromptsArray three_prompts) None None world1 in
  calls run.2 = [mkBackendCall ["p3"; "p1"] None (Some "uuid-0")] ∧
  generations (result_of run) =
    [Some [mkGeneration "echo:p1" None]; Some cached_row; Some [mkGeneration "echo:p3" None]].
Proof. vm_compute. done. Qed.

(** With a backend that returns one row for three prompts, the
    result has the row at the first miss and [null] at the others, and
    only the first miss is cached: the same batch again fills the second
    row with the row the backend returns for the two prompts left. *)
Example generate_holes :
  let llm := short_with (CacheFlag true) in
  let first := generate llm immediate (PromptsArray three_prompts) None None mem0 in
  let second := generate llm immediate (PromptsArray three_prompts) None None first.2 in
  generations (result_of first) = [Some [mkGeneration "only" None]; None; None] ∧
  generations (result_of second) =
    [Some [mkGeneration "only" None]; Some [mkGeneration "only" None]; None] ∧
  call_prompts <$> calls second.2 = [three_prompts; ["p2"; "p3"]].
Proof. vm_compute. done. Qed.

(** With a backend that returns two rows for one prompt, the result
    has the first row, and the second row is written to the cache under
    the key of the call for the prompt [undefined]. *)
Example generate_surplus :
  let run := generate wordy immediate (PromptsArray ["p1"]) None None mem0 in
  generations (result_of run) = [Some [mkGeneration "one" None]] ∧
  cache_lookup (cache_at run.2 global_cache) None (llmStringKey wordy None) =
    Ok (Some [mkGeneration "two" None]).
Proof. vm_compute. done. Qed.
